(** * Knowledge-graph construction and question answering

    A shallow embedding of [kgqa_agent/graph_builder.py] and
    [kgqa_agent/query_router.py], and the properties of the two entry points
    [build_graph] and [answer_question]; then the endpoints of
    [kgqa_agent/api.py] over them.

    - Python [str] values are modelled as [string]; the model is exact on
      ASCII text (a character above 127 is kept as it is: it is no letter,
      no digit and no white space).
    - A function that can raise returns a [result]: a value or an exception.
    - [re] is modelled by a backtracking matcher over the fragment of the
      pattern language the code uses, [networkx.DiGraph] by its table of
      nodes and its table of edges, both in insertion order.
    - A Python set is the list of its members in an iteration order the
      properties do not fix ([set_iteration]).
    - The text splitter, [difflib]'s similarity ratio and [nx.shortest_path]
      are parameters of the functions that call them; the properties hold
      for every splitter and every ratio, and for every path finder that
      returns paths of the graph.  An instance of each serves in the
      examples.
    - An endpoint is a function of the storage, a dictionary in insertion
      order, that returns its response or raises; the identifier and the
      time of an ingestion are arguments, and the rounded density of a graph,
      the validation of a response and the text of an exception are
      parameters. *)

From Stdlib Require Import Bool Arith Lia List Ascii String QArith Permutation.
From Stdlib Require Import DecimalString Sorted.
Import ListNotations.

Local Open Scope string_scope.
Local Open Scope list_scope.
Local Open Scope nat_scope.

Set Implicit Arguments.

(* ================================================================== *)
(** * Characters and strings *)
(* ================================================================== *)

Module Str.

Definition code (c : ascii) : nat := nat_of_ascii c.

Definition between (lo hi : nat) (c : ascii) : bool :=
  (lo <=? code c) && (code c <=? hi).

(** [A-Z], [a-z], [0-9]. *)
Definition is_upper : ascii -> bool := between 65 90.
Definition is_lower : ascii -> bool := between 97 122.
Definition is_digit : ascii -> bool := between 48 57.

(** [\w]: letters, digits and the underscore. *)
Definition is_word (c : ascii) : bool :=
  is_upper c || is_lower c || is_digit c || (code c =? 95).

(** [\s] and [str.isspace]: tab, line feed, vertical tab, form feed,
    carriage return, the four separators 28..31 and the space. *)
Definition is_space (c : ascii) : bool :=
  between 9 13 c || between 28 31 c || (code c =? 32).

Definition quote : ascii := ascii_of_nat 34.
Definition newline : ascii := ascii_of_nat 10.
Definition nl : string := String newline "".

Definition lower_char (c : ascii) : ascii :=
  if is_upper c then ascii_of_nat (code c + 32) else c.

(** [s.lower()]. *)
Fixpoint lower (s : string) : string :=
  match s with
  | "" => ""
  | String c s' => String (lower_char c) (lower s')
  end.

Fixpoint lstrip (s : string) : string :=
  match s with
  | "" => ""
  | String c s' => if is_space c then lstrip s' else s
  end.

Fixpoint rev_string (acc s : string) : string :=
  match s with
  | "" => acc
  | String c s' => rev_string (String c acc) s'
  end.

(** [s.strip()]. *)
Definition strip (s : string) : string :=
  rev_string "" (lstrip (rev_string "" (lstrip s))).

(** [sub in s] on strings. *)
Fixpoint contains (sub s : string) : bool :=
  if prefix sub s then true
  else match s with
       | "" => false
       | String _ s' => contains sub s'
       end.

(** [sep.join(parts)]. *)
Fixpoint join (sep : string) (parts : list string) : string :=
  match parts with
  | [] => ""
  | [p] => p
  | p :: rest => (p ++ sep ++ join sep rest)%string
  end.

(** [x in xs] on a list or a set of strings. *)
Definition mem (x : string) (xs : list string) : bool :=
  existsb (String.eqb x) xs.

End Str.

(* ================================================================== *)
(** * Regular expressions, as the [re] module matches them *)
(* ================================================================== *)

Module Re.

(** The fragment of the pattern language the two modules use. *)
Inductive regex : Type :=
| Eps
| OneOf (p : ascii -> bool)     (* one character of a class *)
| WordBoundary                  (* \b *)
| Seq (r1 r2 : regex)
| Alt (r1 r2 : regex)           (* r1|r2, r1 tried first *)
| Star (r : regex)              (* r*, greedy *)
| LazyStar (r : regex)          (* r*?, lazy *)
| Group (n : nat) (r : regex).  (* the n-th capturing group *)

Definition Plus (r : regex) : regex := Seq r (Star r).

(** A position in the subject: the characters before it (the nearest one
    first), the characters after it, and the groups captured so far. *)
Record cursor : Type := Cursor {
  before : list ascii;
  after : list ascii;
  captured : list (nat * string)
}.

Definition advance (c : ascii) (rest : list ascii) (cu : cursor) : cursor :=
  Cursor (c :: before cu) rest (captured cu).

Definition word_at (l : list ascii) : bool :=
  match l with
  | [] => false
  | c :: _ => Str.is_word c
  end.

Definition capture (n start : nat) (cu : cursor) : cursor :=
  let text := rev (firstn (List.length (before cu) - start) (before cu)) in
  Cursor (before cu) (after cu) ((n, string_of_list_ascii text) :: captured cu).

(** Backtracking matcher in continuation-passing style: [run r cu k] matches
    [r] at [cu] and hands every way of doing so to [k], in the order the
    [re] engine tries them, until [k] accepts one.  A star repeats its body
    as long as the body consumes a character (the bodies of the stars of the
    two modules always do), so the characters left bound its iterations. *)
Fixpoint run (r : regex) (cu : cursor) (k : cursor -> option cursor)
  {struct r} : option cursor :=
  match r with
  | Eps => k cu
  | OneOf p =>
      match after cu with
      | c :: rest => if p c then k (advance c rest cu) else None
      | [] => None
      end
  | WordBoundary =>
      if xorb (word_at (before cu)) (word_at (after cu)) then k cu else None
  | Seq r1 r2 => run r1 cu (fun cu1 => run r2 cu1 k)
  | Alt r1 r2 =>
      match run r1 cu k with
      | Some m => Some m
      | None => run r2 cu k
      end
  | Star r1 =>
      (fix loop (fuel : nat) (cu : cursor) : option cursor :=
         match fuel with
         | 0 => k cu
         | S fuel' =>
             match run r1 cu (fun cu1 =>
                     if List.length (after cu1) <? List.length (after cu)
                     then loop fuel' cu1 else None) with
             | Some m => Some m
             | None => k cu
             end
         end) (List.length (after cu)) cu
  | LazyStar r1 =>
      (fix loop (fuel : nat) (cu : cursor) : option cursor :=
         match k cu with
         | Some m => Some m
         | None =>
             match fuel with
             | 0 => None
             | S fuel' =>
                 run r1 cu (fun cu1 =>
                   if List.length (after cu1) <? List.length (after cu)
                   then loop fuel' cu1 else None)
             end
         end) (List.length (after cu)) cu
  | Group n r1 =>
      run r1 cu (fun cu1 => k (capture n (List.length (before cu)) cu1))
  end.

(** A match object: where it starts and ends, and its groups. *)
Record rmatch : Type := Match {
  m_start : nat;
  m_end : nat;
  m_whole : string;
  m_groups : list (nat * string)
}.

Definition found (start : list ascii) (cu : cursor) : rmatch :=
  let n := List.length start in
  Match n (List.length (before cu))
    (string_of_list_ascii (rev (firstn (List.length (before cu) - n) (before cu))))
    (captured cu).

Fixpoint lookup (n : nat) (gs : list (nat * string)) : option string :=
  match gs with
  | [] => None
  | (i, s) :: gs' => if i =? n then Some s else lookup n gs'
  end.

(** [match.group(n)]; [None] for a group that took no part in the match. *)
Definition group (n : nat) (m : rmatch) : option string :=
  match n with
  | 0 => Some (m_whole m)
  | _ => lookup n (m_groups m)
  end.

(** The first match at or after a position, scanning left to right. *)
Fixpoint scan (r : regex) (bef aft : list ascii) {struct aft}
  : option (rmatch * cursor) :=
  match run r (Cursor bef aft []) Some with
  | Some cu => Some (found bef cu, cu)
  | None =>
      match aft with
      | [] => None
      | c :: rest => scan r (c :: bef) rest
      end
  end.

(** [re.search(pattern, text)]. *)
Definition search (r : regex) (text : string) : option rmatch :=
  option_map fst (scan r [] (list_ascii_of_string text)).

(** The successive non-overlapping matches.  After a match the scan goes on
    where the match ended (one character further after an empty match;
    no pattern of the two modules matches the empty string). *)
Fixpoint matches_from (fuel : nat) (r : regex) (bef aft : list ascii)
  : list rmatch :=
  match fuel with
  | 0 => []
  | S fuel' =>
      match scan r bef aft with
      | None => []
      | Some (m, cu) =>
          m :: (if m_start m <? m_end m
                then matches_from fuel' r (before cu) (after cu)
                else match after cu with
                     | [] => []
                     | c :: rest => matches_from fuel' r (c :: before cu) rest
                     end)
      end
  end.

(** [re.finditer(pattern, text)]. *)
Definition finditer (r : regex) (text : string) : list rmatch :=
  matches_from (S (String.length text)) r [] (list_ascii_of_string text).

(** [re.findall(pattern, text)] for a pattern without a group (the whole
    matches) and for a pattern with one group (what the group captured). *)
Definition findall0 (r : regex) (text : string) : list string :=
  map m_whole (finditer r text).

Definition findall1 (r : regex) (text : string) : list string :=
  map (fun m => match group 1 m with Some s => s | None => "" end)
      (finditer r text).

(** ** Pattern syntax *)

Definition chr (ignorecase : bool) (c : ascii) : regex :=
  OneOf (fun x => if ignorecase
                  then Ascii.eqb (Str.lower_char x) (Str.lower_char c)
                  else Ascii.eqb x c).

(** A literal word of the pattern. *)
Fixpoint lit (ignorecase : bool) (s : string) : regex :=
  match s with
  | "" => Eps
  | String c "" => chr ignorecase c
  | String c s' => Seq (chr ignorecase c) (lit ignorecase s')
  end.

(** [\w], [\s], [.] (any character but the line feed), [[A-Z]], [[a-z]],
    any character but the quote, and the quote. *)
Definition word_char : regex := OneOf Str.is_word.
Definition space : regex := OneOf Str.is_space.
Definition dot : regex := OneOf (fun c => negb (Ascii.eqb c Str.newline)).
Definition upper_case : regex := OneOf Str.is_upper.
Definition lower_case : regex := OneOf Str.is_lower.
Definition not_quote : regex := OneOf (fun c => negb (Ascii.eqb c Str.quote)).
Definition the_quote : regex := OneOf (Ascii.eqb Str.quote).

Fixpoint seq (rs : list regex) : regex :=
  match rs with
  | [] => Eps
  | [r] => r
  | r :: rs' => Seq r (seq rs')
  end.

End Re.

(* ================================================================== *)
(** * Exceptions *)
(* ================================================================== *)

Module Py.

(** The exceptions the two modules can meet. *)
Inductive exn : Type :=
| IndexError | KeyError | AttributeError
| NetworkXError | NodeNotFound | NetworkXNoPath.

(** A computation returns a value or raises. *)
Inductive result (A : Type) : Type :=
| Ok (a : A)
| Raise (e : exn).

Arguments Ok {A} a.
Arguments Raise {A} e.

Definition bind {A B : Type} (m : result A) (f : A -> result B) : result B :=
  match m with
  | Ok a => f a
  | Raise e => Raise e
  end.

(** [xs[i]]. *)
Definition index {A : Type} (xs : list A) (i : nat) : result A :=
  match nth_error xs i with
  | Some x => Ok x
  | None => Raise IndexError
  end.

(** [for x in xs: acc = body(acc, x)]. *)
Fixpoint for_each {A S : Type} (xs : list A) (body : S -> A -> result S)
  (acc : S) : result S :=
  match xs with
  | [] => Ok acc
  | x :: rest => bind (body acc x) (for_each rest body)
  end.

End Py.

Import Py.

Notation "x <- m ;; k" := (Py.bind m (fun x => k))
  (at level 61, m at next level, right associativity).

(* ================================================================== *)
(** * Directed graphs, as [networkx.DiGraph] keeps them *)
(* ================================================================== *)

Module Nx.

(** The nodes with their [type] attribute, in insertion order, and the
    edges, keyed by the ordered pair of their ends, with their [relation]
    attribute, in the order in which each pair was first added.  Of that
    order networkx keeps, and the functions below read, the order of the
    edges that leave one node and the order of the edges that enter one
    node; the order in which [graph.edges] goes through the edges of the
    whole graph (source after source, in node order) is not modelled, and
    the code never iterates over it. *)
Record DiGraph : Type := Graph {
  node_table : list (string * option string);
  edge_table : list ((string * string) * option string)
}.

(** [nx.DiGraph()]. *)
Definition empty : DiGraph := Graph [] [].

(** [graph.nodes()]. *)
Definition nodes (g : DiGraph) : list string := map fst (node_table g).

Definition number_of_nodes (g : DiGraph) : nat := List.length (node_table g).

Definition has_node (g : DiGraph) (n : string) : bool := Str.mem n (nodes g).

(** The key of an edge: the ordered pair of its ends. *)
Definition at_pair (u v : string) (k : string * string) : bool :=
  String.eqb (fst k) u && String.eqb (snd k) v.

Definition same_pair (u v : string) (e : (string * string) * option string) : bool :=
  String.eqb (fst (fst e)) u && String.eqb (snd (fst e)) v.

Definition has_edge (g : DiGraph) (u v : string) : bool :=
  existsb (same_pair u v) (edge_table g).

Fixpoint update_attr {K : Type} (same : K -> bool) (attr : option string)
  (table : list (K * option string)) : list (K * option string) :=
  match table with
  | [] => []
  | (k, old) :: rest =>
      if same k
      then (k, match attr with Some _ => attr | None => old end) :: rest
      else (k, old) :: update_attr same attr rest
  end.

(** [graph.add_node(n, type=ty)]: a new node goes last; the attributes of
    a node already there are updated. *)
Definition add_node (g : DiGraph) (n : string) (ty : option string) : DiGraph :=
  if has_node g n
  then Graph (update_attr (String.eqb n) ty (node_table g)) (edge_table g)
  else Graph (node_table g ++ [(n, ty)]) (edge_table g).

Definition ensure_node (g : DiGraph) (n : string) : DiGraph :=
  if has_node g n then g else Graph (node_table g ++ [(n, None)]) (edge_table g).

(** [graph.add_edge(u, v, relation=rel)]: both ends become nodes when they
    are not; the pair gets one entry, whose [relation] the call sets. *)
Definition add_edge (g : DiGraph) (u v : string) (rel : option string) : DiGraph :=
  let g := ensure_node (ensure_node g u) v in
  if has_edge g u v
  then Graph (node_table g) (update_attr (at_pair u v) rel (edge_table g))
  else Graph (node_table g) (edge_table g ++ [((u, v), rel)]).

Definition out_neighbours (g : DiGraph) (n : string) : list string :=
  map (fun e => snd (fst e))
      (filter (fun e => String.eqb (fst (fst e)) n) (edge_table g)).

Definition in_neighbours (g : DiGraph) (n : string) : list string :=
  map (fun e => fst (fst e))
      (filter (fun e => String.eqb (snd (fst e)) n) (edge_table g)).

(** [graph.successors(n)], [graph.predecessors(n)] and [graph.neighbors(n)]
    (of a directed graph: its successors); each raises for a missing node. *)
Definition successors (g : DiGraph) (n : string) : result (list string) :=
  if has_node g n then Ok (out_neighbours g n) else Raise NetworkXError.

Definition predecessors (g : DiGraph) (n : string) : result (list string) :=
  if has_node g n then Ok (in_neighbours g n) else Raise NetworkXError.

Definition neighbors : DiGraph -> string -> result (list string) := successors.

(** [graph.edges[u, v]]: the attributes of the edge, here its [relation]. *)
Definition edge_data (g : DiGraph) (u v : string) : result (option string) :=
  match find (same_pair u v) (edge_table g) with
  | Some e => Ok (snd e)
  | None => Raise KeyError
  end.

(** [graph.nodes[n]]: the attributes of the node, here its [type]. *)
Definition node_data (g : DiGraph) (n : string) : result (option string) :=
  match find (fun e => String.eqb (fst e) n) (node_table g) with
  | Some e => Ok (snd e)
  | None => Raise KeyError
  end.

(** [attrs.get(key, default)]. *)
Definition get (attr : option string) (default : string) : string :=
  match attr with
  | Some v => v
  | None => default
  end.

(** [graph.number_of_edges()]. *)
Definition number_of_edges (g : DiGraph) : nat := List.length (edge_table g).

(** The degree of a node of a directed graph: the edges that leave it and
    the edges that enter it (a loop counts twice). *)
Definition degree (g : DiGraph) (n : string) : nat :=
  List.length (out_neighbours g n) + List.length (in_neighbours g n).

(** [dict(graph.degree())]. *)
Definition degrees (g : DiGraph) : list (string * nat) :=
  map (fun n => (n, degree g n)) (nodes g).

End Nx.

Import Re.

(* ================================================================== *)
(** * graph_builder.py *)
(* ================================================================== *)

(** The iteration order of a Python set of strings: a set is kept as the list
    of its members, and [iter_order] puts that list in the order in which the
    interpreter iterates over the set. *)
Record set_iteration : Type := SetIteration {
  iter_order :> list string -> list string;
  iter_order_perm : forall l, Permutation (iter_order l) l
}.

Definition triple : Type := string * string * string.

Module Builder.

(** [\b[A-Z][a-z]+(?:\s+[A-Z][a-z]+)*\b] *)
Definition capitalized_pattern : regex :=
  seq [WordBoundary; upper_case; Plus lower_case;
       Star (seq [Plus space; upper_case; Plus lower_case]); WordBoundary].

(** A quote, a group of any characters but the quote, a quote. *)
Definition quoted_pattern : regex :=
  seq [the_quote; Group 1 (Star not_quote); the_quote].

Definition stop_words : list string :=
  ["The"; "This"; "That"; "These"; "Those"; "A"; "An"].

(** [\w+(?:\s+\w+)*] *)
Definition words : regex :=
  seq [Plus word_char; Star (seq [Plus space; Plus word_char])].

(** [(words)\s+VERB\s+(words)], under [re.IGNORECASE]. *)
Definition relation_pattern (verb : list regex) : regex :=
  seq ([Group 1 words; Plus space] ++ verb ++ [Plus space; Group 2 words]).

Definition relation_patterns : list (regex * string) :=
  [ (relation_pattern
       [lit true "is"; Plus space; Alt (lit true "a") (lit true "an")], "is_a");
    (relation_pattern [lit true "has"], "has");
    (relation_pattern [lit true "works"; Plus space; lit true "at"], "works_at");
    (relation_pattern [lit true "lives"; Plus space; lit true "in"], "lives_in");
    (relation_pattern [lit true "founded"], "founded");
    (relation_pattern [lit true "created"], "created") ].

(** [match.group(n).strip()]. *)
Definition group_strip (n : nat) (m : rmatch) : result string :=
  match group n m with
  | Some text => Ok (Str.strip text)
  | None => Raise AttributeError
  end.

(** [any(text.lower() in entity.lower() for entity in entities)]. *)
Definition within_some_entity (text : string) (entities : list string) : bool :=
  existsb (fun entity => Str.contains (Str.lower text) (Str.lower entity)) entities.

(** [_find_best_entity_match]. *)
Definition _find_best_entity_match (entity : string) (entity_set : list string)
  : option string :=
  let entity_lower := Str.lower entity in
  match find (fun e => String.eqb (Str.lower e) entity_lower) entity_set with
  | Some e => Some e
  | None =>
      find (fun e => Str.contains entity_lower (Str.lower e)
                     || Str.contains (Str.lower e) entity_lower) entity_set
  end.

(** The truth value of a string or [None]. *)
Definition truthy (x : option string) : bool :=
  match x with
  | Some text => negb (String.eqb text "")
  | None => false
  end.

(** The defaults of [KnowledgeGraphBuilder], which the splitter receives. *)
Definition chunk_size : nat := 1000.
Definition chunk_overlap : nat := 200.

Section WithLibraries.

(** The iteration order of sets, and [text_splitter.split_text]. *)
Variable order : set_iteration.
Variable split_text : string -> list string.

(** [extract_entities]. *)
Definition extract_entities (text : string) : list string :=
  let capitalized_words := findall0 capitalized_pattern text in
  let quoted_phrases := findall1 quoted_pattern text in
  let entities := nodup string_dec (capitalized_words ++ quoted_phrases) in
  order (filter (fun entity => negb (Str.mem entity stop_words)
                               && (2 <? String.length entity)) entities).

(** The body of the two loops of [extract_relations]. *)
Definition keep_match (entities : list string) (relation_type : string)
  (relations : list triple) (m : rmatch) : result (list triple) :=
  subject <- group_strip 1 m ;;
  obj <- group_strip 2 m ;;
  if within_some_entity subject entities && within_some_entity obj entities
  then Ok (relations ++ [(subject, relation_type, obj)])
  else Ok relations.

(** [extract_relations]. *)
Definition extract_relations (text : string) (entities : list string)
  : result (list triple) :=
  for_each relation_patterns
    (fun relations '(pattern, relation_type) =>
       for_each (finditer pattern text)
         (keep_match entities relation_type) relations)
    [].

(** The body of the loop over the entities of a chunk. *)
Definition add_entity (graph : Nx.DiGraph) (entity : string) : result Nx.DiGraph :=
  Ok (if negb (Nx.has_node graph entity)
      then Nx.add_node graph entity (Some "entity")
      else graph).

(** The body of the loop over the relations of a chunk: the edge is added
    when both matches are true values (a string that is not empty). *)
Definition add_relation (entities : list string) (graph : Nx.DiGraph)
  (relation : triple) : result Nx.DiGraph :=
  let '(subject, predicate, obj) := relation in
  let subject_match := _find_best_entity_match subject entities in
  let obj_match := _find_best_entity_match obj entities in
  match subject_match, obj_match with
  | Some u, Some v =>
      Ok (if truthy subject_match && truthy obj_match
          then Nx.add_edge graph u v (Some predicate)
          else graph)
  | _, _ => Ok graph
  end.

(** The body of the loop over the chunks. *)
Definition add_chunk (graph : Nx.DiGraph) (chunk : string) : result Nx.DiGraph :=
  let entities := extract_entities chunk in
  graph <- for_each entities add_entity graph ;;
  relations <- extract_relations chunk entities ;;
  for_each relations (add_relation entities) graph.

(** [build_graph_from_chunks]. *)
Definition build_graph_from_chunks (text_chunks : list string) : result Nx.DiGraph :=
  for_each text_chunks add_chunk Nx.empty.

(** [build_graph]. *)
Definition build_graph (texts : list string) : result Nx.DiGraph :=
  match texts with
  | [] => Ok Nx.empty
  | _ =>
      let combined_text := Str.join (Str.nl ++ Str.nl)%string texts in
      let chunks := split_text combined_text in
      build_graph_from_chunks chunks
  end.

End WithLibraries.

End Builder.

(* ================================================================== *)
(** * query_router.py *)
(* ================================================================== *)

Module Router.

(** The dictionary [question_patterns], in insertion order; the patterns are
    searched in the lowercased question.  A group [(.*?)] is lazy. *)
Definition any_text (n : nat) : regex := Group n (LazyStar dot).

Definition relationship_patterns : list regex :=
  [ seq [lit false "what is the relationship between "; any_text 1;
         lit false " and "; any_text 2; lit false "?"];
    seq [lit false "how is "; any_text 1; lit false " related to ";
         any_text 2; lit false "?"] ].

Definition what_is_patterns : list regex :=
  [ seq [lit false "what is "; any_text 1; lit false "?"];
    seq [lit false "what are "; any_text 1; lit false "?"] ].

Definition who_is_patterns : list regex :=
  [ seq [lit false "who is "; any_text 1; lit false "?"];
    seq [lit false "who are "; any_text 1; lit false "?"] ].

Definition question_patterns : list (string * list regex) :=
  [ ("relationship", relationship_patterns);
    ("what_is", what_is_patterns);
    ("who_is", who_is_patterns) ].

Definition question_words : list string :=
  ["What"; "Who"; "Where"; "When"; "How"; "Why"; "Which"].

(** [extract_entities_from_question]. *)
Definition extract_entities_from_question (question : string) : list string :=
  let capitalized_words := findall0 Builder.capitalized_pattern question in
  let quoted_phrases := findall1 Builder.quoted_pattern question in
  filter (fun e => negb (Str.mem e question_words))
         (capitalized_words ++ quoted_phrases).

(** The mentions a matching pattern captures. *)
Definition mentions (q_type : string) (m : rmatch) : result (list string) :=
  if String.eqb q_type "relationship"
  then first <- Builder.group_strip 1 m ;;
       second <- Builder.group_strip 2 m ;;
       Ok [first; second]
  else first <- Builder.group_strip 1 m ;;
       Ok [first].

(** The two loops of [classify_question]: the first pattern of the first
    question type that matches decides. *)
Fixpoint try_patterns (q_type : string) (patterns : list regex)
  (question_lower : string) : option (result (string * list string)) :=
  match patterns with
  | [] => None
  | pattern :: rest =>
      match search pattern question_lower with
      | Some m => Some (entities <- mentions q_type m ;; Ok (q_type, entities))
      | None => try_patterns q_type rest question_lower
      end
  end.

Fixpoint try_types (table : list (string * list regex)) (question_lower : string)
  : option (result (string * list string)) :=
  match table with
  | [] => None
  | (q_type, patterns) :: rest =>
      match try_patterns q_type patterns question_lower with
      | Some answer => Some answer
      | None => try_types rest question_lower
      end
  end.

(** [classify_question]. *)
Definition classify_question (question : string) : result (string * list string) :=
  let question_lower := Str.lower question in
  match try_types question_patterns question_lower with
  | Some answer => answer
  | None => Ok ("general", extract_entities_from_question question)
  end.

(** What [get_entity_information] returns for a node of the graph. *)
Record entity_info : Type := EntityInfo {
  entity : string;
  attributes : option string;
  outgoing_relations : list (string * string);   (* target, relation *)
  incoming_relations : list (string * string);   (* source, relation *)
  neighbors : list string
}.

(** The default of the parameter [threshold], 0.6. *)
Definition default_threshold : Q := 6 # 10.

Section WithLibraries.

(** [SequenceMatcher(None, a, b).ratio()] and [nx.shortest_path]. *)
Variable ratio : string -> string -> Q.
Variable shortest_path : Nx.DiGraph -> string -> string -> result (list string).

Variable graph : Nx.DiGraph.

(** The loop of [find_similar_entities]. *)
Fixpoint similar_loop (entity_lower : string) (threshold : Q)
  (nodes similar_entities : list string) : list string :=
  match nodes with
  | [] => similar_entities
  | node :: rest =>
      let node_lower := Str.lower node in
      if String.eqb entity_lower node_lower then [node]
      else
        let similar_entities :=
          if Str.contains entity_lower node_lower
             || Str.contains node_lower entity_lower
          then (similar_entities ++ [node]) else similar_entities in
        let similarity := ratio entity_lower node_lower in
        let similar_entities :=
          if Qle_bool threshold similarity
          then (similar_entities ++ [node]) else similar_entities in
        similar_loop entity_lower threshold rest similar_entities
  end.

(** [find_similar_entities]. *)
Definition find_similar_entities (entity : string) (threshold : Q) : list string :=
  similar_loop (Str.lower entity) threshold (Nx.nodes graph) [].

(** [get_entity_information]; [None] is the empty dictionary. *)
Definition get_entity_information (entity : string) : result (option entity_info) :=
  if negb (Str.mem entity (Nx.nodes graph)) then Ok None
  else
    attrs <- Nx.node_data graph entity ;;
    neighbours <- Nx.neighbors graph entity ;;
    targets <- Nx.successors graph entity ;;
    outgoing <- for_each targets
      (fun acc neighbor =>
         edge_data <- Nx.edge_data graph entity neighbor ;;
         Ok (acc ++ [(neighbor, Nx.get edge_data "unknown")])) [] ;;
    sources <- Nx.predecessors graph entity ;;
    incoming <- for_each sources
      (fun acc predecessor =>
         edge_data <- Nx.edge_data graph predecessor entity ;;
         Ok (acc ++ [(predecessor, Nx.get edge_data "unknown")])) [] ;;
    Ok (Some (EntityInfo entity attrs outgoing incoming neighbours)).

(** The relations along a path: [path_nodes[i]] to [path_nodes[i + 1]]. *)
Fixpoint path_relations (path_nodes : list string) : result (list triple) :=
  match path_nodes with
  | source :: (target :: _) as rest =>
      edge_data <- Nx.edge_data graph source target ;;
      relations <- path_relations rest ;;
      Ok ((source, Nx.get edge_data "connected_to", target) :: relations)
  | _ => Ok []
  end.

(** [find_path_between_entities]: [NetworkXNoPath] is caught. *)
Definition find_path_between_entities (entity1 entity2 : string)
  : result (list triple) :=
  match (path_nodes <- shortest_path graph entity1 entity2 ;;
         path_relations path_nodes) with
  | Raise NetworkXNoPath => Ok []
  | answer => answer
  end.

Definition no_information (entity : string) : string :=
  ("I don't have information about '" ++ entity
   ++ "' in the knowledge graph.")%string.

Definition found_without_details (target_entity : string) : string :=
  ("I found '" ++ target_entity
   ++ "' but don't have detailed information about it.")%string.

(** [answer_what_is_question]. *)
Definition answer_what_is_question (entity : string) : result string :=
  let similar_entities := find_similar_entities entity default_threshold in
  match similar_entities with
  | [] => Ok (no_information entity)
  | _ =>
      target_entity <- index similar_entities 0 ;;
      info <- get_entity_information target_entity ;;
      match info with
      | None => Ok (found_without_details target_entity)
      | Some info =>
          let answer_parts :=
            [("Based on the knowledge graph, here's what I know about "
              ++ target_entity ++ ":")%string] in
          let answer_parts :=
            match outgoing_relations info with
            | [] => answer_parts
            | rels =>
                (answer_parts ++ [(Str.nl ++ "Relationships:")%string])
                ++ map (fun rel => ("- " ++ target_entity ++ " " ++ snd rel
                                    ++ " " ++ fst rel)%string) rels
            end in
          let answer_parts :=
            match incoming_relations info with
            | [] => answer_parts
            | rels =>
                (answer_parts ++ [(Str.nl ++ "Is related to:")%string])
                ++ map (fun rel => ("- " ++ fst rel ++ " " ++ snd rel
                                    ++ " " ++ target_entity)%string) rels
            end in
          let answer_parts :=
            match outgoing_relations info, incoming_relations info with
            | [], [] =>
                answer_parts
                ++ [(Str.nl ++ "No specific relationships found in the knowledge graph.")%string]
            | _, _ => answer_parts
            end in
          Ok (Str.join "" answer_parts)
      end
  end.

(** [answer_relationship_question]. *)
Definition answer_relationship_question (entity1 entity2 : string) : result string :=
  let similar_entities1 := find_similar_entities entity1 default_threshold in
  let similar_entities2 := find_similar_entities entity2 default_threshold in
  match similar_entities1, similar_entities2 with
  | [], _ => Ok (no_information entity1)
  | _, [] => Ok (no_information entity2)
  | _, _ =>
      target_entity1 <- index similar_entities1 0 ;;
      target_entity2 <- index similar_entities2 0 ;;
      if Nx.has_edge graph target_entity1 target_entity2 then
        edge_data <- Nx.edge_data graph target_entity1 target_entity2 ;;
        let relation := Nx.get edge_data "connected_to" in
        Ok (target_entity1 ++ " " ++ relation ++ " " ++ target_entity2 ++ ".")%string
      else if Nx.has_edge graph target_entity2 target_entity1 then
        edge_data <- Nx.edge_data graph target_entity2 target_entity1 ;;
        let relation := Nx.get edge_data "connected_to" in
        Ok (target_entity2 ++ " " ++ relation ++ " " ++ target_entity1 ++ ".")%string
      else
        path <- find_path_between_entities target_entity1 target_entity2 ;;
        match path with
        | [] =>
            Ok ("No relationship found between " ++ target_entity1 ++ " and "
                ++ target_entity2 ++ " in the knowledge graph.")%string
        | _ =>
            let path_description :=
              Str.join " -> "
                (map (fun '(source, relation, target) =>
                        (source ++ " (" ++ relation ++ ") " ++ target)%string)
                     path) in
            Ok ("There is an indirect relationship: " ++ path_description)%string
        end
  end.

(** One line of the general answer: the resolved entity and the first
    five of its neighbours. *)
Definition general_line (target_entity : string) (info : entity_info) : string :=
  ("**" ++ target_entity ++ "**: Connected to "
   ++ Str.join ", " (firstn 5 (neighbors info)))%string.

(** The body of the loop of [answer_general_question]. *)
Definition general_step (relevant_info : list string) (entity : string)
  : result (list string) :=
  let similar_entities := find_similar_entities entity default_threshold in
  match similar_entities with
  | [] => Ok relevant_info
  | _ =>
      target_entity <- index similar_entities 0 ;;
      info <- get_entity_information target_entity ;;
      match info with
      | Some info => Ok (relevant_info ++ [general_line target_entity info])
      | None => Ok relevant_info
      end
  end.

(** [answer_general_question]. *)
Definition answer_general_question (entities : list string) : result string :=
  match entities with
  | [] => Ok "I need more specific information to answer your question."
  | _ =>
      relevant_info <- for_each entities general_step [] ;;
      match relevant_info with
      | [] => Ok "I couldn't find relevant information for the entities mentioned in your question."
      | _ => Ok ("Here's what I found:" ++ Str.nl
                 ++ Str.join Str.nl relevant_info)%string
      end
  end.

End WithLibraries.

Definition empty_answer : string :=
  "The knowledge graph is empty. Please ingest some text first.".

Section AnswerQuestion.

Variable ratio : string -> string -> Q.
Variable shortest_path : Nx.DiGraph -> string -> string -> result (list string).

(** [answer_question]. *)
Definition answer_question (graph : Nx.DiGraph) (question : string) : result string :=
  if Nx.number_of_nodes graph =? 0 then Ok empty_answer
  else
    classified <- classify_question question ;;
    let '(question_type, entities) := classified in
    if String.eqb question_type "what_is" && negb (List.length entities =? 0) then
      entity <- index entities 0 ;;
      answer_what_is_question ratio graph entity
    else if String.eqb question_type "who_is" && negb (List.length entities =? 0) then
      entity <- index entities 0 ;;
      answer_what_is_question ratio graph entity
    else if String.eqb question_type "relationship" && (2 <=? List.length entities) then
      entity1 <- index entities 0 ;;
      entity2 <- index entities 1 ;;
      answer_relationship_question ratio shortest_path graph entity1 entity2
    else
      answer_general_question ratio graph entities.

End AnswerQuestion.

(** [str(n)] for a natural number. *)
Definition str_of_nat (n : nat) : string := NilEmpty.string_of_uint (Nat.to_uint n).

(** [sorted(items, key=lambda x: x[1], reverse=True)]: by decreasing degree,
    items of the same degree in the order they had. *)
Fixpoint insert_by_degree (x : string * nat) (sorted : list (string * nat))
  : list (string * nat) :=
  match sorted with
  | [] => [x]
  | y :: rest =>
      if snd x <? snd y then y :: insert_by_degree x rest else x :: y :: rest
  end.

Fixpoint sort_by_degree (items : list (string * nat)) : list (string * nat) :=
  match items with
  | [] => []
  | x :: rest => insert_by_degree x (sort_by_degree rest)
  end.

(** The [top_entities] of [get_graph_summary]. *)
Definition top_entities (graph : Nx.DiGraph) : list (string * nat) :=
  firstn 5 (sort_by_degree (Nx.degrees graph)).

Definition top_line (item : string * nat) : string :=
  ("- " ++ fst item ++ " (" ++ str_of_nat (snd item) ++ " connections)")%string.

Section Summary.

(** [nx.number_weakly_connected_components]. *)
Variable number_weakly_connected_components : Nx.DiGraph -> nat.

(** [get_graph_summary]. *)
Definition get_graph_summary (graph : Nx.DiGraph) : string :=
  if Nx.number_of_nodes graph =? 0 then "The knowledge graph is empty."
  else
    let summary_parts :=
      [ "Knowledge Graph Summary:";
        ("- " ++ str_of_nat (Nx.number_of_nodes graph) ++ " entities")%string;
        ("- " ++ str_of_nat (Nx.number_of_edges graph) ++ " relationships")%string;
        ("- " ++ str_of_nat (number_weakly_connected_components graph)
         ++ " connected components")%string ] in
    let summary_parts :=
      if 0 <? Nx.number_of_nodes graph
      then (summary_parts ++ [(Str.nl ++ "Top entities by connections:")%string])
           ++ map top_line (top_entities graph)
      else summary_parts in
    Str.join Str.nl summary_parts.

End Summary.

End Router.

(* ================================================================== *)
(** * api.py *)
(* ================================================================== *)

Module Api.

(** What the body of an endpoint can raise: fastapi's [HTTPException], an
    exception of the two modules, or pydantic's [ValidationError].  All of
    them are instances of [Exception]. *)
Inductive error : Type :=
| HTTPException (status_code : nat) (detail : string)
| Exception (e : exn)
| ValidationError.

(** An endpoint returns its response or raises. *)
Inductive outcome (A : Type) : Type :=
| Returns (a : A)
| Raises (e : error).

Arguments Returns {A} a.
Arguments Raises {A} e.

(** A Python dictionary with string keys, in insertion order. *)
Definition dict (V : Type) : Type := list (string * V).

Definition at_key {V : Type} (key : string) (item : string * V) : bool :=
  String.eqb (fst item) key.

(** [key in d]. *)
Definition contains {V : Type} (key : string) (d : dict V) : bool :=
  existsb (at_key key) d.

(** [d[key]]. *)
Definition getitem {V : Type} (key : string) (d : dict V) : result V :=
  match find (at_key key) d with
  | Some item => Ok (snd item)
  | None => Raise KeyError
  end.

(** [d[key] = value]: a key the dictionary has keeps its place. *)
Definition setitem {V : Type} (key : string) (value : V) (d : dict V) : dict V :=
  if contains key d
  then map (fun item => if at_key key item then (key, value) else item) d
  else d ++ [(key, value)].

(** The dictionary without a key. *)
Definition without {V : Type} (key : string) (d : dict V) : dict V :=
  filter (fun item => negb (at_key key item)) d.

(** [del d[key]]. *)
Definition delitem {V : Type} (key : string) (d : dict V) : result (dict V) :=
  if contains key d then Ok (without key d) else Raise KeyError.

Definition not_found (graph_id : string) : error :=
  HTTPException 404 ("Graph with ID " ++ graph_id ++ " not found")%string.

(** The models of the responses; [HealthResponse] is that of [root]. *)
Inductive HealthResponse : Type :=
| Health (status message : string) (active_graphs : nat).

(** The dictionary [health_check] returns. *)
Inductive health_report : Type :=
| HealthReport (status service version : string)
    (active_graphs total_nodes total_edges : nat).

Section Endpoints.

Variable order : set_iteration.
Variable split_text : string -> list string.
Variable ratio : string -> string -> Q.
Variable shortest_path : Nx.DiGraph -> string -> string -> result (list string).
Variable number_weakly_connected_components : Nx.DiGraph -> nat.

(** The floating-point numbers, and [round(nx.density(graph), 4)]. *)
Variable float : Type.
Variable rounded_density : Nx.DiGraph -> float.

(** The dictionary [get_graph_stats] returns. *)
Record graph_stats : Type := Stats {
  stats_nodes : nat;
  stats_edges : nat;
  stats_connected_components : nat;
  stats_density : float
}.

(** [get_graph_stats], of the graph builder. *)
Definition get_graph_stats (graph : Nx.DiGraph) : graph_stats :=
  Stats (Nx.number_of_nodes graph)
        (Nx.number_of_edges graph)
        (number_weakly_connected_components graph)
        (rounded_density graph).

(** A value of [graph_storage]: the keys graph, texts, description,
    created_at and stats. *)
Record graph_data : Type := GraphData {
  data_graph : Nx.DiGraph;
  data_texts : list string;
  data_description : option string;
  data_created_at : string;
  data_stats : graph_stats
}.

Definition storage : Type := dict graph_data.

(** What pydantic makes of the statistics in a field declared
    [dict[str, int]]: the validated dictionary, or a [ValidationError]. *)
Variable int_dict : Type.
Variable validate : graph_stats -> option int_dict.

Inductive IngestResponse : Type :=
| Ingested (graph_id message : string) (stats : int_dict) (created_at : string).

Inductive QueryResponse : Type :=
| Answered (answer graph_id question : string) (stats : int_dict).

Inductive GraphSummaryResponse : Type :=
| Summarized (graph_id summary : string) (stats : int_dict).

(** [str(e)]. *)
Variable str : error -> string.

(** [except Exception as e: raise HTTPException(status_code=500, ...)]. *)
Definition except_exception {A : Type} (reply : outcome A) : outcome A :=
  match reply with
  | Raises e => Raises (HTTPException 500 ("Internal server error: " ++ str e)%string)
  | returned => returned
  end.

(** [except HTTPException: raise], before the clause above. *)
Definition except_http_exception {A : Type} (reply : outcome A) : outcome A :=
  match reply with
  | Raises (HTTPException status_code detail) =>
      Raises (HTTPException status_code detail)
  | other => except_exception other
  end.

(** [root]. *)
Definition root (graph_storage : storage) : HealthResponse :=
  Health "healthy" "Semantic Knowledge Graph QA Agent is running"
         (List.length graph_storage).

Definition ingest_message (stats : graph_stats) : string :=
  ("Successfully created knowledge graph with "
   ++ Router.str_of_nat (stats_nodes stats) ++ " entities and "
   ++ Router.str_of_nat (stats_edges stats) ++ " relationships")%string.

(** [ingest_texts]: [uuid4] stands for [str(uuid.uuid4())] and [now] for
    [datetime.now().isoformat()].  The endpoint returns the storage it
    leaves and its reply. *)
Definition ingest_texts (uuid4 now : string)
  (texts : list string) (description : option string) (graph_storage : storage)
  : storage * outcome IngestResponse :=
  let '(graph_storage, reply) :=
    match texts with
    | [] => (graph_storage, Raises (HTTPException 400 "No texts provided"))
    | _ =>
        let graph_id := uuid4 in
        match Builder.build_graph order split_text texts with
        | Raise e => (graph_storage, Raises (Exception e))
        | Ok graph =>
            let stats := get_graph_stats graph in
            let graph_storage :=
              setitem graph_id (GraphData graph texts description now stats)
                      graph_storage in
            (graph_storage,
             match getitem graph_id graph_storage with
             | Raise e => Raises (Exception e)
             | Ok stored =>
                 match validate stats with
                 | None => Raises ValidationError
                 | Some checked =>
                     Returns (Ingested graph_id (ingest_message stats) checked
                                       (data_created_at stored))
                 end
             end)
        end
    end in
  (graph_storage, except_exception reply).

(** [query_graph]. *)
Definition query_graph (graph_id question : string) (graph_storage : storage)
  : outcome QueryResponse :=
  except_http_exception
    (if negb (contains graph_id graph_storage) then Raises (not_found graph_id)
     else
       match getitem graph_id graph_storage with
       | Raise e => Raises (Exception e)
       | Ok graph_data =>
           let graph := data_graph graph_data in
           match Router.answer_question ratio shortest_path graph question with
           | Raise e => Raises (Exception e)
           | Ok answer =>
               match validate (data_stats graph_data) with
               | None => Raises ValidationError
               | Some checked => Returns (Answered answer graph_id question checked)
               end
           end
       end).

(** [get_graph_summary_endpoint]. *)
Definition get_graph_summary_endpoint (graph_id : string) (graph_storage : storage)
  : outcome GraphSummaryResponse :=
  except_http_exception
    (if negb (contains graph_id graph_storage) then Raises (not_found graph_id)
     else
       match getitem graph_id graph_storage with
       | Raise e => Raises (Exception e)
       | Ok graph_data =>
           let graph := data_graph graph_data in
           let summary :=
             Router.get_graph_summary number_weakly_connected_components graph in
           match validate (data_stats graph_data) with
           | None => Raises ValidationError
           | Some checked => Returns (Summarized graph_id summary checked)
           end
       end).

(** [delete_graph]: the storage it leaves and its reply, the message. *)
Definition delete_graph (graph_id : string) (graph_storage : storage)
  : storage * outcome string :=
  let '(graph_storage, reply) :=
    if negb (contains graph_id graph_storage)
    then (graph_storage, Raises (not_found graph_id))
    else
      match delitem graph_id graph_storage with
      | Raise e => (graph_storage, Raises (Exception e))
      | Ok graph_storage =>
          (graph_storage,
           Returns ("Successfully deleted graph " ++ graph_id)%string)
      end in
  (graph_storage, except_http_exception reply).

(** [sum(...)] over the values of the storage. *)
Definition total (count : graph_stats -> nat) (graph_storage : storage) : nat :=
  list_sum (map (fun item => count (data_stats (snd item))) graph_storage).

(** [health_check]. *)
Definition health_check (graph_storage : storage) : health_report :=
  HealthReport "healthy" "Semantic Knowledge Graph QA Agent" "0.1.0"
    (List.length graph_storage)
    (total stats_nodes graph_storage)
    (total stats_edges graph_storage).

End Endpoints.

End Api.

(* ================================================================== *)
(** * Reference instances of the libraries *)
(* ================================================================== *)

(** Sets iterated in insertion order. *)
Definition insertion_order : set_iteration :=
  SetIteration (fun l => l) (fun l => Permutation_refl l).

(** A splitter that keeps a text in one chunk, as the recursive splitter
    does with a text shorter than [chunk_size] that has no white space at
    its ends. *)
Definition one_chunk (text : string) : list string := [text].

(** [difflib.SequenceMatcher(None, a, b).ratio()]: no junk predicate,
    and the automatic junk heuristic on.  The ratio is taken exactly; the
    floating-point quotient compares to 0.6 as the exact one does for
    strings of less than 10^15 characters. *)
Module Difflib.

Section Matcher.

Variables a b : list ascii.

Definition count (c : ascii) : nat :=
  List.length (filter (Ascii.eqb c) b).

(** A character [b2j] has lost for being popular in a long [b]. *)
Definition popular (c : ascii) : bool :=
  (200 <=? List.length b) && (List.length b / 100 + 1 <? count c).

Fixpoint positions (c : ascii) (j : nat) (l : list ascii) : list nat :=
  match l with
  | [] => []
  | x :: rest =>
      if Ascii.eqb x c then j :: positions c (S j) rest
      else positions c (S j) rest
  end.

Definition b2j (c : ascii) : list nat :=
  if popular c then [] else positions c 0 b.

Definition get (j : nat) (j2len : list (nat * nat)) : nat :=
  match find (fun e => fst e =? j) j2len with
  | Some e => snd e
  | None => 0
  end.

Definition at_a (i : nat) : ascii := nth i a Ascii.zero.
Definition at_b (j : nat) : ascii := nth j b Ascii.zero.

(** The loop over the positions [j] of [a[i]] in [b]. *)
Fixpoint inner (blo bhi i : nat) (js : list nat) (j2len newj2len : list (nat * nat))
  (best : nat * nat * nat) : list (nat * nat) * (nat * nat * nat) :=
  match js with
  | [] => (newj2len, best)
  | j :: rest =>
      if j <? blo then inner blo bhi i rest j2len newj2len best
      else if bhi <=? j then (newj2len, best)
      else
        let k := (match j with 0 => 0 | S j' => get j' j2len end) + 1 in
        let best := if snd best <? k then (i + 1 - k, j + 1 - k, k) else best in
        inner blo bhi i rest j2len ((j, k) :: newj2len) best
  end.

Fixpoint outer (blo bhi : nat) (indices : list nat) (j2len : list (nat * nat))
  (best : nat * nat * nat) : nat * nat * nat :=
  match indices with
  | [] => best
  | i :: rest =>
      let '(newj2len, best) := inner blo bhi i (b2j (at_a i)) j2len [] best in
      outer blo bhi rest newj2len best
  end.

Fixpoint extend_left (fuel alo blo : nat) (best : nat * nat * nat) : nat * nat * nat :=
  let '(besti, bestj, bestsize) := best in
  match fuel with
  | 0 => best
  | S fuel' =>
      if (alo <? besti) && (blo <? bestj)
         && Ascii.eqb (at_a (besti - 1)) (at_b (bestj - 1))
      then extend_left fuel' alo blo (besti - 1, bestj - 1, bestsize + 1)
      else best
  end.

Fixpoint extend_right (fuel ahi bhi : nat) (best : nat * nat * nat) : nat * nat * nat :=
  let '(besti, bestj, bestsize) := best in
  match fuel with
  | 0 => best
  | S fuel' =>
      if (besti + bestsize <? ahi) && (bestj + bestsize <? bhi)
         && Ascii.eqb (at_a (besti + bestsize)) (at_b (bestj + bestsize))
      then extend_right fuel' ahi bhi (besti, bestj, bestsize + 1)
      else best
  end.

(** [find_longest_match]; there is no junk, so only the two loops that
    extend the block over characters that are no junk can run. *)
Definition find_longest_match (alo ahi blo bhi : nat) : nat * nat * nat :=
  let best := outer blo bhi (List.seq alo (ahi - alo)) [] (alo, blo, 0) in
  let best := extend_left (List.length a) alo blo best in
  extend_right (List.length a) ahi bhi best.

(** The sum of the sizes of the blocks [get_matching_blocks] collects. *)
Fixpoint matches (fuel alo ahi blo bhi : nat) : nat :=
  match fuel with
  | 0 => 0
  | S fuel' =>
      let '(i, j, k) := find_longest_match alo ahi blo bhi in
      if k =? 0 then 0
      else k
           + (if (alo <? i) && (blo <? j) then matches fuel' alo i blo j else 0)
           + (if (i + k <? ahi) && (j + k <? bhi)
              then matches fuel' (i + k) ahi (j + k) bhi else 0)
  end.

End Matcher.

(** [ratio], through [_calculate_ratio]. *)
Definition ratio (x y : string) : Q :=
  let a := list_ascii_of_string x in
  let b := list_ascii_of_string y in
  let length := List.length a + List.length b in
  match length with
  | 0 => 1
  | S _ =>
      let matched := matches a b (S (List.length a)) 0 (List.length a) 0 (List.length b) in
      Z.of_nat (2 * matched) # Pos.of_nat length
  end.

End Difflib.

(** A breadth-first search standing for [nx.shortest_path(graph, source,
    target)] without weights: a path with the fewest edges, [NodeNotFound]
    for an end that is no node, [NetworkXNoPath] when there is no path. *)
Module Bfs.

(** A path under construction: the node it has reached and its nodes. *)
Definition trail : Type := string * list string.

Fixpoint grow (path : list string) (targets visited : list string)
  : list trail * list string :=
  match targets with
  | [] => ([], visited)
  | v :: rest =>
      if Str.mem v visited then grow path rest visited
      else let '(trails, visited) := grow path rest (v :: visited) in
           ((v, path ++ [v]) :: trails, visited)
  end.

Fixpoint expand (g : Nx.DiGraph) (frontier : list trail) (visited : list string)
  : list trail * list string :=
  match frontier with
  | [] => ([], visited)
  | (tip, path) :: rest =>
      let '(here, visited) := grow path (Nx.out_neighbours g tip) visited in
      let '(there, visited) := expand g rest visited in
      (here ++ there, visited)
  end.

Fixpoint bfs (fuel : nat) (g : Nx.DiGraph) (target : string)
  (frontier : list trail) (visited : list string) : option (list string) :=
  match fuel with
  | 0 => None
  | S fuel' =>
      match find (fun t => String.eqb (fst t) target) frontier with
      | Some t => Some (snd t)
      | None =>
          match frontier with
          | [] => None
          | _ => let '(next, visited) := expand g frontier visited in
                 bfs fuel' g target next visited
          end
      end
  end.

Definition shortest_path (g : Nx.DiGraph) (source target : string)
  : result (list string) :=
  if negb (Nx.has_node g source) || negb (Nx.has_node g target)
  then Raise NodeNotFound
  else match bfs (S (Nx.number_of_nodes g)) g target
                 [(source, [source])] [source] with
       | Some path => Ok path
       | None => Raise NetworkXNoPath
       end.

End Bfs.

(* ================================================================== *)
(** * The vocabulary of the properties *)
(* ================================================================== *)

Module Notions.

Import Nx Builder Router.

(** The groups every match of a pattern captures. *)
Fixpoint binds (n : nat) (r : regex) : bool :=
  match r with
  | Seq r1 r2 => binds n r1 || binds n r2
  | Alt r1 r2 => binds n r1 && binds n r2
  | Group i r1 => (i =? n) || binds n r1
  | _ => false
  end.

Definition bound (n : nat) (gs : list (nat * string)) : Prop :=
  lookup n gs <> None.

(** What a cursor has captured, later cursors of the same run have too. *)
Definition keeps (cu cu' : cursor) : Prop :=
  forall n, bound n (captured cu) -> bound n (captured cu').

(** A match object has every group its pattern binds. *)
Definition complete (r : regex) (m : rmatch) : Prop :=
  forall n, binds n r = true -> bound n (m_groups m).

(** What a match of a relation pattern captures: the stripped subject and
    object, with the relation of the pattern. *)
Definition group_text (n : nat) (m : rmatch) : string :=
  match group n m with
  | Some text => Str.strip text
  | None => ""
  end.

Definition candidate (relation_type : string) (m : rmatch) : triple :=
  (group_text 1 m, relation_type, group_text 2 m).

(** The surface-pattern matches of a text, pattern after pattern. *)
Definition pattern_matches (text : string) : list triple :=
  flat_map (fun '(pattern, relation_type) =>
              map (candidate relation_type) (finditer pattern text))
           relation_patterns.

(** The test of [extract_relations]: subject and object are each within
    some entity. *)
Definition accepted (entities : list string) (t : triple) : bool :=
  let '(subject, _, obj) := t in
  within_some_entity subject entities && within_some_entity obj entities.

(** The test with containment in either direction. *)
Definition overlaps_some_entity (text : string) (entities : list string) : bool :=
  existsb (fun entity => Str.contains (Str.lower text) (Str.lower entity)
                         || Str.contains (Str.lower entity) (Str.lower text))
          entities.

Definition overlapping (entities : list string) (t : triple) : bool :=
  let '(subject, _, obj) := t in
  overlaps_some_entity subject entities && overlaps_some_entity obj entities.

(** No dangling edge: both ends of every edge are nodes. *)
Definition closed (g : DiGraph) : Prop :=
  forall u v, In (u, v) (map fst (edge_table g)) ->
              In u (nodes g) /\ In v (nodes g).

(** At most one edge for an ordered pair of nodes. *)
Definition simple (g : DiGraph) : Prop := NoDup (map fst (edge_table g)).

(** Every node carries the attribute [add_node] gives to an entity. *)
Definition typed (g : DiGraph) : Prop :=
  Forall (fun e => snd e = Some "entity") (node_table g).

(** What assembly keeps true of the graph. *)
Definition assembled (g : DiGraph) : Prop := closed g /\ simple g /\ typed g.

Definition holds (entities : list string) (g : DiGraph) : Prop :=
  forall e, In e entities -> In e (nodes g).

(** The edge a triple writes, if it resolves: its ends and its label. *)
Definition write : Type := (string * string) * string.

Definition resolve (entities : list string) (t : triple) : list write :=
  let '(subject, predicate, obj) := t in
  match _find_best_entity_match subject entities,
        _find_best_entity_match obj entities with
  | Some u, Some v =>
      if truthy (Some u) && truthy (Some v) then [((u, v), predicate)] else []
  | _, _ => []
  end.

(** The edges assembly writes, in order: chunk after chunk, the accepted
    pattern matches of the chunk that resolve. *)
Definition chunk_writes (order : set_iteration) (chunk : string) : list write :=
  let entities := extract_entities order chunk in
  flat_map (resolve entities) (filter (accepted entities) (pattern_matches chunk)).

Definition writes (order : set_iteration) (text_chunks : list string) : list write :=
  flat_map (chunk_writes order) text_chunks.

(** The label of the last write on a pair. *)
Fixpoint last_write (u v : string) (ws : list write) : option string :=
  match ws with
  | [] => None
  | (ends, label) :: rest =>
      match last_write u v rest with
      | Some later => Some later
      | None => if at_pair u v ends then Some label else None
      end
  end.

Definition write_all (g : DiGraph) (ws : list write) : DiGraph :=
  fold_left (fun g w => add_edge g (fst (fst w)) (snd (fst w)) (Some (snd w))) ws g.

(** Assembly without its exceptions: the graph after the entities of a chunk,
    after a chunk, and after a list of chunks. *)
Definition add_all (g : DiGraph) (entities : list string) : DiGraph :=
  fold_left (fun g entity =>
               if negb (has_node g entity)
               then add_node g entity (Some "entity") else g)
            entities g.

Definition assemble_chunk (order : set_iteration) (g : DiGraph) (chunk : string)
  : DiGraph :=
  write_all (add_all g (extract_entities order chunk)) (chunk_writes order chunk).

Definition assemble (order : set_iteration) (g : DiGraph) (text_chunks : list string)
  : DiGraph :=
  fold_left (assemble_chunk order) text_chunks g.

(** The relation types of [relation_patterns]. *)
Definition vocabulary : list string :=
  ["is_a"; "has"; "works_at"; "lives_in"; "founded"; "created"].

(** Two strings overlap: in lower case one contains the other. *)
Definition overlap (x y : string) : bool :=
  Str.contains (Str.lower x) (Str.lower y)
  || Str.contains (Str.lower y) (Str.lower x).

(** The candidates one node gives when it is no exact match: the node once
    when it overlaps the mention, and once when their ratio reaches the
    threshold. *)
Definition candidates_of (ratio : string -> string -> Q) (entity_lower : string)
  (threshold : Q) (node : string) : list string :=
  (if Str.contains entity_lower (Str.lower node)
      || Str.contains (Str.lower node) entity_lower then [node] else [])
  ++ (if Qle_bool threshold (ratio entity_lower (Str.lower node)) then [node] else []).

(** The edges that leave a node and the edges that enter it. *)
Definition out_edges (g : DiGraph) (n : string)
  : list ((string * string) * option string) :=
  filter (fun e => String.eqb (fst (fst e)) n) (edge_table g).

Definition in_edges (g : DiGraph) (n : string)
  : list ((string * string) * option string) :=
  filter (fun e => String.eqb (snd (fst e)) n) (edge_table g).

(** A pattern of a question type binds the groups [mentions] reads. *)
Definition fits (q_type : string) (pattern : regex) : Prop :=
  binds 1 pattern = true
  /\ (String.eqb q_type "relationship" = true -> binds 2 pattern = true).

Definition arity (q_type : string) : nat :=
  if String.eqb q_type "relationship" then 2 else 1.

(** Consecutive nodes of the list are joined by an edge, in that direction. *)
Fixpoint chain (g : DiGraph) (path : list string) : bool :=
  match path with
  | u :: (v :: _) as rest => has_edge g u v && chain g rest
  | _ => true
  end.

(** What the code needs of [nx.shortest_path] between two nodes of the
    graph: it raises [NetworkXNoPath] or returns a path along edges. *)
Definition finds_paths
  (shortest_path : DiGraph -> string -> string -> result (list string)) : Prop :=
  forall g source target,
    has_node g source = true -> has_node g target = true ->
    shortest_path g source target = Raise NetworkXNoPath
    \/ exists path, shortest_path g source target = Ok path /\ chain g path = true.

(** A trail of the search: a path along edges that ends at its tip. *)
Definition good (g : DiGraph) (t : Bfs.trail) : Prop :=
  (exists front, snd t = front ++ [fst t]) /\ chain g (snd t) = true.

(** The labels the general answer lists for a resolved entity. *)
Definition listed (g : DiGraph) (target_entity : string) : list string :=
  firstn 5 (out_neighbours g target_entity).

Definition line (g : DiGraph) (target_entity : string) : string :=
  ("**" ++ target_entity ++ "**: Connected to "
   ++ Str.join ", " (listed g target_entity))%string.

(** The entities the mentions resolve to: the first candidate of each
    mention that has one. *)
Definition resolved (ratio : string -> string -> Q) (g : DiGraph)
  (entities : list string) : list string :=
  flat_map (fun entity =>
              firstn 1 (find_similar_entities ratio g entity default_threshold))
           entities.

Definition render (g : DiGraph) (targets : list string) : string :=
  match targets with
  | [] => "I couldn't find relevant information for the entities mentioned in your question."
  | _ => ("Here's what I found:" ++ Str.nl
          ++ Str.join Str.nl (map (line g) targets))%string
  end.

(** A node is a candidate for a mention in lower case. *)
Definition is_candidate (ratio : string -> string -> Q) (entity_lower node : string)
  : bool :=
  String.eqb entity_lower (Str.lower node)
  || Str.contains entity_lower (Str.lower node)
  || Str.contains (Str.lower node) entity_lower
  || Qle_bool default_threshold (ratio entity_lower (Str.lower node)).

(** The first part of the answer to a what-is question. *)
Definition what_is_header (target_entity : string) : string :=
  ("Based on the knowledge graph, here's what I know about "
   ++ target_entity ++ ":")%string.

(** The sentence for an edge between the two resolved nodes. *)
Definition relation_sentence (source : string) (label : option string)
  (target : string) : string :=
  (source ++ " " ++ Nx.get label "connected_to" ++ " " ++ target ++ ".")%string.


(** The pairs of consecutive nodes of a path. *)
Definition hops (path : list string) : list (string * string) :=
  combine path (tl path).

End Notions.

(** The texts and graphs of the examples. *)
Module Samples.

Import Nx.

(** A subject that contains an entity without being within one. *)
Definition engineer_text : string := "The engineer John works at Microsoft.".

(** Two relations between the same two entities. *)
Definition founder_text : string := "Alice founded Acme. Alice created Acme.".

Definition founded_graph : DiGraph :=
  Graph [("Alice", Some "entity"); ("Acme", Some "entity")]
        [(("Alice", "Acme"), Some "founded")].

(** A label that contains another. *)
Definition larry_graph : DiGraph :=
  Graph [("Larry Page", Some "Person"); ("Larry", Some "Person")] [].

Definition relationship_question : string :=
  "What is the relationship between Google and Larry Page?".

(** The graph of the tests of the query router. *)
Definition sample_graph : DiGraph :=
  add_edge
    (add_edge
       (add_edge
          (add_node
             (add_node
                (add_node (add_node empty "Google" (Some "Company"))
                   "Larry Page" (Some "Person"))
                "Sergey Brin" (Some "Person"))
             "Sundar Pichai" (Some "Person"))
          "Larry Page" "Google" (Some "co-founded"))
       "Sergey Brin" "Google" (Some "co-founded"))
    "Sundar Pichai" "Google" (Some "is CEO of").

(** One edge, into Google. *)
Definition page_graph : DiGraph :=
  Graph [("Google", Some "Company"); ("Larry Page", Some "Person")]
        [(("Larry Page", "Google"), Some "co-founded")].

(** The question of the test on an entity the graph does not have. *)
Definition unknown_question : string := "What is Unknown Entity?".

(** A graph whose one label is part of the mention unknown entity. *)
Definition entity_graph : DiGraph := Graph [("Entity", Some "entity")] [].

(** The text of the first test of the graph builder. *)
Definition john_text : string := "John works at Microsoft. He lives in Seattle.".

(** The graph of the tests with one more edge, without a relation. *)
Definition alphabet_graph : DiGraph := add_edge sample_graph "Google" "Alphabet" None.

(** The texts of the other tests of the graph builder. *)
Definition book_text : string :=
  ("The book " ++ String Str.quote "Machine Learning Basics"
   ++ String Str.quote " was written by Jane Smith.")%string.

Definition developer_text : string := "John is a developer. Mary has experience.".

Definition alice_text : string :=
  "Alice is a researcher. She works at Stanford University.".

(** Instances for the endpoints: a density that is never computed, a
    validation that keeps the three counts, and a text for each error. *)
Definition no_density (graph : DiGraph) : unit := tt.

Definition counts (stats : Api.graph_stats unit) : option (nat * nat * nat) :=
  Some (Api.stats_nodes stats, Api.stats_edges stats,
        Api.stats_connected_components stats).

Definition detail_of (e : Api.error) : string :=
  match e with
  | Api.HTTPException _ detail => detail
  | Api.Exception _ => "exception"
  | Api.ValidationError => "validation error"
  end.

Definition one_component (graph : DiGraph) : nat := 1.

(** A storage with the graph of the tests under an identifier. *)
Definition sample_storage : Api.storage unit :=
  [("g1", Api.GraphData sample_graph ["Larry Page founded Google."] None "2024-01-01T00:00:00"
            (Api.get_graph_stats one_component no_density sample_graph))].

End Samples.

(* ================================================================== *)
(** * The tests of the repository, on the model *)
(* ================================================================== *)

Module RepoTests.

Import Nx Builder Router Samples.

Example test_extract_entities_simple :
  forallb (fun e => Str.mem e (extract_entities insertion_order john_text))
          ["John"; "Microsoft"; "Seattle"] = true.
Proof. vm_compute. reflexivity. Qed.

Example test_extract_entities_quoted :
  forallb (fun e => Str.mem e (extract_entities insertion_order book_text))
          ["Machine Learning Basics"; "Jane Smith"] = true.
Proof. vm_compute. reflexivity. Qed.

Example test_extract_relations_simple :
  extract_relations developer_text ["John"; "developer"; "Mary"; "experience"]
  = Ok [("John", "is_a", "developer"); ("Mary", "has", "experience")].
Proof. vm_compute. reflexivity. Qed.

Example test_build_graph_empty_input order split_text :
  build_graph order split_text [] = Ok empty /\ number_of_nodes empty = 0.
Proof. split; reflexivity. Qed.

Example test_build_graph_single_text :
  build_graph insertion_order one_chunk [alice_text]
  = Ok (Graph [("Alice", Some "entity"); ("She", Some "entity");
               ("Stanford University", Some "entity")]
              [(("She", "Stanford University"), Some "works_at")]).
Proof. vm_compute. reflexivity. Qed.

Example test_answer_what_is_question :
  answer_what_is_question Difflib.ratio sample_graph "Google"
  = Ok ("Based on the knowledge graph, here's what I know about Google:"
        ++ Str.nl ++ "Is related to:" ++ "- Larry Page co-founded Google"
        ++ "- Sergey Brin co-founded Google"
        ++ "- Sundar Pichai is CEO of Google")%string.
Proof. vm_compute. reflexivity. Qed.

Example test_answer_relationship_question :
  answer_relationship_question Difflib.ratio Bfs.shortest_path sample_graph
    "Larry Page" "Google"
  = Ok "Larry Page co-founded Google.".
Proof. vm_compute. reflexivity. Qed.

Example test_answer_nonexistent_entity :
  answer_what_is_question Difflib.ratio sample_graph "Unknown Entity"
  = Ok "I don't have information about 'Unknown Entity' in the knowledge graph.".
Proof. vm_compute. reflexivity. Qed.

Example test_classify_question :
  classify_question "What is the relationship between Google and Larry Page?"
  = Ok ("relationship", ["google"; "larry page"]).
Proof. vm_compute. reflexivity. Qed.

Example test_answer_question_with_empty_graph :
  answer_question Difflib.ratio Bfs.shortest_path empty "What is Google?"
  = Ok "The knowledge graph is empty. Please ingest some text first.".
Proof. vm_compute. reflexivity. Qed.

(** Two nodes without a path between them, and a path of two edges. *)
Example test_no_relationship :
  answer_relationship_question Difflib.ratio Bfs.shortest_path sample_graph
    "Larry Page" "Sergey Brin"
  = Ok "No relationship found between Larry Page and Sergey Brin in the knowledge graph.".
Proof. vm_compute. reflexivity. Qed.

Example test_indirect_relationship :
  answer_relationship_question Difflib.ratio Bfs.shortest_path
    (add_edge sample_graph "Google" "Alphabet" None) "Larry Page" "Alphabet"
  = Ok "There is an indirect relationship: Larry Page (co-founded) Google -> Google (connected_to) Alphabet".
Proof. vm_compute. reflexivity. Qed.

End RepoTests.

(* ================================================================== *)
(** * The matcher and the groups of a match *)
(* ================================================================== *)

Module ReFacts.

Import Notions.

Lemma keeps_refl cu : keeps cu cu.
Proof. intros n H; exact H. Qed.

Lemma keeps_trans cu1 cu2 cu3 : keeps cu1 cu2 -> keeps cu2 cu3 -> keeps cu1 cu3.
Proof. intros H12 H23 n H; auto. Qed.

Lemma keeps_capture n start cu : keeps cu (capture n start cu).
Proof.
  intros i H. unfold capture, bound in *. simpl.
  destruct (n =? i); [discriminate | exact H].
Qed.

Lemma bound_capture n start cu : bound n (captured (capture n start cu)).
Proof. unfold capture, bound. simpl. rewrite Nat.eqb_refl. discriminate. Qed.

(** A successful run ends in a cursor the continuation accepted, which has
    kept the groups it had and captured those the pattern binds. *)
Lemma run_binds (r : regex) :
  forall cu k m, run r cu k = Some m ->
    exists cu', k cu' = Some m /\ keeps cu cu'
                /\ forall n, binds n r = true -> bound n (captured cu').
Proof.
  induction r as [ | p | | r1 IH1 r2 IH2 | r1 IH1 r2 IH2 | r1 IH1 | r1 IH1 | i r1 IH1 ];
    intros cu k m H; simpl in H.
  - exists cu. split; [exact H | split; [apply keeps_refl | discriminate]].
  - destruct (after cu) as [ | c rest ]; [discriminate | ].
    destruct (p c); [ | discriminate].
    exists (advance c rest cu).
    split; [exact H | split; [intros n Hn; exact Hn | discriminate]].
  - destruct (xorb _ _); [ | discriminate].
    exists cu. split; [exact H | split; [apply keeps_refl | discriminate]].
  - apply IH1 in H. destruct H as (cu1 & H & K1 & B1).
    apply IH2 in H. destruct H as (cu2 & H & K2 & B2).
    exists cu2. split; [exact H | split; [eapply keeps_trans; eauto | ]].
    intros n Hn. simpl in Hn. apply orb_true_iff in Hn.
    destruct Hn as [Hn | Hn]; [apply K2, B1, Hn | apply B2, Hn].
  - destruct (run r1 cu k) as [m1 | ] eqn:E1.
    + inversion H; subst m1. apply IH1 in E1. destruct E1 as (cu1 & E1 & K1 & B1).
      exists cu1. split; [exact E1 | split; [exact K1 | ]].
      intros n Hn. simpl in Hn. apply andb_true_iff in Hn. apply B1, Hn.
    + apply IH2 in H. destruct H as (cu2 & H & K2 & B2).
      exists cu2. split; [exact H | split; [exact K2 | ]].
      intros n Hn. simpl in Hn. apply andb_true_iff in Hn. apply B2, Hn.
  - revert H. generalize (List.length (after cu)) as fuel. intros fuel.
    revert cu. induction fuel as [ | fuel IHf ]; intros cu H.
    + exists cu. split; [exact H | split; [apply keeps_refl | discriminate]].
    + match type of H with
      | match ?e with _ => _ end = _ => destruct e as [m1 | ] eqn:E1
      end.
      * inversion H; subst m1. apply IH1 in E1. destruct E1 as (cu1 & E1 & K1 & _).
        destruct (_ <? _); [ | discriminate].
        apply IHf in E1. destruct E1 as (cu2 & E2 & K2 & _).
        exists cu2. split; [exact E2 | split; [eapply keeps_trans; eauto | discriminate]].
      * exists cu. split; [exact H | split; [apply keeps_refl | discriminate]].
  - revert H. generalize (List.length (after cu)) as fuel. intros fuel.
    revert cu. induction fuel as [ | fuel IHf ]; intros cu H.
    + destruct (k cu) as [m1 | ] eqn:E; [ | discriminate].
      exists cu. split; [congruence | split; [apply keeps_refl | discriminate]].
    + destruct (k cu) as [m1 | ] eqn:E.
      * exists cu. split; [congruence | split; [apply keeps_refl | discriminate]].
      * apply IH1 in H. destruct H as (cu1 & E1 & K1 & _).
        destruct (_ <? _); [ | discriminate].
        apply IHf in E1. destruct E1 as (cu2 & E2 & K2 & _).
        exists cu2. split; [exact E2 | split; [eapply keeps_trans; eauto | discriminate]].
  - apply IH1 in H. destruct H as (cu1 & H & K1 & B1).
    exists (capture i (List.length (before cu)) cu1).
    split; [exact H | split].
    + eapply keeps_trans; [exact K1 | apply keeps_capture].
    + intros n Hn. simpl in Hn. apply orb_true_iff in Hn. destruct Hn as [Hn | Hn].
      * apply Nat.eqb_eq in Hn. subst n. apply bound_capture.
      * apply keeps_capture, B1, Hn.
Qed.

Lemma scan_complete r : forall aft bef m cu,
  scan r bef aft = Some (m, cu) -> complete r m.
Proof.
  induction aft as [ | c rest IH ]; intros bef m cu H; simpl in H.
  - destruct (run r (Cursor bef [] []) Some) as [cu0 | ] eqn:E; [ | discriminate].
    inversion H; subst. apply run_binds in E. destruct E as (cu' & E & _ & B).
    inversion E; subst. exact B.
  - destruct (run r (Cursor bef (c :: rest) []) Some) as [cu0 | ] eqn:E.
    + inversion H; subst. apply run_binds in E. destruct E as (cu' & E & _ & B).
      inversion E; subst. exact B.
    + eapply IH; eauto.
Qed.

Lemma search_complete r text m : search r text = Some m -> complete r m.
Proof.
  unfold search. destruct (scan r [] (list_ascii_of_string text)) as [[m0 cu] | ] eqn:E;
    simpl; [ | discriminate].
  intros H; inversion H; subst. eapply scan_complete; eauto.
Qed.

Lemma matches_from_complete r : forall fuel bef aft,
  Forall (complete r) (matches_from fuel r bef aft).
Proof.
  induction fuel as [ | fuel IH ]; intros bef aft; simpl; [constructor | ].
  destruct (scan r bef aft) as [[m cu] | ] eqn:E; [ | constructor].
  constructor; [eapply scan_complete; eauto | ].
  destruct (m_start m <? m_end m); [apply IH | ].
  destruct (after cu); [constructor | apply IH].
Qed.

Lemma finditer_complete r text : Forall (complete r) (finditer r text).
Proof. apply matches_from_complete. Qed.

(** [match.group(n).strip()] returns for a group the pattern binds. *)
Lemma group_strip_ok r n m :
  complete r m -> binds (S n) r = true ->
  exists text, group (S n) m = Some text
               /\ Builder.group_strip (S n) m = Ok (Str.strip text).
Proof.
  intros C B. specialize (C _ B). unfold bound in C.
  unfold Builder.group_strip. simpl.
  destruct (lookup (S n) (m_groups m)) as [text | ]; [ | congruence].
  exists text. split; reflexivity.
Qed.

End ReFacts.

(* ================================================================== *)
(** * Relation extraction *)
(* ================================================================== *)

Module Relations.

Import Builder ReFacts Notions Samples.

Lemma keep_match_candidate r entities relation_type relations m :
  complete r m -> binds 1 r = true -> binds 2 r = true ->
  keep_match entities relation_type relations m
  = Ok (relations ++ filter (accepted entities) [candidate relation_type m]).
Proof.
  intros C B1 B2.
  destruct (@group_strip_ok r 0 m C B1) as (t1 & G1 & S1).
  destruct (@group_strip_ok r 1 m C B2) as (t2 & G2 & S2).
  unfold keep_match. rewrite S1, S2. simpl.
  unfold candidate, group_text. rewrite G1, G2.
  destruct (within_some_entity (Str.strip t1) entities
            && within_some_entity (Str.strip t2) entities);
    [reflexivity | now rewrite app_nil_r].
Qed.

Lemma keep_matches r entities relation_type :
  binds 1 r = true -> binds 2 r = true ->
  forall ms relations, Forall (complete r) ms ->
    for_each ms (keep_match entities relation_type) relations
    = Ok (relations ++ filter (accepted entities) (map (candidate relation_type) ms)).
Proof.
  intros B1 B2. induction ms as [ | m ms IH ]; intros relations F.
  - simpl. now rewrite app_nil_r.
  - inversion F as [ | ? ? C F' ]; subst.
    cbn [for_each]. rewrite (@keep_match_candidate r entities relation_type relations m C B1 B2).
    cbn [bind]. rewrite IH by assumption.
    rewrite <- app_assoc, <- filter_app. reflexivity.
Qed.

Lemma keep_patterns text entities :
  forall table relations,
    Forall (fun pr => binds 1 (fst pr) = true /\ binds 2 (fst pr) = true) table ->
    for_each table
      (fun relations '(pattern, relation_type) =>
         for_each (finditer pattern text) (keep_match entities relation_type) relations)
      relations
    = Ok (relations
          ++ filter (accepted entities)
               (flat_map (fun '(pattern, relation_type) =>
                            map (candidate relation_type) (finditer pattern text))
                         table)).
Proof.
  induction table as [ | [pattern relation_type] table IH ]; intros relations F.
  - simpl. now rewrite app_nil_r.
  - inversion F as [ | ? ? [B1 B2] F' ]; subst. simpl in B1, B2.
    cbn [for_each flat_map].
    rewrite (@keep_matches pattern entities relation_type B1 B2 _ relations
               (finditer_complete pattern text)).
    cbn [bind]. rewrite IH by assumption.
    rewrite filter_app, <- app_assoc. reflexivity.
Qed.

Lemma relation_patterns_bind :
  Forall (fun pr => binds 1 (fst pr) = true /\ binds 2 (fst pr) = true)
         relation_patterns.
Proof. repeat constructor. Qed.

(** [extract_relations] returns the accepted pattern matches, in order. *)
Lemma extract_relations_filter text entities :
  extract_relations text entities
  = Ok (filter (accepted entities) (pattern_matches text)).
Proof.
  unfold extract_relations, pattern_matches.
  rewrite keep_patterns by apply relation_patterns_bind. reflexivity.
Qed.

Lemma within_some_entity_iff text entities :
  within_some_entity text entities = true
  <-> exists entity, In entity entities
        /\ Str.contains (Str.lower text) (Str.lower entity) = true.
Proof. unfold within_some_entity. apply existsb_exists. Qed.

End Relations.

(* ================================================================== *)
(** * Graph updates *)
(* ================================================================== *)

Module GraphFacts.

Import Nx Notions Samples.

Lemma mem_In x xs : Str.mem x xs = true <-> In x xs.
Proof.
  unfold Str.mem. rewrite existsb_exists. split.
  - intros (y & Hy & E). apply String.eqb_eq in E. now subst.
  - intros H. exists x. split; [exact H | apply String.eqb_refl].
Qed.

Lemma has_node_In g n : has_node g n = true <-> In n (nodes g).
Proof. apply mem_In. Qed.

Lemma has_edge_In g u v :
  has_edge g u v = true <-> In (u, v) (map fst (edge_table g)).
Proof.
  unfold has_edge, same_pair. rewrite existsb_exists, in_map_iff. split.
  - intros ([[a b] r] & Hin & E). simpl in E. apply andb_true_iff in E.
    destruct E as [Ea Eb]. apply String.eqb_eq in Ea, Eb. subst.
    now exists ((u, v), r).
  - intros ([[a b] r] & E & Hin). simpl in E. inversion E; subst.
    exists ((u, v), r). split; [exact Hin | ]. simpl.
    now rewrite !String.eqb_refl.
Qed.

Lemma update_attr_keys {K : Type} (same : K -> bool) attr table :
  map fst (update_attr same attr table) = map fst table.
Proof.
  induction table as [ | [k old] rest IH ]; simpl; [reflexivity | ].
  destruct (same k); simpl; [reflexivity | now rewrite IH].
Qed.

Lemma edge_table_ensure_node g n : edge_table (ensure_node g n) = edge_table g.
Proof. unfold ensure_node. now destruct (has_node g n). Qed.

Lemma nodes_ensure_node g n x :
  In x (nodes (ensure_node g n)) <-> In x (nodes g) \/ x = n.
Proof.
  unfold ensure_node. destruct (has_node g n) eqn:E.
  - apply has_node_In in E. split; [now left | intros [H | ->]; assumption].
  - unfold nodes. simpl. rewrite map_app, in_app_iff. simpl.
    split; intros [H | H]; auto.
    + destruct H as [H | []]; auto.
Qed.

Lemma ensure_node_present g n : has_node g n = true -> ensure_node g n = g.
Proof. unfold ensure_node. now intros ->. Qed.

Lemma nodes_add_node g n ty x :
  In x (nodes (add_node g n ty)) <-> In x (nodes g) \/ x = n.
Proof.
  unfold add_node. destruct (has_node g n) eqn:E.
  - apply has_node_In in E. unfold nodes at 1. simpl. rewrite update_attr_keys.
    split; [now left | intros [H | ->]; assumption].
  - unfold nodes. simpl. rewrite map_app, in_app_iff. simpl.
    split; intros [H | H]; auto.
    + destruct H as [H | []]; auto.
Qed.

Lemma edge_table_add_node g n ty : edge_table (add_node g n ty) = edge_table g.
Proof. unfold add_node. now destruct (has_node g n). Qed.

(** The ends of an edge after [add_edge]. *)
Lemma keys_add_edge g u v rel :
  map fst (edge_table (add_edge g u v rel))
  = if has_edge g u v then map fst (edge_table g)
    else map fst (edge_table g) ++ [(u, v)].
Proof.
  unfold add_edge.
  assert (E : has_edge (ensure_node (ensure_node g u) v) u v = has_edge g u v).
  { unfold has_edge. now rewrite !edge_table_ensure_node. }
  rewrite E. destruct (has_edge g u v); simpl.
  - now rewrite update_attr_keys, !edge_table_ensure_node.
  - now rewrite map_app, !edge_table_ensure_node.
Qed.

Lemma nodes_add_edge g u v rel x :
  In x (nodes (add_edge g u v rel)) <-> In x (nodes g) \/ x = u \/ x = v.
Proof.
  unfold add_edge.
  set (g' := ensure_node (ensure_node g u) v).
  assert (N : In x (nodes g') <-> In x (nodes g) \/ x = u \/ x = v).
  { unfold g'. rewrite !nodes_ensure_node. tauto. }
  destruct (has_edge g' u v); exact N.
Qed.

Lemma closed_empty : closed empty.
Proof. intros u v []. Qed.

Lemma simple_empty : simple empty.
Proof. constructor. Qed.

Lemma closed_add_node g n ty : closed g -> closed (add_node g n ty).
Proof.
  intros C u v H. rewrite edge_table_add_node in H.
  destruct (C u v H). rewrite !nodes_add_node. auto.
Qed.

Lemma simple_add_node g n ty : simple g -> simple (add_node g n ty).
Proof. unfold simple. now rewrite edge_table_add_node. Qed.

Lemma closed_add_edge g u v rel : closed g -> closed (add_edge g u v rel).
Proof.
  intros C a b H. rewrite keys_add_edge in H. rewrite !nodes_add_edge.
  destruct (has_edge g u v).
  - destruct (C a b H). auto.
  - apply in_app_iff in H. destruct H as [H | [H | []]].
    + destruct (C a b H). auto.
    + inversion H; subst. auto.
Qed.

Lemma simple_add_edge g u v rel : simple g -> simple (add_edge g u v rel).
Proof.
  unfold simple. intros S. rewrite keys_add_edge.
  destruct (has_edge g u v) eqn:E; [exact S | ].
  apply NoDup_app; [exact S | repeat constructor; intros [] | ].
  intros x Hx [Hy | []]. subst x.
  apply has_edge_In in Hx. congruence.
Qed.

End GraphFacts.

Module EdgeFacts.

Import Nx GraphFacts Notions Samples.

Lemma at_pair_true u v k : at_pair u v k = true <-> k = (u, v).
Proof.
  destruct k as [a b]. unfold at_pair. simpl.
  rewrite andb_true_iff, !String.eqb_eq. split.
  - now intros [-> ->].
  - intros E. now inversion E.
Qed.

Lemma find_append {A : Type} (f : A -> bool) (l1 l2 : list A) :
  find f (l1 ++ l2)
  = match find f l1 with Some x => Some x | None => find f l2 end.
Proof.
  induction l1 as [ | x l1 IH ]; simpl; [reflexivity | ].
  destruct (f x); [reflexivity | exact IH].
Qed.

Lemma find_none_has_edge g u v :
  has_edge g u v = false -> find (same_pair u v) (edge_table g) = None.
Proof.
  unfold has_edge. intros H.
  destruct (find (same_pair u v) (edge_table g)) as [e | ] eqn:F; [ | reflexivity].
  apply find_some in F. destruct F as [Hin He].
  assert (T : existsb (same_pair u v) (edge_table g) = true)
    by (apply existsb_exists; eauto).
  congruence.
Qed.

Lemma find_update_same u v p table :
  existsb (same_pair u v) table = true ->
  find (same_pair u v) (update_attr (at_pair u v) (Some p) table)
  = Some ((u, v), Some p).
Proof.
  induction table as [ | [k old] rest IH ]; simpl; [discriminate | ].
  unfold same_pair at 1. simpl. fold (at_pair u v k).
  destruct (at_pair u v k) eqn:E; simpl.
  - intros _. unfold same_pair. simpl. fold (at_pair u v k). rewrite E.
    apply at_pair_true in E. now subst k.
  - intros H. unfold same_pair at 1. simpl. fold (at_pair u v k). rewrite E.
    now apply IH.
Qed.

Lemma find_update_other u v a b attr table :
  (a, b) <> (u, v) ->
  find (same_pair a b) (update_attr (at_pair u v) attr table)
  = find (same_pair a b) table.
Proof.
  intros N. induction table as [ | [k old] rest IH ]; simpl; [reflexivity | ].
  destruct (at_pair u v k) eqn:E; simpl.
  - apply at_pair_true in E. subst k. unfold same_pair. simpl.
    destruct (String.eqb u a && String.eqb v b) eqn:F; [ | reflexivity].
    apply andb_true_iff in F. destruct F as [Fa Fb].
    apply String.eqb_eq in Fa, Fb. subst. now contradiction N.
  - unfold same_pair at 1 3. simpl.
    destruct (String.eqb (fst k) a && String.eqb (snd k) b); [reflexivity | exact IH].
Qed.

(** The edge [add_edge] wrote carries the relation of the call. *)
Lemma edge_data_written g u v p :
  edge_data (add_edge g u v (Some p)) u v = Ok (Some p).
Proof.
  unfold edge_data, add_edge.
  set (g' := ensure_node (ensure_node g u) v).
  destruct (has_edge g' u v) eqn:E; simpl.
  - now rewrite find_update_same.
  - rewrite find_append, (find_none_has_edge _ _ _ E). simpl.
    unfold same_pair. simpl. now rewrite !String.eqb_refl.
Qed.

(** Every other edge keeps its attributes. *)
Lemma edge_data_elsewhere g u v rel a b :
  (a, b) <> (u, v) ->
  edge_data (add_edge g u v rel) a b = edge_data g a b.
Proof.
  intros N. unfold edge_data, add_edge.
  set (g' := ensure_node (ensure_node g u) v).
  assert (T : edge_table g' = edge_table g)
    by (unfold g'; now rewrite !edge_table_ensure_node).
  destruct (has_edge g' u v); simpl.
  - now rewrite find_update_other, T.
  - rewrite find_append, T.
    destruct (find (same_pair a b) (edge_table g)); [reflexivity | ]. simpl.
    unfold same_pair. simpl.
    destruct (String.eqb u a && String.eqb v b) eqn:F; [ | reflexivity].
    apply andb_true_iff in F. destruct F as [Fa Fb].
    apply String.eqb_eq in Fa, Fb. subst. now contradiction N.
Qed.

End EdgeFacts.

(* ================================================================== *)
(** * Graph assembly *)
(* ================================================================== *)

Module Assembly.

Import Nx GraphFacts EdgeFacts Builder Relations Notions Samples.

(** A loop whose body never raises and keeps an invariant. *)
Lemma for_each_invariant {A S : Type} (P : S -> Prop) (body : S -> A -> result S) :
  (forall acc x, P acc -> exists acc', body acc x = Ok acc' /\ P acc') ->
  forall xs acc, P acc -> exists acc', for_each xs body acc = Ok acc' /\ P acc'.
Proof.
  intros Step. induction xs as [ | x xs IH ]; intros acc H; simpl.
  - now exists acc.
  - destruct (Step acc x H) as (acc1 & E & H1). rewrite E. simpl. now apply IH.
Qed.

Lemma assembled_empty : assembled empty.
Proof. split; [apply closed_empty | split; [apply simple_empty | constructor]]. Qed.

Lemma add_entity_assembled g e :
  assembled g ->
  exists g', add_entity g e = Ok g' /\ assembled g'
             /\ In e (nodes g') /\ (forall x, In x (nodes g) -> In x (nodes g')).
Proof.
  intros (C & S & T). unfold add_entity.
  destruct (has_node g e) eqn:E; simpl.
  - exists g. split; [reflexivity | split; [now split | split; [ | auto]]].
    now apply has_node_In.
  - exists (add_node g e (Some "entity")).
    split; [reflexivity | split; [split; [ | split] | split]].
    + now apply closed_add_node.
    + now apply simple_add_node.
    + unfold typed, add_node. rewrite E. simpl.
      apply Forall_app. split; [exact T | ].
      constructor; [reflexivity | constructor].
    + apply nodes_add_node. now right.
    + intros x Hx. apply nodes_add_node. now left.
Qed.

Lemma add_entities_assembled : forall entities g,
  assembled g ->
  exists g', for_each entities add_entity g = Ok g' /\ assembled g'
             /\ holds entities g' /\ (forall x, In x (nodes g) -> In x (nodes g')).
Proof.
  induction entities as [ | e entities IH ]; intros g A; cbn [for_each].
  - exists g. split; [reflexivity | split; [exact A | split; [intros e [] | auto]]].
  - destruct (add_entity_assembled e A) as (g1 & E1 & A1 & In1 & Sub1).
    rewrite E1. cbn [bind].
    destruct (IH g1 A1) as (g2 & E2 & A2 & H2 & Sub2).
    exists g2. split; [exact E2 | split; [exact A2 | split]].
    + intros x [<- | Hx]; auto.
    + auto.
Qed.

Lemma find_best_entity_match_In entity entity_set e :
  _find_best_entity_match entity entity_set = Some e -> In e entity_set.
Proof.
  unfold _find_best_entity_match.
  destruct (find _ entity_set) as [e1 | ] eqn:F1.
  - intros H; inversion H; subst. now apply find_some in F1.
  - intros F2. now apply find_some in F2.
Qed.

Lemma add_edge_between_nodes g u v rel :
  has_node g u = true -> has_node g v = true ->
  node_table (add_edge g u v rel) = node_table g.
Proof.
  intros Hu Hv. unfold add_edge.
  rewrite (ensure_node_present _ _ Hu), (ensure_node_present _ _ Hv).
  now destruct (has_edge g u v).
Qed.

Lemma add_relation_assembled entities g t :
  assembled g -> holds entities g ->
  exists g', add_relation entities g t = Ok g' /\ assembled g'
             /\ node_table g' = node_table g.
Proof.
  intros (C & S & T) H. destruct t as [[subject predicate] obj].
  unfold add_relation.
  assert (Same : exists g', Ok g = Ok g' /\ assembled g'
                            /\ node_table g' = node_table g).
  { exists g. split; [reflexivity | split; [now split | reflexivity]]. }
  destruct (_find_best_entity_match subject entities) as [u | ] eqn:Eu;
    [ | exact Same].
  destruct (_find_best_entity_match obj entities) as [v | ] eqn:Ev;
    [ | exact Same].
  destruct (truthy (Some u) && truthy (Some v)); [ | exact Same].
  apply find_best_entity_match_In, H, has_node_In in Eu.
  apply find_best_entity_match_In, H, has_node_In in Ev.
  exists (add_edge g u v (Some predicate)).
  pose proof (@add_edge_between_nodes g u v (Some predicate) Eu Ev) as N.
  split; [reflexivity | split; [split; [ | split] | exact N]].
  - now apply closed_add_edge.
  - now apply simple_add_edge.
  - unfold typed. now rewrite N.
Qed.

Lemma add_relations_assembled entities : forall relations g,
  assembled g -> holds entities g ->
  exists g', for_each relations (add_relation entities) g = Ok g' /\ assembled g'
             /\ node_table g' = node_table g.
Proof.
  induction relations as [ | t relations IH ]; intros g A H; cbn [for_each].
  - now exists g.
  - destruct (add_relation_assembled t A H) as (g1 & E1 & A1 & N1).
    rewrite E1. cbn [bind].
    assert (H1 : holds entities g1).
    { intros e He. unfold nodes. rewrite N1. now apply H. }
    destruct (IH g1 A1 H1) as (g2 & E2 & A2 & N2).
    exists g2. split; [exact E2 | split; [exact A2 | congruence]].
Qed.

(** ** The edges of the assembled graph are its last writes *)

Lemma add_relation_writes entities g t :
  add_relation entities g t = Ok (write_all g (resolve entities t)).
Proof.
  destruct t as [[subject predicate] obj]. unfold add_relation, resolve.
  destruct (_find_best_entity_match subject entities) as [u | ]; [ | reflexivity].
  destruct (_find_best_entity_match obj entities) as [v | ]; [ | reflexivity].
  now destruct (truthy (Some u) && truthy (Some v)).
Qed.

Lemma write_all_app g ws1 ws2 :
  write_all g (ws1 ++ ws2) = write_all (write_all g ws1) ws2.
Proof. apply fold_left_app. Qed.

Lemma add_relations_write entities : forall relations g,
  for_each relations (add_relation entities) g
  = Ok (write_all g (flat_map (resolve entities) relations)).
Proof.
  induction relations as [ | t relations IH ]; intros g; cbn [for_each flat_map].
  - reflexivity.
  - rewrite add_relation_writes. cbn [bind]. rewrite IH. now rewrite write_all_app.
Qed.

Lemma last_write_app u v ws1 ws2 :
  last_write u v (ws1 ++ ws2)
  = match last_write u v ws2 with
    | Some later => Some later
    | None => last_write u v ws1
    end.
Proof.
  induction ws1 as [ | [ends label] ws1 IH ]; simpl.
  - now destruct (last_write u v ws2).
  - rewrite IH. now destruct (last_write u v ws2).
Qed.

(** After a sequence of writes, an edge carries the label of the last write
    on its pair, and a pair without a write is as it was. *)
Lemma edge_data_write_all u v : forall ws g,
  edge_data (write_all g ws) u v
  = match last_write u v ws with
    | Some label => Ok (Some label)
    | None => edge_data g u v
    end.
Proof.
  induction ws as [ | [[a b] label] ws IH ]; intros g; [reflexivity | ].
  change (write_all g (((a, b), label) :: ws))
    with (write_all (add_edge g a b (Some label)) ws).
  rewrite IH. cbn [last_write].
  destruct (last_write u v ws) as [later | ]; [reflexivity | ].
  destruct (at_pair u v (a, b)) eqn:E.
  - apply at_pair_true in E. inversion E; subst. apply edge_data_written.
  - apply edge_data_elsewhere. intros N. inversion N; subst.
    unfold at_pair in E. simpl in E. now rewrite !String.eqb_refl in E.
Qed.

Lemma add_entities_edges : forall entities g g',
  for_each entities add_entity g = Ok g' -> edge_table g' = edge_table g.
Proof.
  induction entities as [ | e entities IH ]; intros g g' H; cbn [for_each] in H.
  - now inversion H.
  - unfold add_entity at 1 in H. cbn [bind] in H. apply IH in H. rewrite H.
    destruct (negb (has_node g e)); [apply edge_table_add_node | reflexivity].
Qed.

Section WithOrder.

Variable order : set_iteration.

Lemma add_chunk_assembled g chunk :
  assembled g ->
  exists g', add_chunk order g chunk = Ok g' /\ assembled g'
             /\ holds (extract_entities order chunk) g'
             /\ (forall x, In x (nodes g) -> In x (nodes g')).
Proof.
  intros A. unfold add_chunk.
  destruct (add_entities_assembled (extract_entities order chunk) A)
    as (g1 & E1 & A1 & H1 & Sub1).
  rewrite E1. cbn [bind]. rewrite extract_relations_filter. cbn [bind].
  destruct (add_relations_assembled
              (filter (accepted (extract_entities order chunk))
                      (pattern_matches chunk)) A1 H1)
    as (g2 & E2 & A2 & N2).
  exists g2. split; [exact E2 | split; [exact A2 | ]].
  unfold holds, nodes in *. rewrite N2. auto.
Qed.

Lemma add_chunk_writes g chunk :
  assembled g ->
  exists g', add_chunk order g chunk = Ok g' /\ assembled g'
    /\ forall u v,
         edge_data g' u v
         = match last_write u v (chunk_writes order chunk) with
           | Some label => Ok (Some label)
           | None => edge_data g u v
           end.
Proof.
  intros A. destruct (add_chunk_assembled chunk A) as (g' & E & A' & _).
  exists g'. split; [exact E | split; [exact A' | ]].
  intros u v. unfold add_chunk in E.
  destruct (for_each (extract_entities order chunk) add_entity g) as [g1 | ] eqn:E1;
    [ | discriminate].
  cbn [bind] in E. rewrite extract_relations_filter in E. cbn [bind] in E.
  rewrite add_relations_write in E. inversion E; subst g'.
  fold (chunk_writes order chunk). rewrite edge_data_write_all.
  apply add_entities_edges in E1. unfold edge_data. now rewrite E1.
Qed.

Lemma add_chunks_writes : forall text_chunks g,
  assembled g ->
  exists g', for_each text_chunks (add_chunk order) g = Ok g' /\ assembled g'
    /\ forall u v,
         edge_data g' u v
         = match last_write u v (writes order text_chunks) with
           | Some label => Ok (Some label)
           | None => edge_data g u v
           end.
Proof.
  induction text_chunks as [ | chunk text_chunks IH ]; intros g A; cbn [for_each].
  - exists g. split; [reflexivity | split; [exact A | reflexivity]].
  - destruct (add_chunk_writes chunk A) as (g1 & E1 & A1 & W1).
    rewrite E1. cbn [bind].
    destruct (IH g1 A1) as (g2 & E2 & A2 & W2).
    exists g2. split; [exact E2 | split; [exact A2 | ]].
    intros u v. rewrite W2, W1. unfold writes. cbn [flat_map].
    rewrite last_write_app. fold (writes order text_chunks).
    now destruct (last_write u v (writes order text_chunks)).
Qed.

Lemma build_graph_from_chunks_assembled text_chunks :
  exists g, build_graph_from_chunks order text_chunks = Ok g /\ assembled g.
Proof.
  unfold build_graph_from_chunks.
  apply for_each_invariant; [ | apply assembled_empty].
  intros g chunk A.
  destruct (add_chunk_assembled chunk A) as (g' & E & A' & _).
  now exists g'.
Qed.

End WithOrder.

End Assembly.

(* ================================================================== *)
(** * Entity resolution and entity information *)
(* ================================================================== *)

Module Resolution.

Import Nx GraphFacts Router Notions Samples.

(** A loop whose body returns on every member of the list. *)
Lemma for_each_returns {A S : Type} (body : S -> A -> result S) :
  forall xs acc,
    (forall acc x, In x xs -> exists acc', body acc x = Ok acc') ->
    exists acc', for_each xs body acc = Ok acc'.
Proof.
  induction xs as [ | x xs IH ]; intros acc Step; cbn [for_each].
  - now exists acc.
  - destruct (Step acc x (or_introl eq_refl)) as (acc1 & E). rewrite E. cbn [bind].
    apply IH. intros acc2 y Hy. apply Step. now right.
Qed.

Section WithRatio.

Variable ratio : string -> string -> Q.

(** Every candidate is a node of the graph (or was one already). *)
Lemma similar_loop_In entity_lower threshold : forall labels similar_entities x,
  In x (similar_loop ratio entity_lower threshold labels similar_entities) ->
  In x similar_entities \/ In x labels.
Proof.
  induction labels as [ | node rest IH ]; intros acc x H; simpl in H.
  - now left.
  - destruct (String.eqb entity_lower (Str.lower node)).
    + destruct H as [<- | []]. right. now left.
    + apply IH in H. destruct H as [H | H]; [ | right; now right].
      assert (Grow : forall (b : bool) l,
               In x (if b then l ++ [node] else l) -> In x l \/ x = node).
      { intros [] l Hl; [ | now left].
        apply in_app_iff in Hl. destruct Hl as [Hl | [<- | []]]; auto. }
      apply Grow in H. destruct H as [H | ->]; [ | right; now left].
      apply Grow in H. destruct H as [H | ->]; [now left | right; now left].
Qed.

Lemma find_similar_entities_nodes g entity threshold x :
  In x (find_similar_entities ratio g entity threshold) -> In x (nodes g).
Proof.
  unfold find_similar_entities. intros H.
  apply similar_loop_In in H. now destruct H as [[] | H].
Qed.

(** An exact match ends the loop with that node alone, whatever was
    collected before it. *)
Lemma similar_loop_exact entity_lower threshold : forall labels similar_entities,
  (exists node, In node labels /\ Str.lower node = entity_lower) ->
  exists node, In node labels /\ Str.lower node = entity_lower
               /\ similar_loop ratio entity_lower threshold labels similar_entities
                  = [node].
Proof.
  induction labels as [ | node rest IH ]; intros acc (n & Hin & E).
  - destruct Hin.
  - simpl. destruct (String.eqb entity_lower (Str.lower node)) eqn:Q.
    + apply String.eqb_eq in Q. exists node.
      split; [now left | split; [now symmetry | reflexivity]].
    + destruct Hin as [-> | Hin].
      * rewrite E, String.eqb_refl in Q. discriminate.
      * match goal with
        | |- context [similar_loop _ _ _ rest ?acc'] =>
            destruct (IH acc' (ex_intro _ n (conj Hin E))) as (m & Hm & Em & R)
        end.
        exists m. split; [now right | split; [exact Em | exact R]].
Qed.

End WithRatio.

Lemma In_firstn {A : Type} (x : A) : forall n l, In x (firstn n l) -> In x l.
Proof.
  induction n as [ | n IH ]; intros l H; [destruct H | ].
  destruct l as [ | y l ]; [destruct H | ].
  destruct H as [-> | H]; [now left | right; now apply IH].
Qed.

Lemma out_neighbours_edge g u v :
  In v (out_neighbours g u) -> has_edge g u v = true.
Proof.
  unfold out_neighbours. rewrite in_map_iff.
  intros ([[a b] r] & E & H). simpl in E. subst b.
  apply filter_In in H. destruct H as [H Q]. simpl in Q.
  apply String.eqb_eq in Q. subst a.
  apply has_edge_In, in_map_iff. now exists ((u, v), r).
Qed.

Lemma in_neighbours_edge g u v :
  In u (in_neighbours g v) -> has_edge g u v = true.
Proof.
  unfold in_neighbours. rewrite in_map_iff.
  intros ([[a b] r] & E & H). simpl in E. subst a.
  apply filter_In in H. destruct H as [H Q]. simpl in Q.
  apply String.eqb_eq in Q. subst b.
  apply has_edge_In, in_map_iff. now exists ((u, v), r).
Qed.

(** [graph.edges[u, v]] returns for an edge of the graph. *)
Lemma edge_data_returns g u v :
  has_edge g u v = true -> exists attrs, edge_data g u v = Ok attrs.
Proof.
  unfold has_edge, edge_data. intros H.
  destruct (find (same_pair u v) (edge_table g)) as [e | ] eqn:F.
  - now exists (snd e).
  - apply existsb_exists in H. destruct H as (e & Hin & He).
    now rewrite (find_none _ _ F e Hin) in He.
Qed.

Lemma node_data_returns g n :
  has_node g n = true -> exists attrs, node_data g n = Ok attrs.
Proof.
  intros H. apply has_node_In in H. unfold nodes in H.
  apply in_map_iff in H. destruct H as (e & E & Hin).
  unfold node_data.
  destruct (find (fun e => String.eqb (fst e) n) (node_table g)) as [e' | ] eqn:F.
  - now exists (snd e').
  - pose proof (find_none _ _ F e Hin) as N. simpl in N.
    rewrite E, String.eqb_refl in N. discriminate.
Qed.

(** [get_entity_information] has something to say of every node: its
    neighbours are its successors. *)
Lemma get_entity_information_node g n :
  In n (nodes g) ->
  exists info, get_entity_information g n = Ok (Some info)
               /\ entity info = n
               /\ neighbors info = out_neighbours g n.
Proof.
  intros H. unfold get_entity_information.
  pose proof (proj2 (mem_In n (nodes g)) H) as M. rewrite M. cbn [negb].
  assert (N : has_node g n = true) by exact M.
  destruct (node_data_returns g n N) as (attrs & ->). cbn [bind].
  unfold Nx.neighbors, successors, predecessors. rewrite N. cbn [bind].
  destruct (for_each_returns
              (fun acc neighbor =>
                 edge_data <- Nx.edge_data g n neighbor ;;
                 Ok (acc ++ [(neighbor, Nx.get edge_data "unknown")]))
              (out_neighbours g n) [])
    as (outgoing & ->).
  { intros acc v Hv. apply out_neighbours_edge, edge_data_returns in Hv.
    destruct Hv as (d & ->). cbn [bind]. eauto. }
  cbn [bind].
  destruct (for_each_returns
              (fun acc predecessor =>
                 edge_data <- Nx.edge_data g predecessor n ;;
                 Ok (acc ++ [(predecessor, Nx.get edge_data "unknown")]))
              (in_neighbours g n) [])
    as (incoming & ->).
  { intros acc u Hu. apply in_neighbours_edge, edge_data_returns in Hu.
    destruct Hu as (d & ->). cbn [bind]. eauto. }
  cbn [bind]. eexists. split; [reflexivity | split; reflexivity].
Qed.

End Resolution.

(* ================================================================== *)
(** * Question classification *)
(* ================================================================== *)

Module Classification.

Import Router ReFacts Notions Samples.

Lemma mentions_returns q_type pattern m :
  fits q_type pattern -> complete pattern m ->
  exists entities, mentions q_type m = Ok entities
                   /\ List.length entities = arity q_type.
Proof.
  intros [B1 B2] C. unfold mentions, arity.
  destruct (@group_strip_ok pattern 0 m C B1) as (t1 & _ & ->). cbn [bind].
  destruct (String.eqb q_type "relationship").
  - destruct (@group_strip_ok pattern 1 m C (B2 eq_refl)) as (t2 & _ & ->).
    cbn [bind]. now eexists.
  - now eexists.
Qed.

Lemma try_patterns_returns q_type question_lower : forall patterns answer,
  Forall (fits q_type) patterns ->
  try_patterns q_type patterns question_lower = Some answer ->
  exists entities, answer = Ok (q_type, entities)
                   /\ List.length entities = arity q_type.
Proof.
  induction patterns as [ | pattern rest IH ]; intros answer F H; simpl in H.
  - discriminate.
  - inversion F as [ | ? ? Fit F' ]; subst.
    destruct (search pattern question_lower) as [m | ] eqn:S.
    + apply search_complete in S.
      destruct (mentions_returns Fit S) as (entities & E & L).
      inversion H; subst. rewrite E. cbn [bind]. now exists entities.
    + now apply IH.
Qed.

(** A pattern of the list matches: the first one that does decides. *)
Lemma try_patterns_matches q_type question_lower : forall patterns,
  (exists pattern, In pattern patterns /\ search pattern question_lower <> None) ->
  try_patterns q_type patterns question_lower <> None.
Proof.
  induction patterns as [ | pattern rest IH ]; intros (p0 & Hin & S); simpl.
  - destruct Hin.
  - destruct (search pattern question_lower) eqn:E; [discriminate | ].
    destruct Hin as [-> | Hin]; [congruence | ].
    apply IH. now exists p0.
Qed.

(** The first pattern of the list that matches decides, with its match. *)
Lemma try_patterns_first q_type question_lower : forall patterns,
  (exists pattern, In pattern patterns /\ search pattern question_lower <> None) ->
  exists before pattern after m,
    patterns = before ++ pattern :: after
    /\ (forall earlier, In earlier before -> search earlier question_lower = None)
    /\ search pattern question_lower = Some m
    /\ try_patterns q_type patterns question_lower
       = Some (entities <- mentions q_type m ;; Ok (q_type, entities)).
Proof.
  induction patterns as [ | p rest IH ]; intros (p0 & Hin & S).
  - destruct Hin.
  - cbn [try_patterns]. destruct (search p question_lower) as [m | ] eqn:E.
    + exists [], p, rest, m.
      split; [reflexivity | split; [intros earlier [] | split; [exact E | reflexivity]]].
    + destruct Hin as [-> | Hin]; [congruence | ].
      destruct (IH (ex_intro _ p0 (conj Hin S))) as (b & p' & a & m & -> & Hb & Sm & T).
      exists (p :: b), p', a, m.
      split; [reflexivity | split; [ | split; [exact Sm | exact T]]].
      intros earlier [<- | He]; [exact E | now apply Hb].
Qed.

(** The mentions of a relationship question: the two groups, stripped. *)
Lemma mentions_relationship pattern m :
  fits "relationship" pattern -> complete pattern m ->
  exists first second,
    group 1 m = Some first
    /\ group 2 m = Some second
    /\ mentions "relationship" m = Ok [Str.strip first; Str.strip second].
Proof.
  intros [B1 B2] C. unfold mentions. cbn [String.eqb Ascii.eqb Bool.eqb].
  destruct (@group_strip_ok pattern 0 m C B1) as (t1 & G1 & S1).
  destruct (@group_strip_ok pattern 1 m C (B2 eq_refl)) as (t2 & G2 & S2).
  exists t1, t2. split; [exact G1 | split; [exact G2 | ]].
  change (String.eqb "relationship" "relationship") with true.
  cbv iota. rewrite S1. cbn [bind]. rewrite S2. reflexivity.
Qed.

(** The mention of a question of another type: the first group, stripped. *)
Lemma mentions_single q_type pattern m :
  String.eqb q_type "relationship" = false ->
  fits q_type pattern -> complete pattern m ->
  exists first,
    group 1 m = Some first /\ mentions q_type m = Ok [Str.strip first].
Proof.
  intros N [B1 _] C. unfold mentions. rewrite N.
  destruct (@group_strip_ok pattern 0 m C B1) as (t1 & G1 & S1).
  exists t1. split; [exact G1 | ]. rewrite S1. reflexivity.
Qed.

Lemma question_patterns_fit :
  Forall (fun entry => Forall (fits (fst entry)) (snd entry)) question_patterns.
Proof.
  repeat constructor; simpl; discriminate.
Qed.

Lemma try_types_returns question_lower : forall table answer,
  Forall (fun entry => Forall (fits (fst entry)) (snd entry)) table ->
  try_types table question_lower = Some answer ->
  exists q_type entities, answer = Ok (q_type, entities)
                          /\ List.length entities = arity q_type.
Proof.
  induction table as [ | [q_type patterns] rest IH ]; intros answer F H; simpl in H.
  - discriminate.
  - inversion F as [ | ? ? Fit F' ]; subst. simpl in Fit.
    destruct (try_patterns q_type patterns question_lower) as [a | ] eqn:T.
    + inversion H; subst.
      destruct (try_patterns_returns _ Fit T) as (entities & E & L).
      now exists q_type, entities.
    + now apply IH.
Qed.

(** [classify_question] returns for every question. *)
Lemma classify_question_returns question :
  exists q_type entities, classify_question question = Ok (q_type, entities).
Proof.
  unfold classify_question.
  destruct (try_types question_patterns (Str.lower question)) as [a | ] eqn:T.
  - destruct (try_types_returns _ question_patterns_fit T) as (q & es & E & _).
    now exists q, es.
  - now eexists _, _.
Qed.

End Classification.

(* ================================================================== *)
(** * Paths *)
(* ================================================================== *)

Module Paths.

Import Nx GraphFacts Resolution Notions Samples.

Lemma chain_snoc g u v : forall path,
  chain g (path ++ [u]) = true -> has_edge g u v = true ->
  chain g ((path ++ [u]) ++ [v]) = true.
Proof.
  induction path as [ | a path IH ]; intros C E.
  - simpl. now rewrite E.
  - destruct path as [ | b path ].
    + simpl in *. apply andb_true_iff in C. destruct C as [C _].
      now rewrite E, C.
    + change (has_edge g a b && chain g (((b :: path) ++ [u]) ++ [v]) = true).
      change (has_edge g a b && chain g ((b :: path) ++ [u]) = true) in C.
      apply andb_true_iff in C. destruct C as [Cab C].
      rewrite Cab. now apply IH.
Qed.

Lemma grow_good g tip path : forall targets visited,
  good g (tip, path) ->
  (forall v, In v targets -> has_edge g tip v = true) ->
  Forall (good g) (fst (Bfs.grow path targets visited)).
Proof.
  induction targets as [ | v rest IH ]; intros visited G E; simpl.
  - constructor.
  - destruct (Str.mem v visited).
    + apply IH; [exact G | intros w Hw; apply E; now right].
    + specialize (IH (v :: visited) G (fun w Hw => E w (or_intror Hw))).
      destruct (Bfs.grow path rest (v :: visited)) as [trails visited'].
      simpl in *. constructor; [ | exact IH].
      destruct G as [(front & P) C]. simpl in P, C. subst path.
      split; simpl; [now exists (front ++ [tip]) | ].
      apply chain_snoc; [exact C | apply E; now left].
Qed.

Lemma expand_good g : forall frontier visited,
  Forall (good g) frontier ->
  Forall (good g) (fst (Bfs.expand g frontier visited)).
Proof.
  induction frontier as [ | [tip path] rest IH ]; intros visited F; simpl.
  - constructor.
  - inversion F as [ | ? ? G F' ]; subst.
    pose proof (grow_good (out_neighbours g tip) visited G
                  (fun v Hv => out_neighbours_edge g tip v Hv)) as Here.
    destruct (Bfs.grow path (out_neighbours g tip) visited) as [here visited1].
    specialize (IH visited1 F').
    destruct (Bfs.expand g rest visited1) as [there visited2].
    simpl in *. apply Forall_app. now split.
Qed.

Lemma bfs_chain g target : forall fuel frontier visited path,
  Forall (good g) frontier ->
  Bfs.bfs fuel g target frontier visited = Some path ->
  chain g path = true.
Proof.
  induction fuel as [ | fuel IH ]; intros frontier visited path F H; simpl in H.
  - discriminate.
  - destruct (find (fun t => String.eqb (fst t) target) frontier) as [t | ] eqn:Found.
    + inversion H; subst. apply find_some in Found. destruct Found as [Hin _].
      rewrite Forall_forall in F. now destruct (F t Hin).
    + destruct frontier as [ | t0 rest ]; [discriminate | ].
      pose proof (expand_good visited F) as Next.
      destruct (Bfs.expand g (t0 :: rest) visited) as [next visited'].
      eapply IH; eauto.
Qed.

(** The breadth-first search is such a path finder. *)
Lemma search_finds_paths : finds_paths Bfs.shortest_path.
Proof.
  intros g source target Hs Ht. unfold Bfs.shortest_path.
  rewrite Hs, Ht. cbn [negb orb].
  destruct (Bfs.bfs (S (number_of_nodes g)) g target [(source, [source])] [source])
    as [path | ] eqn:B; [right | now left].
  exists path. split; [reflexivity | ].
  eapply bfs_chain; [ | exact B].
  constructor; [ | constructor].
  split; [now exists [] | reflexivity].
Qed.

End Paths.

(* ================================================================== *)
(** * The answers *)
(* ================================================================== *)

Module Answers.

Import Nx GraphFacts Resolution Paths Classification Router Notions Samples.

Section WithLibraries.

Variable ratio : string -> string -> Q.
Variable shortest_path : DiGraph -> string -> string -> result (list string).
Hypothesis paths : finds_paths shortest_path.

Variable graph : DiGraph.

Lemma path_relations_step u v rest :
  path_relations graph (u :: v :: rest)
  = (edge_data <- Nx.edge_data graph u v ;;
     relations <- path_relations graph (v :: rest) ;;
     Ok ((u, Nx.get edge_data "connected_to", v) :: relations)).
Proof. reflexivity. Qed.

Lemma path_relations_returns : forall path,
  chain graph path = true -> exists relations, path_relations graph path = Ok relations.
Proof.
  induction path as [ | u path IH ]; intros C.
  - now exists [].
  - destruct path as [ | v path ]; [now exists [] | ].
    change (has_edge graph u v && chain graph (v :: path) = true) in C.
    apply andb_true_iff in C. destruct C as [E C].
    destruct (edge_data_returns _ _ _ E) as (d & D).
    destruct (IH C) as (relations & R).
    rewrite path_relations_step, D. cbn [bind].
    rewrite R. cbn [bind]. now eexists.
Qed.

Lemma find_path_between_entities_returns entity1 entity2 :
  has_node graph entity1 = true -> has_node graph entity2 = true ->
  exists relations,
    find_path_between_entities shortest_path graph entity1 entity2 = Ok relations.
Proof.
  intros H1 H2. unfold find_path_between_entities.
  destruct (paths graph entity1 entity2 H1 H2) as [-> | (path & -> & C)].
  - now exists [].
  - cbn [bind]. destruct (path_relations_returns path C) as (relations & ->).
    now exists relations.
Qed.

Lemma answer_what_is_question_returns entity :
  exists answer, answer_what_is_question ratio graph entity = Ok answer.
Proof.
  unfold answer_what_is_question.
  destruct (find_similar_entities ratio graph entity default_threshold)
    as [ | target rest ] eqn:F; [now eexists | ].
  assert (N : In target (nodes graph)).
  { eapply find_similar_entities_nodes. rewrite F. now left. }
  cbn [index nth_error bind].
  destruct (get_entity_information_node graph target N) as (info & -> & _).
  cbn [bind]. now eexists.
Qed.

Lemma answer_relationship_question_returns entity1 entity2 :
  exists answer,
    answer_relationship_question ratio shortest_path graph entity1 entity2 = Ok answer.
Proof.
  unfold answer_relationship_question.
  destruct (find_similar_entities ratio graph entity1 default_threshold)
    as [ | target1 rest1 ] eqn:F1; [now eexists | ].
  destruct (find_similar_entities ratio graph entity2 default_threshold)
    as [ | target2 rest2 ] eqn:F2; [now eexists | ].
  assert (N1 : has_node graph target1 = true).
  { apply has_node_In. eapply find_similar_entities_nodes. rewrite F1. now left. }
  assert (N2 : has_node graph target2 = true).
  { apply has_node_In. eapply find_similar_entities_nodes. rewrite F2. now left. }
  cbn [index nth_error bind].
  destruct (has_edge graph target1 target2) eqn:E12.
  { destruct (edge_data_returns _ _ _ E12) as (d & ->). cbn [bind]. now eexists. }
  destruct (has_edge graph target2 target1) eqn:E21.
  { destruct (edge_data_returns _ _ _ E21) as (d & ->). cbn [bind]. now eexists. }
  destruct (find_path_between_entities_returns target1 target2 N1 N2)
    as (relations & ->).
  cbn [bind]. destruct relations; now eexists.
Qed.

Lemma general_step_returns relevant_info entity :
  exists relevant_info', general_step ratio graph relevant_info entity = Ok relevant_info'.
Proof.
  unfold general_step.
  destruct (find_similar_entities ratio graph entity default_threshold)
    as [ | target rest ] eqn:F; [now eexists | ].
  assert (N : In target (nodes graph)).
  { eapply find_similar_entities_nodes. rewrite F. now left. }
  cbn [index nth_error bind].
  destruct (get_entity_information_node graph target N) as (info & -> & _).
  cbn [bind]. now eexists.
Qed.

Lemma answer_general_question_returns entities :
  exists answer, answer_general_question ratio graph entities = Ok answer.
Proof.
  unfold answer_general_question.
  destruct entities as [ | e entities ]; [now eexists | ].
  destruct (for_each_returns (general_step ratio graph) (e :: entities) [])
    as (relevant_info & ->).
  { intros acc x _. apply general_step_returns. }
  cbn [bind]. destruct relevant_info; now eexists.
Qed.

(** [answer_question] returns a string for every question. *)
Lemma answer_question_returns question :
  exists answer, answer_question ratio shortest_path graph question = Ok answer.
Proof.
  unfold answer_question.
  destruct (number_of_nodes graph =? 0); [now eexists | ].
  destruct (classify_question_returns question) as (q_type & entities & ->).
  cbn [bind].
  destruct (String.eqb q_type "what_is" && negb (List.length entities =? 0)) eqn:W.
  { destruct entities as [ | e entities ];
      [now rewrite andb_false_r in W | ].
    cbn [index nth_error bind]. apply answer_what_is_question_returns. }
  destruct (String.eqb q_type "who_is" && negb (List.length entities =? 0)) eqn:O.
  { destruct entities as [ | e entities ];
      [now rewrite andb_false_r in O | ].
    cbn [index nth_error bind]. apply answer_what_is_question_returns. }
  destruct (String.eqb q_type "relationship" && (2 <=? List.length entities)) eqn:R.
  { destruct entities as [ | e1 [ | e2 entities ] ];
      try (now rewrite andb_false_r in R).
    cbn [index nth_error bind]. apply answer_relationship_question_returns. }
  apply answer_general_question_returns.
Qed.

End WithLibraries.

End Answers.

(* ================================================================== *)
(** * Properties of relation extraction and of graph assembly *)
(* ================================================================== *)

Module BuilderProperties.

Import Nx GraphFacts EdgeFacts Builder Relations Assembly Notions Samples.

(** C1, as stated, fails: in "The engineer John works at Microsoft." the
    pattern for works_at captures the subject "The engineer John"; the
    entity John is contained in it, so a test of containment in either
    direction would keep the match, but [extract_relations] drops it. *)
Lemma extract_relations_drops_containing_subject :
  extract_entities insertion_order engineer_text = ["John"; "Microsoft"]
  /\ pattern_matches engineer_text = [("The engineer John", "works_at", "Microsoft")]
  /\ overlapping ["John"; "Microsoft"] ("The engineer John", "works_at", "Microsoft") = true
  /\ extract_relations engineer_text ["John"; "Microsoft"] = Ok [].
Proof. repeat split; vm_compute; reflexivity. Qed.

(** C1, amended: for every text and entity set, [extract_relations] returns
    the surface-pattern matches, in order, that pass its test, and a match
    passes exactly when the lowercased subject is contained in the
    lowercased text of some entity and the lowercased object is contained
    in the lowercased text of some entity. *)
Theorem extract_relations_keeps_contained (text : string) (entities : list string) :
  extract_relations text entities
  = Ok (filter (accepted entities) (pattern_matches text))
  /\ forall subject relation obj,
       In (subject, relation, obj) (filter (accepted entities) (pattern_matches text))
       <-> In (subject, relation, obj) (pattern_matches text)
           /\ (exists entity, In entity entities
                 /\ Str.contains (Str.lower subject) (Str.lower entity) = true)
           /\ (exists entity, In entity entities
                 /\ Str.contains (Str.lower obj) (Str.lower entity) = true).
Proof.
  split; [apply extract_relations_filter | ].
  intros subject relation obj. rewrite filter_In. unfold accepted.
  rewrite andb_true_iff, !within_some_entity_iff. reflexivity.
Qed.

(** C7: for every chunk list, graph assembly returns a graph in which the
    two ends of every edge are nodes; they are nodes that entity
    extraction added, since every node carries the entity attribute. *)
Theorem assembled_graph_has_no_dangling_edge
  (order : set_iteration) (text_chunks : list string) :
  exists g, build_graph_from_chunks order text_chunks = Ok g
    /\ (forall u v rel, In ((u, v), rel) (edge_table g) ->
          In u (nodes g) /\ In v (nodes g))
    /\ Forall (fun node => snd node = Some "entity") (node_table g).
Proof.
  destruct (build_graph_from_chunks_assembled order text_chunks)
    as (g & E & C & _ & T).
  exists g. split; [exact E | split; [ | exact T]].
  intros u v rel H. apply C. apply in_map_iff. now exists ((u, v), rel).
Qed.

(** C4: for every chunk list, graph assembly returns a graph with at most
    one edge for each ordered pair of nodes, and the edge of a pair carries
    the relation of the last triple that resolved to the pair (a pair no
    triple resolved to has no edge); a triple that resolves to a pair that
    has an edge already leaves the pairs as they are and makes its relation
    the label of that edge, the other edges keeping theirs. *)
Theorem assembled_graph_has_simple_edges
  (order : set_iteration) (text_chunks : list string) :
  (exists g, build_graph_from_chunks order text_chunks = Ok g
     /\ NoDup (map fst (edge_table g))
     /\ forall u v,
          edge_data g u v
          = match last_write u v (writes order text_chunks) with
            | Some label => Ok (Some label)
            | None => Raise KeyError
            end)
  /\ forall entities g subject predicate obj u v,
       _find_best_entity_match subject entities = Some u ->
       _find_best_entity_match obj entities = Some v ->
       u <> "" -> v <> "" ->
       has_edge g u v = true ->
       exists g', add_relation entities g (subject, predicate, obj) = Ok g'
         /\ map fst (edge_table g') = map fst (edge_table g)
         /\ edge_data g' u v = Ok (Some predicate)
         /\ forall a b, (a, b) <> (u, v) -> edge_data g' a b = edge_data g a b.
Proof.
  split.
  - destruct (add_chunks_writes order text_chunks assembled_empty)
      as (g & E & (_ & S & _) & W).
    exists g. split; [exact E | split; [exact S | exact W]].
  - intros entities g subject predicate obj u v Hu Hv Nu Nv E.
    unfold add_relation. rewrite Hu, Hv. unfold truthy.
    apply String.eqb_neq in Nu, Nv. rewrite Nu, Nv. cbn [negb andb].
    exists (add_edge g u v (Some predicate)).
    split; [reflexivity | split; [ | split]].
    + now rewrite keys_add_edge, E.
    + apply edge_data_written.
    + intros a b N. now apply edge_data_elsewhere.
Qed.

(** Two triples of one chunk on the same pair leave one edge, with the
    later label; and a triple on the pair of an edge relabels it. *)
Lemma assembled_graph_has_simple_edges_witness :
  ((exists g, build_graph_from_chunks insertion_order [founder_text] = Ok g
      /\ NoDup (map fst (edge_table g))
      /\ forall u v,
           edge_data g u v
           = match last_write u v (writes insertion_order [founder_text]) with
             | Some label => Ok (Some label)
             | None => Raise KeyError
             end)
   /\ writes insertion_order [founder_text]
      = [(("Alice", "Acme"), "founded"); (("Alice", "Acme"), "created")]
   /\ build_graph_from_chunks insertion_order [founder_text]
      = Ok (Graph [("Alice", Some "entity"); ("Acme", Some "entity")]
                  [(("Alice", "Acme"), Some "created")]))
  /\ exists g', add_relation ["Alice"; "Acme"] founded_graph
                  ("Alice", "created", "Acme") = Ok g'
       /\ map fst (edge_table g') = map fst (edge_table founded_graph)
       /\ edge_data g' "Alice" "Acme" = Ok (Some "created")
       /\ forall a b, (a, b) <> ("Alice", "Acme") ->
                      edge_data g' a b = edge_data founded_graph a b.
Proof.
  split; [split; [ | split] | ].
  - exact (proj1 (assembled_graph_has_simple_edges insertion_order [founder_text])).
  - vm_compute. reflexivity.
  - vm_compute. reflexivity.
  - apply (proj2 (assembled_graph_has_simple_edges insertion_order [founder_text])
             ["Alice"; "Acme"] founded_graph "Alice" "created" "Acme" "Alice" "Acme");
      [reflexivity | reflexivity | discriminate | discriminate | reflexivity].
Defined.

End BuilderProperties.

(* ================================================================== *)
(** * Properties of question answering *)
(* ================================================================== *)

Module RouterProperties.

Import Nx GraphFacts Resolution Paths Classification Answers Router Notions Samples.

(** C8: for every graph and every mention that is, in lower case, the label
    of some node in lower case, entity resolution returns exactly one
    label, that of a node equal to the mention in lower case; nothing
    collected before the exact match is in the result. *)
Theorem exact_match_is_the_only_candidate
  (ratio : string -> string -> Q) (g : DiGraph) (mention : string) (threshold : Q) :
  (exists node, In node (nodes g) /\ Str.lower node = Str.lower mention) ->
  exists node, find_similar_entities ratio g mention threshold = [node]
               /\ In node (nodes g) /\ Str.lower node = Str.lower mention.
Proof.
  intros H. unfold find_similar_entities.
  destruct (similar_loop_exact ratio threshold (nodes g) [] H) as (node & Hin & E & R).
  now exists node.
Qed.

(** "Larry Page" contains the mention and comes first, "Larry" equals it. *)
Lemma exact_match_is_the_only_candidate_witness :
  (exists node, find_similar_entities Difflib.ratio larry_graph "LARRY" default_threshold
                = [node]
                /\ In node (nodes larry_graph) /\ Str.lower node = Str.lower "LARRY")
  /\ find_similar_entities Difflib.ratio larry_graph "LARRY" default_threshold = ["Larry"]
  /\ find_similar_entities Difflib.ratio larry_graph "Larr" default_threshold
     = ["Larry Page"; "Larry"; "Larry"].
Proof.
  split; [ | split; vm_compute; reflexivity].
  apply (@exact_match_is_the_only_candidate Difflib.ratio larry_graph "LARRY"
           default_threshold).
  exists "Larry". split; [right; left; reflexivity | reflexivity].
Defined.

(** C9: for every question that one of the relationship templates matches
    (in lower case, as the classifier searches it), classification returns
    the intent relationship with two mentions, hence neither what_is nor
    who_is: the mentions are the first and the second group, stripped, of
    the match of the first relationship template that matches. *)
Theorem relationship_template_has_priority (question : string) :
  (exists pattern, In pattern relationship_patterns
                   /\ search pattern (Str.lower question) <> None) ->
  exists before pattern after m first second,
    relationship_patterns = before ++ pattern :: after
    /\ (forall earlier, In earlier before ->
                        search earlier (Str.lower question) = None)
    /\ search pattern (Str.lower question) = Some m
    /\ group 1 m = Some first
    /\ group 2 m = Some second
    /\ classify_question question
       = Ok ("relationship", [Str.strip first; Str.strip second])
    /\ forall q_type entities,
         classify_question question = Ok (q_type, entities) ->
         q_type <> "what_is" /\ q_type <> "who_is".
Proof.
  intros H.
  destruct (@try_patterns_first "relationship" (Str.lower question)
              relationship_patterns H) as (b & p & a & m & E & Hb & S & T).
  assert (F : Forall (fits "relationship") relationship_patterns).
  { pose proof question_patterns_fit as Q. unfold question_patterns in Q.
    inversion Q; subst. assumption. }
  assert (Fp : fits "relationship" p).
  { rewrite Forall_forall in F. apply F. rewrite E. apply in_app_iff.
    right. now left. }
  destruct (@mentions_relationship p m Fp (@ReFacts.search_complete _ _ _ S))
    as (first & second & G1 & G2 & M).
  assert (C : classify_question question
              = Ok ("relationship", [Str.strip first; Str.strip second])).
  { unfold classify_question, question_patterns. cbn [try_types].
    rewrite T, M. reflexivity. }
  exists b, p, a, m, first, second.
  split; [exact E | split; [exact Hb | split; [exact S | ]]].
  split; [exact G1 | split; [exact G2 | split; [exact C | ]]].
  intros q_type entities C'. rewrite C in C'. inversion C'; subst.
  split; discriminate.
Qed.

(** The question also matches the first what-is template. *)
Lemma relationship_template_has_priority_witness :
  (exists first second,
     classify_question relationship_question
     = Ok ("relationship", [Str.strip first; Str.strip second]))
  /\ classify_question relationship_question
     = Ok ("relationship", ["google"; "larry page"])
  /\ option_map m_whole
       (search (nth 0 what_is_patterns Eps) (Str.lower relationship_question))
     = Some "what is the relationship between google and larry page?".
Proof.
  split; [ | split; vm_compute; reflexivity].
  destruct (@relationship_template_has_priority relationship_question)
    as (b & p & a & m & first & second & _ & _ & _ & _ & _ & C & _).
  - exists (nth 0 relationship_patterns Eps).
    split; [left; reflexivity | vm_compute; discriminate].
  - exists first, second. exact C.
Defined.

Lemma join_starts c text rest :
  exists tail, Str.join "" (String c text :: rest) = String c tail.
Proof. destruct rest; simpl; eauto. Qed.

(** C10: for every graph and mention, the first candidate of a non-empty
    resolution is a node of the graph and [get_entity_information] has
    something to say of it; so the answer to a what-is or who-is question
    is never the sentence of the fallback branch. *)
Theorem first_candidate_has_information
  (ratio : string -> string -> Q) (g : DiGraph) (mention : string) :
  (forall target rest,
     find_similar_entities ratio g mention default_threshold = target :: rest ->
     In target (nodes g)
     /\ exists info, get_entity_information g target = Ok (Some info))
  /\ forall target,
       answer_what_is_question ratio g mention <> Ok (found_without_details target).
Proof.
  assert (First : forall target rest,
    find_similar_entities ratio g mention default_threshold = target :: rest ->
    In target (nodes g)
    /\ exists info, get_entity_information g target = Ok (Some info)).
  { intros target rest F.
    assert (N : In target (nodes g)).
    { eapply find_similar_entities_nodes. rewrite F. now left. }
    split; [exact N | ].
    destruct (get_entity_information_node g target N) as (info & E & _).
    now exists info. }
  split; [exact First | ].
  intros target. unfold answer_what_is_question.
  destruct (find_similar_entities ratio g mention default_threshold)
    as [ | t rest ] eqn:F.
  - unfold no_information, found_without_details. simpl. discriminate.
  - destruct (First t rest eq_refl) as (_ & info & E).
    cbn [index nth_error bind]. rewrite E. cbn [bind].
    match goal with
    | |- Ok (Str.join "" ?parts) <> _ =>
        assert (P : exists rest', parts = String "B" ("ased on the knowledge graph, here's what I know about " ++ t ++ ":")%string :: rest')
    end.
    { destruct (outgoing_relations info); destruct (incoming_relations info);
        simpl; eauto. }
    destruct P as (rest' & ->).
    destruct (join_starts "B"
                ("ased on the knowledge graph, here's what I know about " ++ t ++ ":")
                rest') as (tail & ->).
    unfold found_without_details. simpl. discriminate.
Qed.


(** In the graph of the tests, the mention "larry" resolves to Larry Page. *)
Lemma first_candidate_has_information_witness :
  find_similar_entities Difflib.ratio sample_graph "larry" default_threshold
  = ["Larry Page"; "Larry Page"]
  /\ In "Larry Page" (nodes sample_graph)
  /\ exists info, get_entity_information sample_graph "Larry Page" = Ok (Some info).
Proof.
  split; [vm_compute; reflexivity | ].
  apply (proj1 (@first_candidate_has_information Difflib.ratio sample_graph "larry")
           "Larry Page" ["Larry Page"]).
  vm_compute. reflexivity.
Defined.

(** C6: whatever the question, [answer_question] on a graph without nodes
    returns the sentence that the graph is empty, which needs neither the
    classification of the question nor the libraries; and with a path
    finder that returns paths along edges or raises [NetworkXNoPath],
    [answer_question] returns a string for every graph and question. *)
Theorem answer_question_always_answers
  (ratio : string -> string -> Q)
  (shortest_path : DiGraph -> string -> string -> result (list string)) :
  finds_paths shortest_path ->
  (forall g question,
     number_of_nodes g = 0 ->
     answer_question ratio shortest_path g question = Ok empty_answer)
  /\ Str.contains "empty" empty_answer = true
  /\ forall g question,
       exists answer, answer_question ratio shortest_path g question = Ok answer.
Proof.
  intros paths. split; [ | split].
  - intros g question E. unfold answer_question. now rewrite E.
  - vm_compute. reflexivity.
  - intros g question. now apply answer_question_returns.
Qed.

Lemma answer_question_always_answers_witness :
  answer_question Difflib.ratio Bfs.shortest_path empty "What is Google?"
  = Ok empty_answer
  /\ Str.contains "empty" empty_answer = true
  /\ exists answer,
       answer_question Difflib.ratio Bfs.shortest_path sample_graph
         "How is Sergey Brin related to Larry Page?" = Ok answer.
Proof.
  destruct (@answer_question_always_answers Difflib.ratio Bfs.shortest_path
              search_finds_paths)
    as (Empty & Word & Total).
  split; [apply Empty; reflexivity | split; [exact Word | apply Total]].
Defined.

End RouterProperties.

(* ================================================================== *)
(** * The general answer and the answer for an unknown entity *)
(* ================================================================== *)

Module GeneralAnswer.

Import Nx GraphFacts Resolution Router Notions Samples.

Section WithRatio.

Variable ratio : string -> string -> Q.
Variable g : DiGraph.

Lemma general_step_line relevant_info entity :
  general_step ratio g relevant_info entity
  = Ok (relevant_info
        ++ map (line g)
             (firstn 1 (find_similar_entities ratio g entity default_threshold))).
Proof.
  unfold general_step.
  destruct (find_similar_entities ratio g entity default_threshold)
    as [ | target rest ] eqn:F; [now rewrite app_nil_r | ].
  assert (N : In target (nodes g)).
  { eapply find_similar_entities_nodes. rewrite F. now left. }
  cbn [index nth_error bind].
  destruct (get_entity_information_node g target N) as (info & -> & _ & Nb).
  cbn [bind firstn map]. unfold general_line, line, listed. now rewrite Nb.
Qed.

Lemma general_loop : forall entities relevant_info,
  for_each entities (general_step ratio g) relevant_info
  = Ok (relevant_info ++ map (line g) (resolved ratio g entities)).
Proof.
  induction entities as [ | entity entities IH ]; intros acc; cbn [for_each].
  - simpl. now rewrite app_nil_r.
  - rewrite general_step_line. cbn [bind]. rewrite IH.
    unfold resolved. cbn [flat_map]. now rewrite map_app, app_assoc.
Qed.

Lemma answer_general_question_render entities :
  entities <> [] ->
  answer_general_question ratio g entities = Ok (render g (resolved ratio g entities)).
Proof.
  intros N. unfold answer_general_question.
  destruct entities as [ | e entities ]; [congruence | ].
  rewrite general_loop. cbn [bind app]. unfold render.
  now destruct (resolved ratio g (e :: entities)).
Qed.

Lemma resolved_nodes entities target :
  In target (resolved ratio g entities) -> In target (nodes g).
Proof.
  unfold resolved. rewrite in_flat_map. intros (entity & _ & H).
  eapply find_similar_entities_nodes.
  eapply In_firstn; eauto.
Qed.

End WithRatio.

(** C3, as stated, fails: in the graph with the one edge from Larry Page
    to Google, the general answer for Google lists no label, although
    Larry Page is an in-neighbour of Google: only the edges that leave the
    entity contribute. *)
Lemma general_answer_omits_in_neighbours :
  classify_question "describe Google" = Ok ("general", ["Google"])
  /\ in_neighbours page_graph "Google" = ["Larry Page"]
  /\ out_neighbours page_graph "Google" = []
  /\ answer_question Difflib.ratio Bfs.shortest_path page_graph "describe Google"
     = Ok ("Here's what I found:" ++ Str.nl ++ "**Google**: Connected to ")%string.
Proof. repeat split; vm_compute; reflexivity. Qed.

(** C3, amended: for every graph with a node and every question of intent
    general with a non-empty mention list, the answer has one line for each
    resolved entity, which is a node; the line lists at most five labels,
    each of them a successor of the entity (the target of an edge that
    leaves it), hence a member of the union of its out- and
    in-neighbours. *)
Theorem general_answer_lists_successors
  (ratio : string -> string -> Q)
  (shortest_path : DiGraph -> string -> string -> result (list string))
  (g : DiGraph) (question : string) (entities : list string) :
  number_of_nodes g <> 0 ->
  classify_question question = Ok ("general", entities) ->
  entities <> [] ->
  answer_question ratio shortest_path g question
  = Ok (render g (resolved ratio g entities))
  /\ forall target,
       In target (resolved ratio g entities) ->
       In target (nodes g)
       /\ List.length (listed g target) <= 5
       /\ forall label,
            In label (listed g target) ->
            In label (out_neighbours g target)
            /\ In label (out_neighbours g target ++ in_neighbours g target).
Proof.
  intros Nodes OneOf Mentions. split.
  - unfold answer_question. apply Nat.eqb_neq in Nodes. rewrite Nodes, OneOf.
    cbn [bind]. cbn [String.eqb Ascii.eqb Bool.eqb andb].
    now apply answer_general_question_render.
  - intros target H. split; [eapply resolved_nodes; eauto | split].
    + unfold listed. apply firstn_le_length.
    + intros label L. unfold listed in L. apply In_firstn in L.
      split; [exact L | apply in_app_iff; now left].
Qed.

Lemma general_answer_lists_successors_witness :
  answer_question Difflib.ratio Bfs.shortest_path sample_graph
    "Tell me about Larry Page and Google."
  = Ok ("Here's what I found:" ++ Str.nl ++ "**Larry Page**: Connected to Google"
        ++ Str.nl ++ "**Google**: Connected to ")%string
  /\ forall target,
       In target (resolved Difflib.ratio sample_graph
                    ["Tell"; "Larry Page"; "Google"]) ->
       In target (nodes sample_graph)
       /\ List.length (listed sample_graph target) <= 5
       /\ forall label,
            In label (listed sample_graph target) ->
            In label (out_neighbours sample_graph target)
            /\ In label (out_neighbours sample_graph target
                         ++ in_neighbours sample_graph target).
Proof.
  apply (@general_answer_lists_successors Difflib.ratio Bfs.shortest_path
           sample_graph "Tell me about Larry Page and Google."
           ["Tell"; "Larry Page"; "Google"]).
  - vm_compute. discriminate.
  - vm_compute. reflexivity.
  - discriminate.
Defined.

End GeneralAnswer.

Module UnknownEntity.

Import Nx GraphFacts Resolution Router Notions Samples.

Lemma similar_loop_none ratio entity_lower : forall labels similar_entities,
  (forall node, In node labels -> is_candidate ratio entity_lower node = false) ->
  similar_loop ratio entity_lower default_threshold labels similar_entities
  = similar_entities.
Proof.
  induction labels as [ | node rest IH ]; intros acc H; [reflexivity | ].
  pose proof (H node (or_introl eq_refl)) as C. unfold is_candidate in C.
  apply orb_false_iff in C. destruct C as [C C4].
  apply orb_false_iff in C. destruct C as [C C3].
  apply orb_false_iff in C. destruct C as [C1 C2].
  simpl. rewrite C1, C2, C3, C4. simpl.
  apply IH. intros n Hn. apply H. now right.
Qed.

(** C5, as stated, fails: in the graph whose one node is Entity, the
    mention "unknown entity" contains the label in lower case, so it
    resolves to that node and the answer describes it. *)
Lemma unknown_entity_resolves_to_a_contained_label :
  number_of_nodes entity_graph = 1
  /\ answer_question Difflib.ratio Bfs.shortest_path entity_graph unknown_question
     = Ok ("Based on the knowledge graph, here's what I know about Entity:"
           ++ Str.nl ++ "No specific relationships found in the knowledge graph.")%string
  /\ Str.contains "don't have information"
       ("Based on the knowledge graph, here's what I know about Entity:"
        ++ Str.nl ++ "No specific relationships found in the knowledge graph.")
     = false.
Proof. repeat split; vm_compute; reflexivity. Qed.

(** C5, amended: for every graph with at least one node, none of whose
    nodes is a candidate for the mention "unknown entity" (in lower case
    the label is not the mention, neither contains the other, and their
    similarity ratio is below 0.6), the answer to "What is Unknown Entity?"
    is the sentence that there is no information about 'unknown entity',
    which contains "don't have information". *)
Theorem unknown_entity_has_no_information
  (ratio : string -> string -> Q)
  (shortest_path : DiGraph -> string -> string -> result (list string))
  (g : DiGraph) :
  number_of_nodes g <> 0 ->
  (forall node, In node (nodes g) -> is_candidate ratio "unknown entity" node = false) ->
  answer_question ratio shortest_path g unknown_question
  = Ok (no_information "unknown entity")
  /\ Str.contains "don't have information" (no_information "unknown entity") = true.
Proof.
  intros Nodes None. split; [ | vm_compute; reflexivity].
  unfold answer_question. apply Nat.eqb_neq in Nodes. rewrite Nodes.
  replace (classify_question unknown_question)
    with (Ok ("what_is", ["unknown entity"]) : result (string * list string))
    by (vm_compute; reflexivity).
  cbn [bind String.eqb Ascii.eqb Bool.eqb andb List.length Nat.eqb negb index nth_error].
  unfold answer_what_is_question, find_similar_entities.
  change (Str.lower "unknown entity") with "unknown entity".
  now rewrite similar_loop_none.
Qed.

Lemma unknown_entity_has_no_information_witness :
  answer_question Difflib.ratio Bfs.shortest_path sample_graph
    unknown_question
  = Ok (no_information "unknown entity")
  /\ Str.contains "don't have information" (no_information "unknown entity") = true.
Proof.
  apply (@unknown_entity_has_no_information Difflib.ratio Bfs.shortest_path
           sample_graph).
  - vm_compute. discriminate.
  - intros node H. vm_compute in H.
    destruct H as [<- | [<- | [<- | [<- | []]]]]; vm_compute; reflexivity.
Defined.

End UnknownEntity.

Module JohnExample.

Import Nx GraphFacts Builder Relations Notions Samples.

(** C2, as stated, fails: the pattern for lives_in captures the subject
    "He", which is within no entity of the chunk (He is too short to be
    one), so the triple is dropped and the graph has the works_at edge
    alone. *)
Lemma john_has_no_lives_in_edge :
  pattern_matches john_text
  = [("John", "works_at", "Microsoft"); ("He", "lives_in", "Seattle")]
  /\ build_graph insertion_order one_chunk [john_text]
     = Ok (Graph [("John", Some "entity"); ("Microsoft", Some "entity");
                  ("Seattle", Some "entity")]
                 [(("John", "Microsoft"), Some "works_at")])
  /\ has_edge (Graph [("John", Some "entity"); ("Microsoft", Some "entity");
                      ("Seattle", Some "entity")]
                     [(("John", "Microsoft"), Some "works_at")])
              "John" "Seattle" = false.
Proof. repeat split; vm_compute; reflexivity. Qed.

Lemma three_entities (l : list string) :
  Permutation l ["John"; "Microsoft"; "Seattle"] ->
  l = ["John"; "Microsoft"; "Seattle"] \/ l = ["John"; "Seattle"; "Microsoft"]
  \/ l = ["Microsoft"; "John"; "Seattle"] \/ l = ["Microsoft"; "Seattle"; "John"]
  \/ l = ["Seattle"; "John"; "Microsoft"] \/ l = ["Seattle"; "Microsoft"; "John"].
Proof.
  intros P.
  assert (D : NoDup l).
  { apply (Permutation_NoDup (Permutation_sym P)).
    repeat constructor; simpl; intuition discriminate. }
  pose proof (Permutation_length P) as L.
  destruct l as [ | x [ | y [ | z [ | ] ] ] ]; try discriminate.
  assert (Hx : In x ["John"; "Microsoft"; "Seattle"])
    by (apply (Permutation_in _ P); simpl; auto).
  assert (Hy : In y ["John"; "Microsoft"; "Seattle"])
    by (apply (Permutation_in _ P); simpl; auto).
  assert (Hz : In z ["John"; "Microsoft"; "Seattle"])
    by (apply (Permutation_in _ P); simpl; auto).
  inversion D as [ | ? ? Nx D1 ]; subst.
  inversion D1 as [ | ? ? Ny D2 ]; subst.
  simpl in Hx, Hy, Hz, Nx, Ny.
  destruct Hx as [<- | [<- | [<- | []]]];
    destruct Hy as [<- | [<- | [<- | []]]];
    destruct Hz as [<- | [<- | [<- | []]]];
    tauto.
Qed.

(** C2, amended: whatever the iteration order of sets, with a splitter that
    keeps the text in one chunk, [build_graph] on the one text returns a
    graph whose nodes include John, Microsoft and Seattle and whose only
    edge goes from John to Microsoft with the label works_at. *)
Theorem john_works_at_microsoft
  (order : set_iteration) (split_text : string -> list string) :
  split_text john_text = [john_text] ->
  exists g, build_graph order split_text [john_text] = Ok g
    /\ (In "John" (nodes g) /\ In "Microsoft" (nodes g) /\ In "Seattle" (nodes g))
    /\ edge_table g = [(("John", "Microsoft"), Some "works_at")].
Proof.
  intros Split. unfold build_graph.
  change (Str.join (Str.nl ++ Str.nl) [john_text]) with john_text.
  rewrite Split. unfold build_graph_from_chunks. cbn [for_each]. unfold add_chunk.
  assert (E : extract_entities order john_text
              = order ["John"; "Microsoft"; "Seattle"]).
  { unfold extract_entities. f_equal. }
  rewrite E.
  pose proof (iter_order_perm order ["John"; "Microsoft"; "Seattle"]) as P.
  apply three_entities in P.
  destruct P as [-> | [-> | [-> | [-> | [-> | ->]]]]];
    match goal with
    | |- exists g, ?e = Ok g /\ _ =>
        let v := eval vm_compute in e in
        replace e with v by (vm_compute; reflexivity)
    end;
    (eexists; split; [reflexivity | split; [simpl; tauto | reflexivity]]).
Qed.

Lemma john_works_at_microsoft_witness :
  exists g, build_graph insertion_order one_chunk [john_text] = Ok g
    /\ (In "John" (nodes g) /\ In "Microsoft" (nodes g) /\ In "Seattle" (nodes g))
    /\ edge_table g = [(("John", "Microsoft"), Some "works_at")].
Proof.
  apply (@john_works_at_microsoft insertion_order one_chunk). reflexivity.
Defined.

End JohnExample.

(* ================================================================== *)
(** * More on graph assembly *)
(* ================================================================== *)

Module AssemblyExtras.

Import Nx GraphFacts EdgeFacts Builder Relations Assembly Notions Samples.

Lemma add_entities_add_all : forall entities g,
  for_each entities add_entity g = Ok (add_all g entities).
Proof.
  induction entities as [ | e entities IH ]; intros g; cbn [for_each].
  - reflexivity.
  - unfold add_entity at 1. cbn [bind]. now rewrite IH.
Qed.

Lemma add_chunk_assemble order g chunk :
  add_chunk order g chunk = Ok (assemble_chunk order g chunk).
Proof.
  unfold add_chunk, assemble_chunk, chunk_writes.
  rewrite add_entities_add_all. cbn [bind].
  rewrite extract_relations_filter. cbn [bind].
  apply add_relations_write.
Qed.

Lemma add_chunks_assemble order : forall text_chunks g,
  for_each text_chunks (add_chunk order) g = Ok (assemble order g text_chunks).
Proof.
  induction text_chunks as [ | chunk text_chunks IH ]; intros g; cbn [for_each].
  - reflexivity.
  - rewrite add_chunk_assemble. cbn [bind]. now rewrite IH.
Qed.

(** Graph assembly never raises: it returns [assemble]. *)
Lemma build_graph_from_chunks_assemble order text_chunks :
  build_graph_from_chunks order text_chunks = Ok (assemble order empty text_chunks).
Proof. apply add_chunks_assemble. Qed.

(** ** Nodes *)

Lemma nodes_add_all x : forall entities g,
  In x (nodes (add_all g entities)) <-> In x (nodes g) \/ In x entities.
Proof.
  induction entities as [ | e entities IH ]; intros g; simpl.
  - tauto.
  - rewrite IH. destruct (has_node g e) eqn:E; simpl.
    + apply has_node_In in E. split; [tauto | ].
      intros [H | [<- | H]]; auto.
    + rewrite nodes_add_node. split; intros H; intuition (subst; auto).
Qed.

Lemma NoDup_nodes_add_all : forall entities g,
  NoDup (nodes g) -> NoDup (nodes (add_all g entities)).
Proof.
  induction entities as [ | e entities IH ]; intros g D; simpl; [exact D | ].
  apply IH. destruct (has_node g e) eqn:E; simpl; [exact D | ].
  unfold add_node. rewrite E. unfold nodes. simpl. rewrite map_app. simpl.
  apply NoDup_app; [exact D | repeat constructor; intros [] | ].
  intros x Hx [<- | []]. apply has_node_In in Hx. congruence.
Qed.

Lemma edge_table_add_all : forall entities g,
  edge_table (add_all g entities) = edge_table g.
Proof.
  induction entities as [ | e entities IH ]; intros g; simpl; [reflexivity | ].
  rewrite IH. destruct (negb (has_node g e)); [apply edge_table_add_node | reflexivity].
Qed.

(** The ends of a write are entities of its chunk, and its label is a
    relation type of the table. *)
Lemma resolve_sound entities t w :
  In w (resolve entities t) ->
  In (fst (fst w)) entities /\ In (snd (fst w)) entities /\ snd w = snd (fst t).
Proof.
  destruct t as [[subject predicate] obj]. unfold resolve.
  destruct (_find_best_entity_match subject entities) as [u | ] eqn:Eu; [ | intros []].
  destruct (_find_best_entity_match obj entities) as [v | ] eqn:Ev; [ | intros []].
  destruct (truthy (Some u) && truthy (Some v)); [ | intros []].
  intros [<- | []]. simpl.
  apply find_best_entity_match_In in Eu, Ev. auto.
Qed.

Lemma pattern_matches_vocabulary text t :
  In t (pattern_matches text) -> In (snd (fst t)) vocabulary.
Proof.
  unfold pattern_matches. rewrite in_flat_map.
  intros ([pattern relation_type] & Hp & Ht).
  apply in_map_iff in Ht. destruct Ht as (m & <- & _). simpl.
  assert (V : In relation_type (map snd relation_patterns)).
  { apply in_map_iff. now exists (pattern, relation_type). }
  exact V.
Qed.

Lemma chunk_writes_sound order chunk w :
  In w (chunk_writes order chunk) ->
  In (fst (fst w)) (extract_entities order chunk)
  /\ In (snd (fst w)) (extract_entities order chunk)
  /\ In (snd w) vocabulary.
Proof.
  unfold chunk_writes. rewrite in_flat_map. intros (t & Ht & Hw).
  apply resolve_sound in Hw. destruct Hw as (Hu & Hv & ->).
  apply filter_In in Ht. destruct Ht as [Ht _].
  split; [exact Hu | split; [exact Hv | ]].
  now apply (@pattern_matches_vocabulary chunk t).
Qed.

Lemma node_table_write_all : forall ws g,
  (forall w, In w ws -> In (fst (fst w)) (nodes g) /\ In (snd (fst w)) (nodes g)) ->
  node_table (write_all g ws) = node_table g.
Proof.
  induction ws as [ | w ws IH ]; intros g H; [reflexivity | ].
  change (write_all g (w :: ws))
    with (write_all (add_edge g (fst (fst w)) (snd (fst w)) (Some (snd w))) ws).
  destruct (H w (or_introl eq_refl)) as [Hu Hv].
  apply has_node_In in Hu, Hv.
  pose proof (@add_edge_between_nodes g _ _ (Some (snd w)) Hu Hv) as N.
  rewrite IH; [exact N | ].
  intros w' Hw'. unfold nodes. rewrite N. apply H. now right.
Qed.

Lemma node_table_assemble_chunk order g chunk :
  node_table (assemble_chunk order g chunk)
  = node_table (add_all g (extract_entities order chunk)).
Proof.
  unfold assemble_chunk. apply node_table_write_all.
  intros w Hw. apply chunk_writes_sound in Hw. destruct Hw as (Hu & Hv & _).
  split; apply nodes_add_all; now right.
Qed.

Lemma nodes_assemble order x : forall text_chunks g,
  In x (nodes (assemble order g text_chunks))
  <-> In x (nodes g)
      \/ exists chunk, In chunk text_chunks /\ In x (extract_entities order chunk).
Proof.
  induction text_chunks as [ | chunk text_chunks IH ]; intros g; simpl.
  - split; [now left | intros [H | (c & [] & _)]; exact H].
  - rewrite IH. unfold nodes at 1. rewrite node_table_assemble_chunk.
    fold (nodes (add_all g (extract_entities order chunk))). rewrite nodes_add_all.
    split.
    + intros [[H | H] | (c & Hc & H)]; [now left | right | right].
      * exists chunk. split; [now left | exact H].
      * exists c. split; [now right | exact H].
    + intros [H | (c & [<- | Hc] & H)]; [now left; left | now left; right | right].
      now exists c.
Qed.

Lemma NoDup_nodes_assemble order : forall text_chunks g,
  NoDup (nodes g) -> NoDup (nodes (assemble order g text_chunks)).
Proof.
  induction text_chunks as [ | chunk text_chunks IH ]; intros g D; simpl; [exact D | ].
  apply IH. unfold nodes. rewrite node_table_assemble_chunk.
  now apply NoDup_nodes_add_all.
Qed.

(** What entity extraction keeps, whatever the iteration order. *)
Lemma extract_entities_iff order text e :
  In e (extract_entities order text)
  <-> (In e (findall0 capitalized_pattern text) \/ In e (findall1 quoted_pattern text))
      /\ ~ In e stop_words /\ 2 < String.length e.
Proof.
  unfold extract_entities.
  split.
  - intros H. apply (Permutation_in _ (iter_order_perm order _)) in H.
    apply filter_In in H. destruct H as [H C].
    apply nodup_In, in_app_iff in H. apply andb_true_iff in C. destruct C as [C1 C2].
    split; [exact H | split].
    + intros S. apply mem_In in S. now rewrite S in C1.
    + now apply Nat.ltb_lt.
  - intros (H & S & L).
    apply (Permutation_in _ (Permutation_sym (iter_order_perm order _))).
    apply filter_In. split.
    + apply nodup_In, in_app_iff. exact H.
    + apply andb_true_iff. split; [ | now apply Nat.ltb_lt].
      destruct (Str.mem e stop_words) eqn:M; [ | reflexivity].
      apply mem_In in M. contradiction.
Qed.

(** X1: for every chunk list and iteration order, graph assembly returns a
    graph whose node labels are pairwise distinct and are exactly the
    strings that, in some chunk, are a capitalized run or a quoted phrase,
    are no stop word and have more than two characters. *)
Theorem assembled_nodes_are_the_entities
  (order : set_iteration) (text_chunks : list string) :
  exists g, build_graph_from_chunks order text_chunks = Ok g
    /\ NoDup (nodes g)
    /\ forall label,
         In label (nodes g)
         <-> exists chunk,
               In chunk text_chunks
               /\ (In label (findall0 capitalized_pattern chunk)
                   \/ In label (findall1 quoted_pattern chunk))
               /\ ~ In label stop_words
               /\ 2 < String.length label.
Proof.
  exists (assemble order empty text_chunks).
  split; [apply build_graph_from_chunks_assemble | split].
  - apply NoDup_nodes_assemble. constructor.
  - intros label. rewrite nodes_assemble. split.
    + intros [[] | (chunk & Hc & H)]. exists chunk.
      split; [exact Hc | now apply (proj1 (@extract_entities_iff order chunk label))].
    + intros (chunk & Hc & H). right. exists chunk.
      split; [exact Hc | now apply (proj2 (@extract_entities_iff order chunk label))].
Qed.

(** ** Edges *)

Lemma update_attr_entries u v label : forall table e,
  In e (update_attr (at_pair u v) (Some label) table) ->
  In e table \/ e = ((u, v), Some label).
Proof.
  induction table as [ | [k old] rest IH ]; intros e H; simpl in H; [destruct H | ].
  destruct (at_pair u v k) eqn:E.
  - apply at_pair_true in E. subst k.
    destruct H as [<- | H]; [now right | left; now right].
  - destruct H as [<- | H]; [left; now left | ].
    destruct (IH e H) as [H' | H']; [left; now right | now right].
Qed.

Lemma add_edge_entries g u v label e :
  In e (edge_table (add_edge g u v (Some label))) ->
  In e (edge_table g) \/ e = ((u, v), Some label).
Proof.
  unfold add_edge.
  set (g' := ensure_node (ensure_node g u) v).
  assert (T : edge_table g' = edge_table g)
    by (unfold g'; now rewrite !edge_table_ensure_node).
  destruct (has_edge g' u v); simpl; rewrite T; intros H.
  - now apply update_attr_entries.
  - apply in_app_iff in H. destruct H as [H | [<- | []]]; auto.
Qed.

Lemma write_all_entries e : forall ws g,
  In e (edge_table (write_all g ws)) ->
  In e (edge_table g) \/ exists w, In w ws /\ e = (fst w, Some (snd w)).
Proof.
  induction ws as [ | [[u v] label] ws IH ]; intros g H; [now left | ].
  change (write_all g (((u, v), label) :: ws))
    with (write_all (add_edge g u v (Some label)) ws) in H.
  apply IH in H. destruct H as [H | (w & Hw & ->)].
  - apply add_edge_entries in H. destruct H as [H | ->]; [now left | right].
    exists ((u, v), label). split; [now left | reflexivity].
  - right. exists w. split; [now right | reflexivity].
Qed.

Lemma assemble_entries order e : forall text_chunks g,
  In e (edge_table (assemble order g text_chunks)) ->
  In e (edge_table g)
  \/ exists chunk w, In chunk text_chunks /\ In w (chunk_writes order chunk)
                     /\ e = (fst w, Some (snd w)).
Proof.
  induction text_chunks as [ | chunk text_chunks IH ]; intros g H; [now left | ].
  simpl in H. apply IH in H. destruct H as [H | (c & w & Hc & Hw & ->)].
  - unfold assemble_chunk in H. apply write_all_entries in H.
    rewrite edge_table_add_all in H. destruct H as [H | (w & Hw & ->)]; [now left | ].
    right. exists chunk, w. split; [now left | split; [exact Hw | reflexivity]].
  - right. exists c, w. split; [now right | split; [exact Hw | reflexivity]].
Qed.

(** A write comes from an accepted pattern match of the chunk whose subject
    and object resolve to the ends of the write. *)
Lemma chunk_writes_origin order chunk u v relation :
  In ((u, v), relation) (chunk_writes order chunk) ->
  exists subject obj,
    In (subject, relation, obj) (pattern_matches chunk)
    /\ accepted (extract_entities order chunk) (subject, relation, obj) = true
    /\ _find_best_entity_match subject (extract_entities order chunk) = Some u
    /\ _find_best_entity_match obj (extract_entities order chunk) = Some v.
Proof.
  unfold chunk_writes. rewrite in_flat_map.
  intros ([[subject predicate] obj] & Ht & Hw).
  apply filter_In in Ht. destruct Ht as [Ht A].
  unfold resolve in Hw.
  destruct (_find_best_entity_match subject (extract_entities order chunk))
    as [u' | ] eqn:Eu; [ | destruct Hw].
  destruct (_find_best_entity_match obj (extract_entities order chunk))
    as [v' | ] eqn:Ev; [ | destruct Hw].
  destruct (truthy (Some u') && truthy (Some v')); [ | destruct Hw].
  destruct Hw as [E | []]. inversion E; subst.
  now exists subject, obj.
Qed.

(** X2: for every chunk list and iteration order, every edge of the
    assembled graph carries one of the six relation types, and comes from
    one chunk: both its ends are entities of that chunk, and the chunk has
    a pattern match of that relation type, accepted by relation extraction,
    whose subject resolves to the source and whose object resolves to the
    target. *)
Theorem assembled_edges_come_from_one_chunk
  (order : set_iteration) (text_chunks : list string) :
  exists g, build_graph_from_chunks order text_chunks = Ok g
    /\ forall u v label,
         In ((u, v), label) (edge_table g) ->
         exists relation chunk subject obj,
           label = Some relation
           /\ In relation vocabulary
           /\ In chunk text_chunks
           /\ In u (extract_entities order chunk)
           /\ In v (extract_entities order chunk)
           /\ In (subject, relation, obj) (pattern_matches chunk)
           /\ accepted (extract_entities order chunk) (subject, relation, obj) = true
           /\ _find_best_entity_match subject (extract_entities order chunk) = Some u
           /\ _find_best_entity_match obj (extract_entities order chunk) = Some v.
Proof.
  exists (assemble order empty text_chunks).
  split; [apply build_graph_from_chunks_assemble | ].
  intros u v label H. apply assemble_entries in H.
  destruct H as [[] | (chunk & [[a b] relation] & Hc & Hw & E)].
  simpl in E. inversion E; subst a b label.
  destruct (chunk_writes_sound _ _ _ Hw) as (Hu & Hv & Voc).
  destruct (chunk_writes_origin _ _ _ _ _ Hw) as (subject & obj & Hm & A & Su & Sv).
  exists relation, chunk, subject, obj. simpl in *. tauto.
Qed.

(** ** Growth *)

Lemma node_table_add_all_grows : forall entities g,
  exists added, node_table (add_all g entities) = node_table g ++ added.
Proof.
  induction entities as [ | e entities IH ]; intros g; simpl.
  - exists []. now rewrite app_nil_r.
  - destruct (has_node g e) eqn:E; simpl; [apply IH | ].
    destruct (IH (add_node g e (Some "entity"))) as (added & ->).
    unfold add_node. rewrite E. simpl.
    exists ((e, Some "entity") :: added). now rewrite <- app_assoc.
Qed.

Lemma keys_write_all_grow : forall ws g,
  exists added,
    map fst (edge_table (write_all g ws)) = map fst (edge_table g) ++ added.
Proof.
  induction ws as [ | w ws IH ]; intros g.
  - exists []. now rewrite app_nil_r.
  - change (write_all g (w :: ws))
      with (write_all (add_edge g (fst (fst w)) (snd (fst w)) (Some (snd w))) ws).
    destruct (IH (add_edge g (fst (fst w)) (snd (fst w)) (Some (snd w))))
      as (added & ->).
    rewrite keys_add_edge.
    destruct (has_edge g (fst (fst w)) (snd (fst w))).
    + now exists added.
    + eexists. now rewrite <- app_assoc.
Qed.

Lemma assemble_grows order : forall text_chunks g,
  exists new_nodes new_pairs,
    node_table (assemble order g text_chunks) = node_table g ++ new_nodes
    /\ map fst (edge_table (assemble order g text_chunks))
       = map fst (edge_table g) ++ new_pairs.
Proof.
  induction text_chunks as [ | chunk text_chunks IH ]; intros g; simpl.
  - exists [], []. now rewrite !app_nil_r.
  - destruct (IH (assemble_chunk order g chunk)) as (ns & ps & -> & ->).
    rewrite node_table_assemble_chunk.
    destruct (node_table_add_all_grows (extract_entities order chunk) g) as (n1 & ->).
    unfold assemble_chunk.
    destruct (keys_write_all_grow (chunk_writes order chunk)
                (add_all g (extract_entities order chunk))) as (p1 & ->).
    rewrite edge_table_add_all.
    exists (n1 ++ ns), (p1 ++ ps). now rewrite !app_assoc.
Qed.

(** The successors and the predecessors of a node, read off the pairs of
    edge ends. *)
Lemma out_neighbours_keys g n :
  out_neighbours g n
  = map snd (filter (fun k => String.eqb (fst k) n) (map fst (edge_table g))).
Proof.
  unfold out_neighbours. induction (edge_table g) as [ | e table IH ]; [reflexivity | ].
  cbn [map filter]. destruct (String.eqb (fst (fst e)) n); cbn [map]; now rewrite IH.
Qed.

Lemma in_neighbours_keys g n :
  in_neighbours g n
  = map fst (filter (fun k => String.eqb (snd k) n) (map fst (edge_table g))).
Proof.
  unfold in_neighbours. induction (edge_table g) as [ | e table IH ]; [reflexivity | ].
  cbn [map filter]. destruct (String.eqb (snd (fst e)) n); cbn [map]; now rewrite IH.
Qed.

(** X3: chunks that follow never remove or move what earlier chunks put in
    the graph.  The nodes of the graph assembled from a list of chunks, with
    their attributes, are a prefix of those of the graph assembled from the
    list with more chunks after it; every edge of the first graph is an edge
    of the second (only its relation can change); and for every node, its
    successors in the first graph are a prefix of its successors in the
    second, and likewise its predecessors. *)
Theorem assembly_only_grows
  (order : set_iteration) (text_chunks more : list string) :
  exists g g' new_nodes,
    build_graph_from_chunks order text_chunks = Ok g
    /\ build_graph_from_chunks order (text_chunks ++ more) = Ok g'
    /\ node_table g' = node_table g ++ new_nodes
    /\ (forall u v, has_edge g u v = true -> has_edge g' u v = true)
    /\ (forall n, exists new_targets,
          out_neighbours g' n = out_neighbours g n ++ new_targets)
    /\ (forall n, exists new_sources,
          in_neighbours g' n = in_neighbours g n ++ new_sources).
Proof.
  destruct (assemble_grows order more (assemble order empty text_chunks))
    as (ns & ps & N & P).
  assert (E : assemble order (assemble order empty text_chunks) more
              = assemble order empty (text_chunks ++ more)).
  { unfold assemble. now rewrite fold_left_app. }
  rewrite E in N, P.
  exists (assemble order empty text_chunks),
         (assemble order empty (text_chunks ++ more)), ns.
  split; [apply build_graph_from_chunks_assemble | ].
  split; [apply build_graph_from_chunks_assemble | ].
  split; [exact N | split; [ | split]].
  - intros u v H. apply has_edge_In. rewrite P. apply in_app_iff. left.
    now apply has_edge_In.
  - intros n. rewrite !out_neighbours_keys, P, filter_app, map_app. now eexists.
  - intros n. rewrite !in_neighbours_keys, P, filter_app, map_app. now eexists.
Qed.

End AssemblyExtras.

(* ================================================================== *)
(** * Substrings *)
(* ================================================================== *)

Module StrFacts.

Lemma prefix_empty (s : string) : prefix "" s = true.
Proof. now destruct s. Qed.

Lemma prefix_append (x q : string) : prefix x (x ++ q) = true.
Proof.
  induction x as [ | c x IH ]; simpl; [apply prefix_empty | ].
  destruct (ascii_dec c c); [exact IH | congruence].
Qed.

Lemma prefix_refl (x : string) : prefix x x = true.
Proof.
  induction x as [ | c x IH ]; simpl; [reflexivity | ].
  destruct (ascii_dec c c); [exact IH | congruence].
Qed.

Lemma prefix_longer (x : string) : forall s q,
  prefix x s = true -> prefix x (s ++ q) = true.
Proof.
  induction x as [ | c x IH ]; intros s q H; [apply prefix_empty | ].
  destruct s as [ | d s ]; [discriminate | ]. simpl in *.
  destruct (ascii_dec c d); [now apply IH | discriminate].
Qed.

Lemma contains_prefix (x s : string) : prefix x s = true -> Str.contains x s = true.
Proof. intros H. destruct s; cbn [Str.contains]; now rewrite H. Qed.

Lemma contains_refl (x : string) : Str.contains x x = true.
Proof. apply contains_prefix, prefix_refl. Qed.

Lemma contains_cons (x s : string) (c : ascii) :
  Str.contains x s = true -> Str.contains x (String c s) = true.
Proof. intros H. cbn [Str.contains]. now destruct (prefix x (String c s)). Qed.

Lemma contains_after (x s : string) : forall p,
  Str.contains x s = true -> Str.contains x (p ++ s) = true.
Proof.
  induction p as [ | c p IH ]; intros H; [exact H | ].
  change (Str.contains x (String c (p ++ s)) = true).
  apply contains_cons. now apply IH.
Qed.

Lemma contains_before (x q : string) : forall s,
  Str.contains x s = true -> Str.contains x (s ++ q) = true.
Proof.
  induction s as [ | c s IH ]; intros H.
  - cbn [Str.contains] in H. destruct (prefix x "") eqn:P; [ | discriminate].
    apply contains_prefix. now apply (@prefix_longer x "" q).
  - cbn [Str.contains] in H. destruct (prefix x (String c s)) eqn:P.
    + apply contains_prefix. now apply (@prefix_longer x (String c s) q).
    + change (Str.contains x (String c (s ++ q)) = true).
      apply contains_cons. now apply IH.
Qed.

(** A part of a joined string is contained in it. *)
Lemma contains_join (sep part : string) : forall parts,
  In part parts -> Str.contains part (Str.join sep parts) = true.
Proof.
  induction parts as [ | p parts IH ]; intros H; [destruct H | ].
  destruct parts as [ | p' parts ].
  - destruct H as [<- | []]. apply contains_refl.
  - change (Str.join sep (p :: p' :: parts))
      with (p ++ sep ++ Str.join sep (p' :: parts))%string.
    destruct H as [<- | H].
    + apply contains_before, contains_refl.
    + apply contains_after, contains_after. now apply IH.
Qed.

End StrFacts.

(* ================================================================== *)
(** * More on entity matching and relation extraction *)
(* ================================================================== *)

Module MatchingExtras.

Import Nx GraphFacts Builder Relations Assembly AssemblyExtras StrFacts Notions Samples.

Lemma existsb_incl {A : Type} (f : A -> bool) (l l' : list A) :
  incl l l' -> existsb f l = true -> existsb f l' = true.
Proof.
  intros I H. apply existsb_exists in H. destruct H as (x & Hx & Fx).
  apply existsb_exists. exists x. split; [now apply I | exact Fx].
Qed.

(** X4: [_find_best_entity_match] returns a member of the entity set that
    overlaps the mention (in lower case one contains the other); when some
    member equals the mention in lower case it returns such a member, even
    if a member that merely overlaps comes first; and it returns [None]
    exactly when no member overlaps the mention. *)
Theorem find_best_entity_match_spec (entity : string) (entity_set : list string) :
  (forall e, _find_best_entity_match entity entity_set = Some e ->
             In e entity_set /\ overlap entity e = true)
  /\ ((exists e, In e entity_set /\ Str.lower e = Str.lower entity) ->
      exists e, _find_best_entity_match entity entity_set = Some e
                /\ Str.lower e = Str.lower entity)
  /\ (_find_best_entity_match entity entity_set = None
      <-> forall e, In e entity_set -> overlap entity e = false).
Proof.
  unfold _find_best_entity_match, overlap.
  destruct (find (fun e => String.eqb (Str.lower e) (Str.lower entity)) entity_set)
    as [e1 | ] eqn:F1.
  - apply find_some in F1. destruct F1 as [In1 E1]. apply String.eqb_eq in E1.
    split; [ | split].
    + intros e H. inversion H; subst e. split; [exact In1 | ].
      rewrite E1, contains_refl. reflexivity.
    + intros _. now exists e1.
    + split; [discriminate | ].
      intros H. specialize (H e1 In1). rewrite E1, contains_refl in H. discriminate.
  - split; [ | split].
    + intros e H. apply find_some in H. exact H.
    + intros (e & He & E). pose proof (find_none _ _ F1 e He) as N. simpl in N.
      rewrite E, String.eqb_refl in N. discriminate.
    + split.
      * intros H e He. exact (find_none _ _ H e He).
      * intros H.
        destruct (find (fun e => Str.contains (Str.lower entity) (Str.lower e)
                                 || Str.contains (Str.lower e) (Str.lower entity))
                       entity_set) as [e2 | ] eqn:F2; [ | reflexivity].
        apply find_some in F2. destruct F2 as [In2 O2].
        rewrite (H e2 In2) in O2. discriminate.
Qed.

(** The set of the first test: the exact match comes after an overlap. *)
Lemma find_best_entity_match_spec_witness :
  _find_best_entity_match "larry" ["Larry Page"; "Larry"] = Some "Larry"
  /\ _find_best_entity_match "larr" ["Larry Page"; "Larry"] = Some "Larry Page"
  /\ exists e, _find_best_entity_match "LARRY" ["Larry Page"; "Larry"] = Some e
               /\ Str.lower e = Str.lower "LARRY".
Proof.
  split; [reflexivity | split; [reflexivity | ]].
  apply (proj1 (proj2 (find_best_entity_match_spec "LARRY" ["Larry Page"; "Larry"]))).
  exists "Larry". split; [right; left; reflexivity | reflexivity].
Defined.

(** X5: relation extraction returns nothing for an empty entity set; every
    triple it returns carries one of the six relation types; and a larger
    entity set never loses a triple. *)
Theorem extract_relations_grows_with_entities
  (text : string) (entities entities' : list string) :
  exists relations relations',
    extract_relations text entities = Ok relations
    /\ extract_relations text entities' = Ok relations'
    /\ (entities = [] -> relations = [])
    /\ (forall t, In t relations -> In (snd (fst t)) vocabulary)
    /\ (incl entities entities' -> incl relations relations').
Proof.
  exists (filter (accepted entities) (pattern_matches text)),
         (filter (accepted entities') (pattern_matches text)).
  split; [apply extract_relations_filter | ].
  split; [apply extract_relations_filter | ].
  split; [ | split].
  - intros ->. induction (pattern_matches text) as [ | [[s r] o] l IH ];
      [reflexivity | exact IH].
  - intros t H. apply filter_In in H. now apply (@pattern_matches_vocabulary text t).
  - intros I [[s r] o] H. apply filter_In in H. destruct H as [H A].
    apply filter_In. split; [exact H | ].
    unfold accepted, within_some_entity in *.
    apply andb_true_iff in A. destruct A as [A1 A2].
    apply andb_true_iff. split; eapply existsb_incl; eauto.
Qed.

Lemma extract_relations_grows_with_entities_witness :
  exists relations relations',
    extract_relations developer_text ["John"; "developer"] = Ok relations
    /\ extract_relations developer_text ["John"; "developer"; "Mary"; "experience"]
       = Ok relations'
    /\ (["John"; "developer"] = [] -> relations = [])
    /\ (forall t, In t relations -> In (snd (fst t)) vocabulary)
    /\ (incl ["John"; "developer"] ["John"; "developer"; "Mary"; "experience"]
        -> incl relations relations').
Proof.
  exact (extract_relations_grows_with_entities developer_text
           ["John"; "developer"] ["John"; "developer"; "Mary"; "experience"]).
Defined.

End MatchingExtras.

(* ================================================================== *)
(** * More on entity resolution, entity information and paths *)
(* ================================================================== *)

Module ResolutionExtras.

Import Nx GraphFacts EdgeFacts Resolution Paths Router StrFacts Notions Samples.

Section WithRatio.

Variable ratio : string -> string -> Q.

Lemma similar_loop_candidates entity_lower threshold : forall labels similar_entities,
  (forall node, In node labels -> Str.lower node <> entity_lower) ->
  similar_loop ratio entity_lower threshold labels similar_entities
  = similar_entities ++ flat_map (candidates_of ratio entity_lower threshold) labels.
Proof.
  induction labels as [ | node rest IH ]; intros acc H.
  - simpl. now rewrite app_nil_r.
  - assert (Q : String.eqb entity_lower (Str.lower node) = false).
    { apply String.eqb_neq. intros E. apply (H node (or_introl eq_refl)). now symmetry. }
    cbn [similar_loop flat_map]. rewrite Q.
    rewrite IH by (intros n Hn; apply H; now right).
    unfold candidates_of.
    destruct (Str.contains entity_lower (Str.lower node)
              || Str.contains (Str.lower node) entity_lower);
      destruct (Qle_bool threshold (ratio entity_lower (Str.lower node)));
      simpl; rewrite <- ?app_assoc; reflexivity.
Qed.

End WithRatio.

(** X6: when no node equals the mention in lower case, entity resolution
    goes through the nodes in their order and lists a node once if it
    overlaps the mention and once more if their similarity ratio reaches
    the threshold; so a node is a candidate exactly when one of the two
    holds, and a graph without nodes gives no candidate. *)
Theorem fuzzy_candidates_follow_the_nodes
  (ratio : string -> string -> Q) (g : DiGraph) (mention : string) (threshold : Q) :
  (forall node, In node (nodes g) -> Str.lower node <> Str.lower mention) ->
  find_similar_entities ratio g mention threshold
  = flat_map (candidates_of ratio (Str.lower mention) threshold) (nodes g)
  /\ forall node,
       In node (find_similar_entities ratio g mention threshold)
       <-> In node (nodes g)
           /\ (overlap mention node = true
               \/ Qle_bool threshold (ratio (Str.lower mention) (Str.lower node)) = true).
Proof.
  intros H.
  assert (E : find_similar_entities ratio g mention threshold
              = flat_map (candidates_of ratio (Str.lower mention) threshold) (nodes g)).
  { unfold find_similar_entities. now rewrite similar_loop_candidates. }
  split; [exact E | ].
  intros node. rewrite E, in_flat_map. unfold candidates_of, overlap. split.
  - intros (n & Hn & Hc). apply in_app_iff in Hc.
    destruct (Str.contains (Str.lower mention) (Str.lower n)
              || Str.contains (Str.lower n) (Str.lower mention)) eqn:C;
      destruct (Qle_bool threshold (ratio (Str.lower mention) (Str.lower n))) eqn:R;
      destruct Hc as [Hc | Hc]; try destruct Hc as [<- | []]; try destruct Hc;
      (split; [exact Hn | ]); rewrite ?C, ?R; auto.
  - intros (Hn & [C | R]); exists node; (split; [exact Hn | ]); apply in_app_iff.
    + left. rewrite C. now left.
    + right. rewrite R. now left.
Qed.

Lemma fuzzy_candidates_follow_the_nodes_witness :
  find_similar_entities Difflib.ratio sample_graph "larry" default_threshold
  = flat_map (candidates_of Difflib.ratio (Str.lower "larry") default_threshold)
      (nodes sample_graph)
  /\ forall node,
       In node (find_similar_entities Difflib.ratio sample_graph "larry" default_threshold)
       <-> In node (nodes sample_graph)
           /\ (overlap "larry" node = true
               \/ Qle_bool default_threshold
                    (Difflib.ratio (Str.lower "larry") (Str.lower node)) = true).
Proof.
  apply (@fuzzy_candidates_follow_the_nodes Difflib.ratio sample_graph "larry"
           default_threshold).
  intros node H. vm_compute in H.
  destruct H as [<- | [<- | [<- | [<- | []]]]]; vm_compute; discriminate.
Defined.

(** ** Entity information *)

(** In a table without two entries for a pair, an entry is the one found
    for its pair. *)
Lemma find_entry (table : list ((string * string) * option string)) :
  NoDup (map fst table) ->
  forall e, In e table -> find (same_pair (fst (fst e)) (snd (fst e))) table = Some e.
Proof.
  induction table as [ | h rest IH ]; intros D e H; [destruct H | ].
  inversion D as [ | ? ? Nh D' ]; subst. simpl.
  destruct (same_pair (fst (fst e)) (snd (fst e)) h) eqn:S.
  - destruct H as [-> | H]; [reflexivity | exfalso].
    unfold same_pair in S. apply andb_true_iff in S. destruct S as [S1 S2].
    apply String.eqb_eq in S1, S2. apply Nh. apply in_map_iff.
    exists e. split; [ | exact H].
    destruct h as [[a b] x], e as [[c d] y]. simpl in *. now subst.
  - destruct H as [-> | H]; [ | now apply IH].
    unfold same_pair in S. now rewrite !String.eqb_refl in S.
Qed.

Section Information.

Variable g : DiGraph.
Hypothesis simple_g : NoDup (map fst (edge_table g)).

Lemma outgoing_loop n : forall es acc,
  (forall e, In e es -> In e (edge_table g) /\ fst (fst e) = n) ->
  for_each (map (fun e => snd (fst e)) es)
    (fun acc neighbor =>
       edge_data <- Nx.edge_data g n neighbor ;;
       Ok (acc ++ [(neighbor, Nx.get edge_data "unknown")])) acc
  = Ok (acc ++ map (fun e => (snd (fst e), Nx.get (snd e) "unknown")) es).
Proof.
  induction es as [ | e es IH ]; intros acc H; cbn [map for_each].
  - now rewrite app_nil_r.
  - destruct (H e (or_introl eq_refl)) as [He <-].
    unfold Nx.edge_data at 1. rewrite (@find_entry _ simple_g e He). cbn [bind].
    rewrite IH by (intros e' He'; apply H; now right).
    now rewrite <- app_assoc.
Qed.

Lemma incoming_loop n : forall es acc,
  (forall e, In e es -> In e (edge_table g) /\ snd (fst e) = n) ->
  for_each (map (fun e => fst (fst e)) es)
    (fun acc predecessor =>
       edge_data <- Nx.edge_data g predecessor n ;;
       Ok (acc ++ [(predecessor, Nx.get edge_data "unknown")])) acc
  = Ok (acc ++ map (fun e => (fst (fst e), Nx.get (snd e) "unknown")) es).
Proof.
  induction es as [ | e es IH ]; intros acc H; cbn [map for_each].
  - now rewrite app_nil_r.
  - destruct (H e (or_introl eq_refl)) as [He <-].
    unfold Nx.edge_data at 1. rewrite (@find_entry _ simple_g e He). cbn [bind].
    rewrite IH by (intros e' He'; apply H; now right).
    now rewrite <- app_assoc.
Qed.

Lemma get_entity_information_edges n :
  In n (nodes g) ->
  exists attrs,
    In (n, attrs) (node_table g)
    /\ get_entity_information g n
       = Ok (Some (EntityInfo n attrs
                     (map (fun e => (snd (fst e), Nx.get (snd e) "unknown"))
                          (out_edges g n))
                     (map (fun e => (fst (fst e), Nx.get (snd e) "unknown"))
                          (in_edges g n))
                     (out_neighbours g n))).
Proof.
  intros H. unfold get_entity_information.
  pose proof (proj2 (mem_In n (nodes g)) H) as M. rewrite M. cbn [negb].
  assert (N : has_node g n = true) by exact M.
  unfold node_data.
  destruct (find (fun e => String.eqb (fst e) n) (node_table g)) as [[n' attrs] | ] eqn:F.
  2:{ unfold nodes in H. apply in_map_iff in H. destruct H as (e & E & Hin).
      pose proof (find_none _ _ F e Hin) as X. simpl in X.
      rewrite E, String.eqb_refl in X. discriminate. }
  apply find_some in F. destruct F as [Fin Feq]. simpl in Feq.
  apply String.eqb_eq in Feq. subst n'.
  exists attrs. split; [exact Fin | ].
  cbn [bind snd]. unfold Nx.neighbors, successors, predecessors. rewrite N. cbn [bind].
  change (out_neighbours g n)
    with (map (fun e : (string * string) * option string => snd (fst e)) (out_edges g n)).
  change (in_neighbours g n)
    with (map (fun e : (string * string) * option string => fst (fst e)) (in_edges g n)).
  rewrite outgoing_loop.
  2:{ intros e He. apply filter_In in He. destruct He as [He Q].
      apply String.eqb_eq in Q. now split. }
  cbn [bind app]. rewrite incoming_loop.
  2:{ intros e He. apply filter_In in He. destruct He as [He Q].
      apply String.eqb_eq in Q. now split. }
  reflexivity.
Qed.

End Information.

Lemma sample_graph_simple : NoDup (map fst (edge_table sample_graph)).
Proof.
  vm_compute. repeat constructor; simpl; intuition discriminate.
Qed.

(** X7: [get_entity_information] returns the empty dictionary exactly for a
    string that is no node label (the comparison is exact, case matters);
    and for a node of a graph with one edge per ordered pair, it returns the
    node's attribute, its successors as neighbours, and, in the order of
    the graph, one outgoing relation for each edge that leaves the node and
    one incoming relation for each edge that enters it, with the relation
    of the edge, or unknown for an edge without one. *)
Theorem entity_information_lists_the_edges (g : DiGraph) (n : string) :
  (get_entity_information g n = Ok None <-> ~ In n (nodes g))
  /\ (In n (nodes g) ->
      NoDup (map fst (edge_table g)) ->
      exists attrs,
        In (n, attrs) (node_table g)
        /\ get_entity_information g n
           = Ok (Some (EntityInfo n attrs
                         (map (fun e => (snd (fst e), Nx.get (snd e) "unknown"))
                              (out_edges g n))
                         (map (fun e => (fst (fst e), Nx.get (snd e) "unknown"))
                              (in_edges g n))
                         (out_neighbours g n)))).
Proof.
  split.
  - split.
    + intros E H. destruct (get_entity_information_node g n H) as (info & E' & _).
      congruence.
    + intros H. unfold get_entity_information.
      destruct (Str.mem n (nodes g)) eqn:M; [ | reflexivity].
      apply mem_In in M. contradiction.
  - intros H D. now apply get_entity_information_edges.
Qed.

Lemma entity_information_lists_the_edges_witness :
  get_entity_information sample_graph "Google"
  = Ok (Some (EntityInfo "Google" (Some "Company") []
                [("Larry Page", "co-founded"); ("Sergey Brin", "co-founded");
                 ("Sundar Pichai", "is CEO of")] []))
  /\ get_entity_information sample_graph "google" = Ok None
  /\ exists attrs,
       In ("Google", attrs) (node_table sample_graph)
       /\ get_entity_information sample_graph "Google"
          = Ok (Some (EntityInfo "Google" attrs
                        (map (fun e => (snd (fst e), Nx.get (snd e) "unknown"))
                             (out_edges sample_graph "Google"))
                        (map (fun e => (fst (fst e), Nx.get (snd e) "unknown"))
                             (in_edges sample_graph "Google"))
                        (out_neighbours sample_graph "Google"))).
Proof.
  split; [vm_compute; reflexivity | split; [vm_compute; reflexivity | ]].
  apply (proj2 (entity_information_lists_the_edges sample_graph "Google")).
  - vm_compute. auto.
  - exact sample_graph_simple.
Defined.

End ResolutionExtras.

(* ================================================================== *)
(** * More on paths and on classification *)
(* ================================================================== *)

Module PathExtras.

Import Nx GraphFacts Resolution Paths Answers Router Notions Samples.

Lemma path_relations_shape g : forall path relations,
  path_relations g path = Ok relations ->
  map (fun t : triple => fst (fst t)) relations = removelast path
  /\ map (fun t : triple => snd t) relations = tl path
  /\ Forall (fun t : triple =>
               exists attrs, edge_data g (fst (fst t)) (snd t) = Ok attrs
                             /\ snd (fst t) = Nx.get attrs "connected_to")
            relations.
Proof.
  induction path as [ | u path IH ]; intros relations H.
  - inversion H; subst. repeat split; constructor.
  - destruct path as [ | v path ].
    + inversion H; subst. repeat split; constructor.
    + rewrite path_relations_step in H.
      destruct (edge_data g u v) as [attrs | ] eqn:D; [ | discriminate].
      cbn [bind] in H.
      destruct (path_relations g (v :: path)) as [rest | ] eqn:R; [ | discriminate].
      cbn [bind] in H. inversion H; subst relations.
      destruct (IH rest eq_refl) as (S & T & F).
      split; [ | split].
      * cbn [map fst snd]. rewrite S. reflexivity.
      * cbn [map snd tl]. rewrite T. reflexivity.
      * constructor; [ | exact F]. exists attrs. now split.
Qed.

(** Along a path only a missing edge can raise. *)
Lemma path_relations_raises g : forall path e,
  path_relations g path = Raise e -> e = KeyError.
Proof.
  induction path as [ | u path IH ]; intros e H; [discriminate | ].
  destruct path as [ | v path ]; [discriminate | ].
  rewrite path_relations_step in H. unfold edge_data in H.
  destruct (find (same_pair u v) (edge_table g)); cbn [bind] in H.
  - destruct (path_relations g (v :: path)) as [rest | e'] eqn:R; cbn [bind] in H.
    + discriminate.
    + inversion H; subst. now apply IH.
  - now inversion H.
Qed.

(** X8: whatever [nx.shortest_path] is, [find_path_between_entities] turns
    its [NetworkXNoPath] into the empty list and never raises it; and from
    a path it returns one triple for each pair of consecutive nodes, in
    order (the sources are the path without its last node, the targets the
    path without its first node), each triple being an edge of the graph
    with its relation, or connected_to for an edge without one. *)
Theorem path_relations_follow_the_path
  (shortest_path : DiGraph -> string -> string -> result (list string))
  (g : DiGraph) (entity1 entity2 : string) :
  (shortest_path g entity1 entity2 = Raise NetworkXNoPath ->
   find_path_between_entities shortest_path g entity1 entity2 = Ok [])
  /\ find_path_between_entities shortest_path g entity1 entity2 <> Raise NetworkXNoPath
  /\ forall path relations,
       shortest_path g entity1 entity2 = Ok path ->
       find_path_between_entities shortest_path g entity1 entity2 = Ok relations ->
       map (fun t : triple => fst (fst t)) relations = removelast path
       /\ map (fun t : triple => snd t) relations = tl path
       /\ Forall (fun t : triple =>
                    exists attrs, edge_data g (fst (fst t)) (snd t) = Ok attrs
                                  /\ snd (fst t) = Nx.get attrs "connected_to")
                 relations.
Proof.
  unfold find_path_between_entities. split; [ | split].
  - now intros ->.
  - destruct (shortest_path g entity1 entity2) as [path | e]; cbn [bind].
    + destruct (path_relations g path) as [relations | e]; [discriminate | ].
      destruct e; discriminate.
    + destruct e; discriminate.
  - intros path relations -> H. cbn [bind] in H.
    apply path_relations_shape.
    destruct (path_relations g path) as [rs | e] eqn:R; [exact H | ].
    apply path_relations_raises in R. subst e. discriminate.
Qed.

Lemma path_relations_follow_the_path_witness :
  Bfs.shortest_path alphabet_graph "Larry Page" "Alphabet"
  = Ok ["Larry Page"; "Google"; "Alphabet"]
  /\ find_path_between_entities Bfs.shortest_path alphabet_graph "Larry Page" "Alphabet"
     = Ok [("Larry Page", "co-founded", "Google"); ("Google", "connected_to", "Alphabet")]
  /\ find_path_between_entities Bfs.shortest_path alphabet_graph "Alphabet" "Larry Page"
     = Ok []
  /\ (map (fun t : triple => fst (fst t))
        [("Larry Page", "co-founded", "Google"); ("Google", "connected_to", "Alphabet")]
      = removelast ["Larry Page"; "Google"; "Alphabet"]
      /\ map (fun t : triple => snd t)
           [("Larry Page", "co-founded", "Google"); ("Google", "connected_to", "Alphabet")]
         = tl ["Larry Page"; "Google"; "Alphabet"]
      /\ Forall (fun t : triple =>
                   exists attrs,
                     edge_data alphabet_graph (fst (fst t)) (snd t) = Ok attrs
                     /\ snd (fst t) = Nx.get attrs "connected_to")
           [("Larry Page", "co-founded", "Google"); ("Google", "connected_to", "Alphabet")]).
Proof.
  split; [vm_compute; reflexivity | split; [vm_compute; reflexivity | split]].
  - apply (proj1 (@path_relations_follow_the_path Bfs.shortest_path alphabet_graph
                    "Alphabet" "Larry Page")).
    vm_compute. reflexivity.
  - apply (proj2 (proj2 (@path_relations_follow_the_path Bfs.shortest_path
                           alphabet_graph "Larry Page" "Alphabet"))
             ["Larry Page"; "Google"; "Alphabet"]);
      vm_compute; reflexivity.
Defined.

End PathExtras.

Module ClassificationExtras.

Import Nx GraphFacts Resolution Classification Answers Router ReFacts Notions Samples.

Lemma try_patterns_none q_type question_lower : forall patterns,
  try_patterns q_type patterns question_lower = None ->
  forall pattern, In pattern patterns -> search pattern question_lower = None.
Proof.
  induction patterns as [ | p rest IH ]; intros H pattern Hin; [destruct Hin | ].
  simpl in H. destruct (search p question_lower) eqn:S; [discriminate | ].
  destruct Hin as [<- | Hin]; [exact S | now apply IH].
Qed.

Lemma try_types_none question_lower : forall table,
  try_types table question_lower = None ->
  forall q_type patterns pattern,
    In (q_type, patterns) table -> In pattern patterns ->
    search pattern question_lower = None.
Proof.
  induction table as [ | [ty ps] rest IH ]; intros H q_type patterns pattern Ht Hp;
    [destruct Ht | ].
  simpl in H. destruct (try_patterns ty ps question_lower) eqn:T; [discriminate | ].
  destruct Ht as [E | Ht].
  - inversion E; subst. eapply try_patterns_none; eauto.
  - eapply IH; eauto.
Qed.

Lemma try_types_member question_lower : forall table answer,
  Forall (fun entry => Forall (fits (fst entry)) (snd entry)) table ->
  try_types table question_lower = Some answer ->
  exists q_type entities,
    In q_type (map fst table)
    /\ answer = Ok (q_type, entities)
    /\ List.length entities = arity q_type.
Proof.
  induction table as [ | [q_type patterns] rest IH ]; intros answer F H; simpl in H.
  - discriminate.
  - inversion F as [ | ? ? Fit F' ]; subst. simpl in Fit.
    destruct (try_patterns q_type patterns question_lower) as [a | ] eqn:T.
    + inversion H; subst.
      destruct (try_patterns_returns _ Fit T) as (entities & E & L).
      exists q_type, entities. split; [now left | now split].
    + destruct (IH answer F' H) as (q & es & Hq & E & L).
      exists q, es. split; [now right | now split].
Qed.

(** The results of [classify_question], by intent. *)
Lemma classify_question_shape (question : string) :
  (exists first second,
     classify_question question = Ok ("relationship", [first; second]))
  \/ (exists mention,
        classify_question question = Ok ("what_is", [mention])
        \/ classify_question question = Ok ("who_is", [mention]))
  \/ classify_question question
     = Ok ("general", extract_entities_from_question question).
Proof.
  unfold classify_question.
  destruct (try_types question_patterns (Str.lower question)) as [a | ] eqn:T;
    [ | now right; right].
  destruct (try_types_member _ question_patterns_fit T) as (q & es & Hq & -> & L).
  simpl in Hq. destruct Hq as [<- | [<- | [<- | []]]]; unfold arity in L; simpl in L.
  - left. destruct es as [ | a [ | b [ | c es ] ] ]; try discriminate. now exists a, b.
  - right; left. destruct es as [ | a [ | b es ] ]; try discriminate.
    exists a. now left.
  - right; left. destruct es as [ | a [ | b es ] ]; try discriminate.
    exists a. now right.
Qed.

Lemma try_patterns_some q_type question_lower : forall patterns answer,
  try_patterns q_type patterns question_lower = Some answer ->
  exists pattern m,
    In pattern patterns
    /\ search pattern question_lower = Some m
    /\ answer = (entities <- mentions q_type m ;; Ok (q_type, entities)).
Proof.
  induction patterns as [ | p rest IH ]; intros answer H; [discriminate | ].
  cbn [try_patterns] in H. destruct (search p question_lower) as [m | ] eqn:S.
  - inversion H; subst. exists p, m. split; [now left | now split].
  - destruct (IH answer H) as (p' & m & Hin & S' & E).
    exists p', m. split; [now right | now split].
Qed.

Lemma try_types_some question_lower : forall table answer,
  try_types table question_lower = Some answer ->
  exists q_type patterns pattern m,
    In (q_type, patterns) table
    /\ In pattern patterns
    /\ search pattern question_lower = Some m
    /\ answer = (entities <- mentions q_type m ;; Ok (q_type, entities)).
Proof.
  induction table as [ | [ty ps] rest IH ]; intros answer H; [discriminate | ].
  cbn [try_types] in H. destruct (try_patterns ty ps question_lower) as [a | ] eqn:T.
  - inversion H; subst. destruct (try_patterns_some _ _ _ T) as (p & m & Hin & S & E).
    exists ty, ps, p, m. split; [now left | now split].
  - destruct (IH answer H) as (q & ps' & p & m & Ht & Hp & S & E).
    exists q, ps', p, m. split; [now right | now split].
Qed.

(** X9: [classify_question] returns, for every question, one of four
    intents with its mentions.  It returns general exactly when no template
    matches the question in lower case, and then the mentions are those
    [extract_entities_from_question] finds, none of them a question word.
    Otherwise a template of the intent returned matches, and the mentions
    are the groups of its match, stripped: the first and the second group
    for relationship, the first group for what_is and who_is. *)
Theorem classification_has_four_outcomes (question : string) :
  exists q_type entities,
    classify_question question = Ok (q_type, entities)
    /\ ((q_type = "general"
         /\ entities = extract_entities_from_question question
         /\ (forall e, In e entities -> ~ In e question_words))
        \/ exists patterns pattern m first,
             In (q_type, patterns) question_patterns
             /\ In pattern patterns
             /\ search pattern (Str.lower question) = Some m
             /\ group 1 m = Some first
             /\ ((q_type = "relationship"
                  /\ exists second,
                       group 2 m = Some second
                       /\ entities = [Str.strip first; Str.strip second])
                 \/ ((q_type = "what_is" \/ q_type = "who_is")
                     /\ entities = [Str.strip first])))
    /\ (q_type = "general"
        <-> forall q_type' patterns pattern,
              In (q_type', patterns) question_patterns -> In pattern patterns ->
              search pattern (Str.lower question) = None).
Proof.
  unfold classify_question.
  destruct (try_types question_patterns (Str.lower question)) as [a | ] eqn:T.
  - destruct (try_types_some _ _ T) as (q & ps & p & m & Ht & Hp & S & ->).
    assert (Fit : fits q p).
    { pose proof question_patterns_fit as F. rewrite Forall_forall in F.
      specialize (F _ Ht). cbn [fst snd] in F. rewrite Forall_forall in F.
      now apply F. }
    pose proof (search_complete _ _ S) as C.
    assert (Matched : q <> "general" ->
              (q = "general"
               <-> forall q_type' patterns pattern,
                     In (q_type', patterns) question_patterns -> In pattern patterns ->
                     search pattern (Str.lower question) = None)).
    { intros N. split; [contradiction | ].
      intros A. rewrite (A q ps p Ht Hp) in S. discriminate. }
    pose proof Ht as Ht'.
    simpl in Ht'. destruct Ht' as [E | [E | [E | []]]]; inversion E; subst q ps.
    + destruct (mentions_relationship Fit C) as (first & second & G1 & G2 & ->).
      cbn [bind]. eexists _, _. split; [reflexivity | split].
      * right. exists relationship_patterns, p, m, first.
        split; [exact Ht | split; [exact Hp | split; [exact S | split; [exact G1 | ]]]].
        left. split; [reflexivity | ]. now exists second.
      * apply Matched. discriminate.
    + destruct (@mentions_single "what_is" p m eq_refl Fit C) as (first & G1 & ->).
      cbn [bind]. eexists _, _. split; [reflexivity | split].
      * right. exists what_is_patterns, p, m, first.
        split; [exact Ht | split; [exact Hp | split; [exact S | split; [exact G1 | ]]]].
        right. split; [now left | reflexivity].
      * apply Matched. discriminate.
    + destruct (@mentions_single "who_is" p m eq_refl Fit C) as (first & G1 & ->).
      cbn [bind]. eexists _, _. split; [reflexivity | split].
      * right. exists who_is_patterns, p, m, first.
        split; [exact Ht | split; [exact Hp | split; [exact S | split; [exact G1 | ]]]].
        right. split; [now right | reflexivity].
      * apply Matched. discriminate.
  - exists "general", (extract_entities_from_question question).
    split; [reflexivity | split].
    + left. split; [reflexivity | split; [reflexivity | ]].
      intros e He. unfold extract_entities_from_question in He.
      apply filter_In in He. destruct He as [_ N].
      intros W. apply mem_In in W. now rewrite W in N.
    + split; [ | reflexivity].
      intros _ q ps p Hq Hp. eapply try_types_none; eauto.
Qed.

Section Dispatch.

Variable ratio : string -> string -> Q.
Variable shortest_path : DiGraph -> string -> string -> result (list string).

(** X10: on a graph with a node, the answer is that of the function of the
    intent: a what_is and a who_is question are both answered by
    [answer_what_is_question] on their mention, a relationship question by
    [answer_relationship_question] on its two mentions, and every other
    question by [answer_general_question] on the mentions found in it. *)
Theorem answer_follows_the_intent (g : DiGraph) (question : string) :
  number_of_nodes g <> 0 ->
  (exists mention,
     (classify_question question = Ok ("what_is", [mention])
      \/ classify_question question = Ok ("who_is", [mention]))
     /\ answer_question ratio shortest_path g question
        = answer_what_is_question ratio g mention)
  \/ (exists first second,
        classify_question question = Ok ("relationship", [first; second])
        /\ answer_question ratio shortest_path g question
           = answer_relationship_question ratio shortest_path g first second)
  \/ (classify_question question
      = Ok ("general", extract_entities_from_question question)
      /\ answer_question ratio shortest_path g question
         = answer_general_question ratio g (extract_entities_from_question question)).
Proof.
  intros N. apply Nat.eqb_neq in N. unfold answer_question. rewrite N.
  destruct (classify_question_shape question)
    as [(a & b & C) | [(a & [C | C]) | C]]; rewrite C; cbn [bind].
  - right; left. exists a, b. split; reflexivity.
  - left. exists a. split; [now left | reflexivity].
  - left. exists a. split; [now right | reflexivity].
  - right; right. split; reflexivity.
Qed.

End Dispatch.

Lemma answer_follows_the_intent_witness :
  (exists mention,
     (classify_question "Who is Sergey?" = Ok ("what_is", [mention])
      \/ classify_question "Who is Sergey?" = Ok ("who_is", [mention]))
     /\ answer_question Difflib.ratio Bfs.shortest_path sample_graph "Who is Sergey?"
        = answer_what_is_question Difflib.ratio sample_graph mention)
  \/ (exists first second,
        classify_question "Who is Sergey?" = Ok ("relationship", [first; second])
        /\ answer_question Difflib.ratio Bfs.shortest_path sample_graph "Who is Sergey?"
           = answer_relationship_question Difflib.ratio Bfs.shortest_path sample_graph
               first second)
  \/ (classify_question "Who is Sergey?"
      = Ok ("general", extract_entities_from_question "Who is Sergey?")
      /\ answer_question Difflib.ratio Bfs.shortest_path sample_graph "Who is Sergey?"
         = answer_general_question Difflib.ratio sample_graph
             (extract_entities_from_question "Who is Sergey?")).
Proof.
  apply (@answer_follows_the_intent Difflib.ratio Bfs.shortest_path sample_graph
           "Who is Sergey?").
  vm_compute. discriminate.
Defined.

End ClassificationExtras.

(* ================================================================== *)
(** * More on the answers *)
(* ================================================================== *)

Module AnswerExtras.

Import Nx GraphFacts Resolution ResolutionExtras Paths Answers Router StrFacts.
Import Notions Samples.

Lemma append_empty (s : string) : (s ++ "")%string = s.
Proof. induction s as [ | c s IH ]; simpl; [reflexivity | now rewrite IH]. Qed.

Lemma join_first (p : string) (rest : list string) :
  Str.join "" (p :: rest) = (p ++ Str.join "" rest)%string.
Proof. destruct rest; simpl; [now rewrite append_empty | reflexivity]. Qed.

(** X11: when the mention of a what-is or who-is question resolves, in a
    graph with one edge per ordered pair, the answer starts by naming the
    resolved node and reports every edge of that node: a line with the
    node, the relation and the target for each edge that leaves it, a line
    with the source, the relation and the node for each edge that enters
    it (unknown standing for a missing relation), and the sentence that no
    relationships were found when the node has no edge at all. *)
Theorem what_is_answer_reports_every_edge
  (ratio : string -> string -> Q) (g : DiGraph) (mention target : string)
  (rest : list string) :
  find_similar_entities ratio g mention default_threshold = target :: rest ->
  NoDup (map fst (edge_table g)) ->
  exists answer,
    answer_what_is_question ratio g mention = Ok answer
    /\ prefix (what_is_header target) answer = true
    /\ (forall v label,
          In ((target, v), label) (edge_table g) ->
          Str.contains ("- " ++ target ++ " " ++ Nx.get label "unknown" ++ " " ++ v)
            answer = true)
    /\ (forall u label,
          In ((u, target), label) (edge_table g) ->
          Str.contains ("- " ++ u ++ " " ++ Nx.get label "unknown" ++ " " ++ target)
            answer = true)
    /\ (out_edges g target = [] -> in_edges g target = [] ->
        Str.contains "No specific relationships found in the knowledge graph."
          answer = true).
Proof.
  intros F D.
  assert (N : In target (nodes g)).
  { eapply find_similar_entities_nodes. rewrite F. now left. }
  destruct (@get_entity_information_edges g D target N) as (attrs & _ & E).
  unfold answer_what_is_question. rewrite F. cbn [index nth_error bind].
  rewrite E. cbn [bind outgoing_relations incoming_relations].
  assert (HO : forall v label,
             In ((target, v), label) (edge_table g) ->
             In (v, Nx.get label "unknown")
                (map (fun e : (string * string) * option string =>
                        (snd (fst e), Nx.get (snd e) "unknown")) (out_edges g target))).
  { intros v label H. apply in_map_iff. exists ((target, v), label).
    split; [reflexivity | ]. apply filter_In. split; [exact H | apply String.eqb_refl]. }
  assert (HI : forall u label,
             In ((u, target), label) (edge_table g) ->
             In (u, Nx.get label "unknown")
                (map (fun e : (string * string) * option string =>
                        (fst (fst e), Nx.get (snd e) "unknown")) (in_edges g target))).
  { intros u label H. apply in_map_iff. exists ((u, target), label).
    split; [reflexivity | ]. apply filter_In. split; [exact H | apply String.eqb_refl]. }
  assert (EO : out_edges g target = [] ->
               map (fun e : (string * string) * option string =>
                      (snd (fst e), Nx.get (snd e) "unknown")) (out_edges g target) = [])
    by (now intros ->).
  assert (EI : in_edges g target = [] ->
               map (fun e : (string * string) * option string =>
                      (fst (fst e), Nx.get (snd e) "unknown")) (in_edges g target) = [])
    by (now intros ->).
  revert HO HI EO EI.
  generalize (map (fun e : (string * string) * option string =>
                     (snd (fst e), Nx.get (snd e) "unknown")) (out_edges g target)).
  generalize (map (fun e : (string * string) * option string =>
                     (fst (fst e), Nx.get (snd e) "unknown")) (in_edges g target)).
  intros incoming outgoing HO HI EO EI.
  eexists. split; [reflexivity | ].
  assert (Line_out : forall v label,
             In ((target, v), label) (edge_table g) ->
             In ("- " ++ target ++ " " ++ Nx.get label "unknown" ++ " " ++ v)%string
                (map (fun rel : string * string =>
                        ("- " ++ target ++ " " ++ snd rel ++ " " ++ fst rel)%string)
                     outgoing)).
  { intros v label H. apply in_map_iff. exists (v, Nx.get label "unknown").
    split; [reflexivity | now apply HO]. }
  assert (Line_in : forall u label,
             In ((u, target), label) (edge_table g) ->
             In ("- " ++ u ++ " " ++ Nx.get label "unknown" ++ " " ++ target)%string
                (map (fun rel : string * string =>
                        ("- " ++ fst rel ++ " " ++ snd rel ++ " " ++ target)%string)
                     incoming)).
  { intros u label H. apply in_map_iff. exists (u, Nx.get label "unknown").
    split; [reflexivity | now apply HI]. }
  clear HO HI.
  destruct outgoing as [ | o outgoing ]; destruct incoming as [ | i incoming ];
    cbv zeta;
    match goal with
    | |- prefix _ (Str.join "" ?parts) = true /\ _ => set (P := parts)
    end;
    (assert (A : exists tail, P = what_is_header target :: tail)
       by (unfold P; simpl; eauto));
    (split; [destruct A as (tail & ->); rewrite join_first; apply prefix_append | ]);
    (split; [ | split]).
  all: try (intros v label H; apply contains_join; apply Line_out in H;
            unfold P; clear - H; simpl in *; repeat rewrite in_app_iff; simpl; tauto).
  all: try (intros u label H; apply contains_join; apply Line_in in H;
            unfold P; clear - H; simpl in *; repeat rewrite in_app_iff; simpl; tauto).
  all: intros X Y; try (specialize (EO X); discriminate);
       try (specialize (EI Y); discriminate).
  unfold P. cbn [app]. rewrite join_first. apply contains_after.
  cbn [Str.join]. apply contains_after, contains_refl.
Qed.

Lemma what_is_answer_reports_every_edge_witness :
  exists answer,
    answer_what_is_question Difflib.ratio sample_graph "google" = Ok answer
    /\ prefix (what_is_header "Google") answer = true
    /\ (forall v label,
          In (("Google", v), label) (edge_table sample_graph) ->
          Str.contains ("- " ++ "Google" ++ " " ++ Nx.get label "unknown" ++ " " ++ v)
            answer = true)
    /\ (forall u label,
          In ((u, "Google"), label) (edge_table sample_graph) ->
          Str.contains ("- " ++ u ++ " " ++ Nx.get label "unknown" ++ " " ++ "Google")
            answer = true)
    /\ (out_edges sample_graph "Google" = [] -> in_edges sample_graph "Google" = [] ->
        Str.contains "No specific relationships found in the knowledge graph."
          answer = true).
Proof.
  apply (@what_is_answer_reports_every_edge Difflib.ratio sample_graph "google"
           "Google" []).
  - vm_compute. reflexivity.
  - exact sample_graph_simple.
Defined.

Lemma edge_data_entry g u v label :
  NoDup (map fst (edge_table g)) ->
  In ((u, v), label) (edge_table g) ->
  edge_data g u v = Ok label /\ has_edge g u v = true.
Proof.
  intros D H. split.
  - unfold edge_data. pose proof (@find_entry _ D ((u, v), label) H) as F.
    simpl in F. now rewrite F.
  - apply has_edge_In, in_map_iff. now exists ((u, v), label).
Qed.

(** X12: a relationship question reports the first mention that does not
    resolve; when both resolve, in a graph with one edge per ordered pair,
    an edge from the first resolved node to the second is reported with its
    relation (connected_to without one), before anything else; failing
    that, an edge from the second to the first is reported, in the direction
    of the edge; and without either edge and without a path the answer is
    that no relationship was found. *)
Theorem relationship_answer_prefers_direct_edges
  (ratio : string -> string -> Q)
  (shortest_path : DiGraph -> string -> string -> result (list string))
  (g : DiGraph) (entity1 entity2 : string) :
  (find_similar_entities ratio g entity1 default_threshold = [] ->
   answer_relationship_question ratio shortest_path g entity1 entity2
   = Ok (no_information entity1))
  /\ forall target1 rest1,
       find_similar_entities ratio g entity1 default_threshold = target1 :: rest1 ->
       (find_similar_entities ratio g entity2 default_threshold = [] ->
        answer_relationship_question ratio shortest_path g entity1 entity2
        = Ok (no_information entity2))
       /\ forall target2 rest2,
            find_similar_entities ratio g entity2 default_threshold = target2 :: rest2 ->
            NoDup (map fst (edge_table g)) ->
            (forall label,
               In ((target1, target2), label) (edge_table g) ->
               answer_relationship_question ratio shortest_path g entity1 entity2
               = Ok (relation_sentence target1 label target2))
            /\ (forall label,
                  has_edge g target1 target2 = false ->
                  In ((target2, target1), label) (edge_table g) ->
                  answer_relationship_question ratio shortest_path g entity1 entity2
                  = Ok (relation_sentence target2 label target1))
            /\ (has_edge g target1 target2 = false ->
                has_edge g target2 target1 = false ->
                shortest_path g target1 target2 = Raise NetworkXNoPath ->
                answer_relationship_question ratio shortest_path g entity1 entity2
                = Ok ("No relationship found between " ++ target1 ++ " and "
                      ++ target2 ++ " in the knowledge graph.")%string).
Proof.
  unfold answer_relationship_question. split.
  - now intros ->.
  - intros target1 rest1 ->. split.
    + now intros ->.
    + intros target2 rest2 -> D. cbn [index nth_error bind].
      split; [ | split].
      * intros label H. destruct (@edge_data_entry g _ _ _ D H) as [E ->].
        rewrite E. reflexivity.
      * intros label N H. rewrite N.
        destruct (@edge_data_entry g _ _ _ D H) as [E ->]. rewrite E. reflexivity.
      * intros N1 N2 P. rewrite N1, N2.
        unfold find_path_between_entities. rewrite P. reflexivity.
Qed.

Lemma relationship_answer_prefers_direct_edges_witness :
  answer_relationship_question Difflib.ratio Bfs.shortest_path sample_graph
    "google" "larry page"
  = Ok (relation_sentence "Larry Page" (Some "co-founded") "Google")
  /\ relation_sentence "Larry Page" (Some "co-founded") "Google"
     = "Larry Page co-founded Google."
  /\ answer_relationship_question Difflib.ratio Bfs.shortest_path sample_graph
       "larry page" "sergey brin"
     = Ok ("No relationship found between " ++ "Larry Page" ++ " and "
           ++ "Sergey Brin" ++ " in the knowledge graph.")%string.
Proof.
  pose proof (proj2 (@relationship_answer_prefers_direct_edges Difflib.ratio
                       Bfs.shortest_path sample_graph "google" "larry page")
                "Google" []) as G.
  pose proof (proj2 (@relationship_answer_prefers_direct_edges Difflib.ratio
                       Bfs.shortest_path sample_graph "larry page" "sergey brin")
                "Larry Page" []) as L.
  split; [ | split; [reflexivity | ]].
  - apply (proj2 (G ltac:(vm_compute; reflexivity)) "Larry Page" []);
      [vm_compute; reflexivity | exact sample_graph_simple
       | vm_compute; reflexivity | vm_compute; auto].
  - apply (proj2 (L ltac:(vm_compute; reflexivity)) "Sergey Brin" []);
      [vm_compute; reflexivity | exact sample_graph_simple
       | vm_compute; reflexivity | vm_compute; reflexivity | vm_compute; reflexivity].
Defined.

End AnswerExtras.

(* ================================================================== *)
(** * The summary of a graph *)
(* ================================================================== *)

Module SummaryExtras.

Import Nx GraphFacts Router StrFacts Notions Samples.









Section WithComponents.

Variable number_weakly_connected_components : DiGraph -> nat.


End WithComponents.


End SummaryExtras.

(* ================================================================== *)
(** * Relationships along a path *)
(* ================================================================== *)

Module IndirectExtras.

Import Nx GraphFacts Resolution Paths Answers Router StrFacts Notions Samples.

Lemma path_relations_chain g :
  NoDup (map fst (edge_table g)) ->
  forall path,
    chain g path = true ->
    exists relations,
      path_relations g path = Ok relations
      /\ (2 <= List.length path -> relations <> [])
      /\ forall u v label,
           In (u, v) (hops path) -> In ((u, v), label) (edge_table g) ->
           In (u, Nx.get label "connected_to", v) relations.
Proof.
  intros D. induction path as [ | a path IH ]; intros C.
  - exists []. split; [reflexivity | split]; [simpl; lia | intros u v label []].
  - destruct path as [ | b path ].
    + exists []. split; [reflexivity | split]; [simpl; lia | intros u v label []].
    + change (has_edge g a b && chain g (b :: path) = true) in C.
      apply andb_true_iff in C. destruct C as [E C].
      destruct (edge_data_returns _ _ _ E) as (attrs & A).
      destruct (IH C) as (relations & R & _ & Hin).
      rewrite path_relations_step, A. cbn [bind]. rewrite R. cbn [bind].
      eexists. split; [reflexivity | split]; [discriminate | ].
      intros u v label H L.
      change (In (u, v) ((a, b) :: hops (b :: path))) in H.
      destruct H as [H | H].
      * inversion H; subst.
        destruct (@AnswerExtras.edge_data_entry g _ _ _ D L) as [A' _].
        rewrite A' in A. inversion A; subst. now left.
      * right. now apply Hin.
Qed.

(** X14: when both mentions of a relationship question resolve and no edge
    joins the two nodes in either direction, the answer depends on what
    [nx.shortest_path] gives.  Another exception than [NetworkXNoPath] is
    not caught.  A path of fewer than two nodes (the path from a node to
    itself) gives the answer that no relationship was found.  A longer path
    along edges, in a graph with one edge per ordered pair, gives an answer
    that starts as an indirect relationship and spells every hop of the
    path with the relation of its edge, connected_to for an edge without
    one. *)
Theorem indirect_answer_spells_the_path
  (ratio : string -> string -> Q)
  (shortest_path : DiGraph -> string -> string -> result (list string))
  (g : DiGraph) (entity1 entity2 target1 target2 : string)
  (rest1 rest2 : list string) :
  find_similar_entities ratio g entity1 default_threshold = target1 :: rest1 ->
  find_similar_entities ratio g entity2 default_threshold = target2 :: rest2 ->
  has_edge g target1 target2 = false ->
  has_edge g target2 target1 = false ->
  (forall e, e <> NetworkXNoPath ->
             shortest_path g target1 target2 = Raise e ->
             answer_relationship_question ratio shortest_path g entity1 entity2
             = Raise e)
  /\ (forall path,
        shortest_path g target1 target2 = Ok path ->
        List.length path <= 1 ->
        answer_relationship_question ratio shortest_path g entity1 entity2
        = Ok ("No relationship found between " ++ target1 ++ " and "
              ++ target2 ++ " in the knowledge graph.")%string)
  /\ (forall path,
        shortest_path g target1 target2 = Ok path ->
        2 <= List.length path ->
        chain g path = true ->
        NoDup (map fst (edge_table g)) ->
        exists answer,
          answer_relationship_question ratio shortest_path g entity1 entity2
          = Ok answer
          /\ prefix "There is an indirect relationship: " answer = true
          /\ forall u v label,
               In (u, v) (hops path) -> In ((u, v), label) (edge_table g) ->
               Str.contains
                 (u ++ " (" ++ Nx.get label "connected_to" ++ ") " ++ v) answer
               = true).
Proof.
  intros F1 F2 N1 N2. unfold answer_relationship_question.
  rewrite F1, F2. cbn [index nth_error bind]. rewrite N1, N2.
  unfold find_path_between_entities. split; [ | split].
  - intros e Ne P. rewrite P. cbn [bind]. destruct e; (reflexivity || congruence).
  - intros path P L. rewrite P. cbn [bind].
    destruct path as [ | a [ | b path ] ]; [reflexivity | reflexivity | simpl in L; lia].
  - intros path P L C D. rewrite P. cbn [bind].
    destruct (@path_relations_chain g D path C) as (relations & R & Ne & Hin).
    rewrite R. cbn [bind].
    destruct relations as [ | t relations ]; [now destruct (Ne L) | ].
    eexists. split; [reflexivity | split].
    + apply prefix_append.
    + intros u v label H E. apply contains_after, contains_join.
      exact (in_map (fun '(source, relation, target) =>
                       (source ++ " (" ++ relation ++ ") " ++ target)%string)
                    _ _ (Hin u v label H E)).
Qed.

Lemma alphabet_graph_simple : NoDup (map fst (edge_table alphabet_graph)).
Proof.
  vm_compute. repeat constructor; simpl; intuition discriminate.
Qed.

Lemma indirect_answer_spells_the_path_witness :
  answer_relationship_question Difflib.ratio Bfs.shortest_path alphabet_graph
    "larry page" "alphabet"
  = Ok ("There is an indirect relationship: "
        ++ "Larry Page (co-founded) Google -> Google (connected_to) Alphabet")%string
  /\ answer_relationship_question Difflib.ratio Bfs.shortest_path alphabet_graph
       "alphabet" "alphabet"
     = Ok ("No relationship found between " ++ "Alphabet" ++ " and "
           ++ "Alphabet" ++ " in the knowledge graph.")%string
  /\ exists answer,
       answer_relationship_question Difflib.ratio Bfs.shortest_path alphabet_graph
         "larry page" "alphabet" = Ok answer
       /\ prefix "There is an indirect relationship: " answer = true.
Proof.
  split; [vm_compute; reflexivity | split].
  - apply (proj1 (proj2 (@indirect_answer_spells_the_path Difflib.ratio
                           Bfs.shortest_path alphabet_graph "alphabet" "alphabet"
                           "Alphabet" "Alphabet" [] []
                           ltac:(vm_compute; reflexivity) ltac:(vm_compute; reflexivity)
                           ltac:(vm_compute; reflexivity) ltac:(vm_compute; reflexivity)))
             ["Alphabet"]);
      [vm_compute; reflexivity | simpl; lia].
  - destruct (proj2 (proj2 (@indirect_answer_spells_the_path Difflib.ratio
                              Bfs.shortest_path alphabet_graph "larry page" "alphabet"
                              "Larry Page" "Alphabet" [] []
                              ltac:(vm_compute; reflexivity) ltac:(vm_compute; reflexivity)
                              ltac:(vm_compute; reflexivity) ltac:(vm_compute; reflexivity)))
                ["Larry Page"; "Google"; "Alphabet"]
                ltac:(vm_compute; reflexivity) ltac:(simpl; lia)
                ltac:(vm_compute; reflexivity) alphabet_graph_simple)
      as (answer & A & P & _).
    exists answer. now split.
Defined.

End IndirectExtras.

(* ================================================================== *)
(** * The storage of the endpoints *)
(* ================================================================== *)

Module DictFacts.

Import Api.

Section WithValues.

Variable V : Type.

Implicit Types (d : dict V) (key other : string) (value : V).

Lemma dict_at_key_eq key (item : string * V) :
  at_key key item = true <-> fst item = key.
Proof. unfold at_key. apply String.eqb_eq. Qed.

Lemma dict_contains_In key d : contains key d = true <-> In key (map fst d).
Proof.
  unfold contains. rewrite existsb_exists, in_map_iff. split.
  - intros (item & H & E). exists item. split; [now apply dict_at_key_eq | exact H].
  - intros (item & E & H). exists item. split; [exact H | now apply dict_at_key_eq].
Qed.

Lemma dict_contains_getitem key d :
  contains key d = true <-> exists value, getitem key d = Ok value.
Proof.
  unfold contains, getitem. split.
  - intros H. destruct (find (at_key key) d) as [item | ] eqn:F; [now eexists | ].
    apply existsb_exists in H. destruct H as (item & Hin & E).
    now rewrite (find_none _ _ F item Hin) in E.
  - intros (value & H).
    destruct (find (at_key key) d) as [item | ] eqn:F; [ | discriminate].
    apply find_some in F. apply existsb_exists. now exists item.
Qed.

Lemma dict_keys_setitem key value d :
  map fst (setitem key value d)
  = if contains key d then map fst d else map fst d ++ [key].
Proof.
  unfold setitem. destruct (contains key d).
  - rewrite map_map. apply map_ext_in. intros item _.
    destruct (at_key key item) eqn:E; [ | reflexivity].
    apply dict_at_key_eq in E. now rewrite E.
  - now rewrite map_app.
Qed.

Lemma dict_find_replaced key other value : forall d,
  other <> key ->
  find (at_key other) (map (fun item => if at_key key item then (key, value) else item) d)
  = find (at_key other) d.
Proof.
  intros d N. induction d as [ | item d IH ]; [reflexivity | ].
  cbn [map find]. destruct (at_key key item) eqn:E.
  - apply dict_at_key_eq in E.
    assert (A : at_key other (key, value) = false).
    { unfold at_key. apply String.eqb_neq. simpl. congruence. }
    assert (B : at_key other item = false).
    { unfold at_key. apply String.eqb_neq. congruence. }
    now rewrite A, B.
  - now rewrite IH.
Qed.

Lemma dict_find_set key value : forall d,
  contains key d = true ->
  find (at_key key) (map (fun item => if at_key key item then (key, value) else item) d)
  = Some (key, value).
Proof.
  induction d as [ | item d IH ]; intros H; [discriminate | ].
  cbn [map find]. destruct (at_key key item) eqn:E.
  - unfold at_key at 1. simpl. now rewrite String.eqb_refl.
  - rewrite E. apply IH. unfold contains in H. simpl in H. now rewrite E in H.
Qed.

Lemma dict_find_appended key value : forall d,
  contains key d = false ->
  find (at_key key) (d ++ [(key, value)]) = Some (key, value).
Proof.
  induction d as [ | item d IH ]; intros H.
  - simpl. unfold at_key. simpl. now rewrite String.eqb_refl.
  - unfold contains in H. simpl in H. apply orb_false_iff in H.
    destruct H as [E H]. simpl. rewrite E. now apply IH.
Qed.

Lemma dict_find_before (f : string * V -> bool) : forall d more,
  find f (d ++ more) = match find f d with Some item => Some item | None => find f more end.
Proof.
  induction d as [ | item d IH ]; intros more; [reflexivity | ].
  simpl. destruct (f item); [reflexivity | apply IH].
Qed.

(** What is written under a key is read back. *)
Lemma dict_getitem_setitem key value d : getitem key (setitem key value d) = Ok value.
Proof.
  unfold getitem, setitem. destruct (contains key d) eqn:C.
  - now rewrite dict_find_set.
  - now rewrite dict_find_appended.
Qed.

(** Writing under a key leaves the other keys alone. *)
Lemma dict_getitem_setitem_other key other value d :
  other <> key -> getitem other (setitem key value d) = getitem other d.
Proof.
  intros N. unfold getitem, setitem. destruct (contains key d).
  - now rewrite dict_find_replaced.
  - rewrite dict_find_before. destruct (find (at_key other) d); [reflexivity | ].
    simpl. unfold at_key. simpl.
    destruct (String.eqb key other) eqn:E; [ | reflexivity].
    apply String.eqb_eq in E. congruence.
Qed.

Lemma dict_NoDup_setitem key value d :
  NoDup (map fst d) -> NoDup (map fst (setitem key value d)).
Proof.
  intros D. rewrite dict_keys_setitem. destruct (contains key d) eqn:C; [exact D | ].
  apply NoDup_app; [exact D | repeat constructor; intros [] | ].
  intros k Hk [<- | []].
  apply dict_contains_In in Hk. congruence.
Qed.

Lemma dict_length_setitem key value d :
  List.length (setitem key value d)
  = if contains key d then List.length d else S (List.length d).
Proof.
  unfold setitem. destruct (contains key d).
  - apply length_map.
  - rewrite length_app. simpl. lia.
Qed.

Lemma dict_contains_without key d : contains key (without key d) = false.
Proof.
  unfold contains, without.
  destruct (existsb (at_key key) (filter (fun item => negb (at_key key item)) d)) eqn:E;
    [ | reflexivity].
  apply existsb_exists in E. destruct E as (item & H & A).
  apply filter_In in H. destruct H as [_ H]. now rewrite A in H.
Qed.

Lemma dict_find_without key other : forall d,
  other <> key -> find (at_key other) (without key d) = find (at_key other) d.
Proof.
  intros d N. induction d as [ | item d IH ]; [reflexivity | ].
  cbn [without filter find]. destruct (at_key key item) eqn:E; cbn [negb].
  - apply dict_at_key_eq in E.
    assert (B : at_key other item = false).
    { unfold at_key. apply String.eqb_neq. congruence. }
    rewrite B. exact IH.
  - cbn [find]. destruct (at_key other item); [reflexivity | exact IH].
Qed.

Lemma dict_NoDup_without key d : NoDup (map fst d) -> NoDup (map fst (without key d)).
Proof.
  induction d as [ | item d IH ]; intros D; [constructor | ].
  inversion D as [ | ? ? Hn D' ]; subst.
  cbn [without filter]. destruct (negb (at_key key item)); [ | now apply IH].
  cbn [map]. constructor; [ | now apply IH].
  intros H. apply Hn. apply in_map_iff in H. destruct H as (x & E & H).
  apply filter_In in H. apply in_map_iff. exists x. tauto.
Qed.

Lemma dict_without_absent key : forall d,
  contains key d = false -> without key d = d.
Proof.
  induction d as [ | item d IH ]; intros H; [reflexivity | ].
  unfold contains in H. simpl in H. apply orb_false_iff in H. destruct H as [E H].
  cbn [without filter]. rewrite E. cbn [negb]. f_equal. now apply IH.
Qed.

(** With distinct keys, one item goes: the one under the key. *)
Lemma dict_without_splits key value (count : V -> nat) : forall d,
  NoDup (map fst d) ->
  getitem key d = Ok value ->
  List.length d = S (List.length (without key d))
  /\ list_sum (map (fun item => count (snd item)) d)
     = count value + list_sum (map (fun item => count (snd item)) (without key d)).
Proof.
  induction d as [ | item d IH ]; intros D G; [discriminate | ].
  inversion D as [ | ? ? Hn D' ]; subst.
  unfold getitem in G. cbn [find] in G. cbn [without filter].
  destruct (at_key key item) eqn:E; cbn [negb].
  - inversion G; subst.
    apply dict_at_key_eq in E. subst key.
    assert (A : contains (fst item) d = false).
    { destruct (contains (fst item) d) eqn:C; [ | reflexivity].
      apply dict_contains_In in C. contradiction. }
    fold (without (fst item) d). rewrite (@dict_without_absent (fst item) d A).
    split; reflexivity.
  - fold (without key d). destruct (IH D' G) as [L S]. split.
    + cbn [List.length]. now rewrite L.
    + cbn [map]. unfold list_sum in *. cbn [fold_right]. rewrite S. lia.
Qed.

End WithValues.

End DictFacts.

(* ================================================================== *)
(** * The endpoints *)
(* ================================================================== *)

Module ApiExtras.

Import Nx Builder Router Notions Samples Api DictFacts.

Section WithLibraries.

Variable order : set_iteration.
Variable split_text : string -> list string.
Variable ratio : string -> string -> Q.
Variable shortest_path : DiGraph -> string -> string -> result (list string).
Variable components : DiGraph -> nat.
Variable float : Type.
Variable rounded_density : DiGraph -> float.
Variable int_dict : Type.
Variable validate : graph_stats float -> option int_dict.
Variable str : error -> string.

Lemma build_graph_returns texts :
  exists graph, build_graph order split_text texts = Ok graph.
Proof.
  unfold build_graph. destruct texts as [ | text texts ]; [now eexists | ].
  eexists. apply AssemblyExtras.build_graph_from_chunks_assemble.
Qed.

(** X15: a request in error.  [ingest_texts] raises its own status 400 for
    an empty list of texts inside the block whose handler catches every
    exception, so the request gets status 500, with the text of the 400 in
    the detail, and the storage is left as it was; whatever the input,
    [ingest_texts] raises nothing but status 500.  [query_graph],
    [get_graph_summary_endpoint] and [delete_graph] raise status 404 for an
    identifier the storage does not have, [delete_graph] leaving the storage
    as it was; for an identifier it has, the first two raise nothing but
    status 500 and [delete_graph] returns its message. *)
Theorem failed_requests_get_http_errors :
  (forall uuid4 now description s,
     ingest_texts order split_text components rounded_density validate str
       uuid4 now [] description s
     = (s, Raises (HTTPException 500
                     ("Internal server error: "
                      ++ str (HTTPException 400 "No texts provided"))%string)))
  /\ (forall uuid4 now texts description s e,
        snd (ingest_texts order split_text components rounded_density validate str
               uuid4 now texts description s) = Raises e ->
        exists cause,
          e = HTTPException 500 ("Internal server error: " ++ str cause)%string)
  /\ (forall graph_id question s,
        contains graph_id s = false ->
        query_graph ratio shortest_path validate str graph_id question s
        = Raises (not_found graph_id)
        /\ get_graph_summary_endpoint components validate str graph_id s
           = Raises (not_found graph_id)
        /\ delete_graph str graph_id s = (s, Raises (not_found graph_id)))
  /\ (forall graph_id question s e,
        contains graph_id s = true ->
        query_graph ratio shortest_path validate str graph_id question s = Raises e
        \/ get_graph_summary_endpoint components validate str graph_id s = Raises e ->
        exists cause,
          e = HTTPException 500 ("Internal server error: " ++ str cause)%string)
  /\ (forall graph_id (s : storage float),
        contains graph_id s = true ->
        snd (delete_graph str graph_id s)
        = Returns ("Successfully deleted graph " ++ graph_id)%string).
Proof.
  split; [reflexivity | split; [ | split; [ | split]]].
  - intros uuid4 now texts description s e. unfold ingest_texts.
    destruct texts as [ | text texts ].
    + cbn [snd except_exception]. intros H. inversion H. now eexists.
    + destruct (build_graph order split_text (text :: texts)) as [graph | x].
      * rewrite dict_getitem_setitem.
        destruct (validate (get_graph_stats components rounded_density graph));
          cbn [snd except_exception]; intros H; inversion H. now eexists.
      * cbn [snd except_exception]. intros H. inversion H. now eexists.
  - intros graph_id question s C.
    unfold query_graph, get_graph_summary_endpoint, delete_graph.
    rewrite C. repeat split.
  - intros graph_id question s e C.
    unfold query_graph, get_graph_summary_endpoint. rewrite C. cbn [negb].
    destruct (getitem graph_id s) as [data | x].
    + destruct (validate (data_stats data)).
      * destruct (answer_question ratio shortest_path (data_graph data) question);
          cbn [except_http_exception except_exception]; intros [H | H];
          inversion H; now eexists.
      * destruct (answer_question ratio shortest_path (data_graph data) question);
          cbn [except_http_exception except_exception]; intros [H | H];
          inversion H; now eexists.
    + cbn [except_http_exception except_exception]. intros [H | H];
        inversion H; now eexists.
  - intros graph_id s C. unfold delete_graph, delitem. rewrite C. reflexivity.
Qed.

(** X16: [delete_graph] on a storage with distinct identifiers, for an
    identifier it has, removes that graph and nothing else: the identifier
    is gone, every other identifier reads as before, [health_check] reports
    one active graph less and totals of nodes and edges lower by those of
    the graph deleted, and deleting once more raises status 404. *)
Theorem delete_forgets_one_graph
  (graph_id : string) (s : storage float) (data : graph_data float) :
  NoDup (map fst s) ->
  getitem graph_id s = Ok data ->
  exists s' active total_nodes total_edges,
    delete_graph str graph_id s
    = (s', Returns ("Successfully deleted graph " ++ graph_id)%string)
    /\ NoDup (map fst s')
    /\ contains graph_id s' = false
    /\ (forall other, other <> graph_id -> getitem other s' = getitem other s)
    /\ health_check s'
       = HealthReport "healthy" "Semantic Knowledge Graph QA Agent" "0.1.0"
           active total_nodes total_edges
    /\ health_check s
       = HealthReport "healthy" "Semantic Knowledge Graph QA Agent" "0.1.0"
           (S active)
           (stats_nodes (data_stats data) + total_nodes)
           (stats_edges (data_stats data) + total_edges)
    /\ delete_graph str graph_id s' = (s', Raises (not_found graph_id)).
Proof.
  intros D G.
  assert (C : contains graph_id s = true) by (apply dict_contains_getitem; now exists data).
  exists (without graph_id s), (List.length (without graph_id s)),
    (total (@stats_nodes float) (without graph_id s)),
    (total (@stats_edges float) (without graph_id s)).
  split; [ | split; [ | split; [ | split; [ | split; [ | split]]]]].
  - unfold delete_graph, delitem. now rewrite C.
  - now apply dict_NoDup_without.
  - apply dict_contains_without.
  - intros other N. unfold getitem. now rewrite dict_find_without.
  - reflexivity.
  - unfold health_check, total.
    destruct (@dict_without_splits _ graph_id data
                (fun d => stats_nodes (data_stats d)) s D G) as [L Sn].
    destruct (@dict_without_splits _ graph_id data
                (fun d => stats_edges (data_stats d)) s D G) as [_ Se].
    now rewrite L, Sn, Se.
  - unfold delete_graph. now rewrite dict_contains_without.
Qed.

(** X17: [ingest_texts] with a text builds the graph of the texts and stores
    it, with the texts, the description, the time and its statistics, under
    the new identifier, before the response is made: the stored graph is
    there whether the response validates, in which case it reports the
    numbers of nodes and edges of the graph, or not, in which case the
    request gets status 500.  Other identifiers keep their graphs, distinct
    identifiers stay distinct, and a new identifier makes the storage one
    longer. *)
Theorem ingest_stores_the_built_graph
  (uuid4 now : string) (texts : list string) (description : option string)
  (s : storage float) :
  texts <> [] ->
  exists graph reply,
    build_graph order split_text texts = Ok graph
    /\ ingest_texts order split_text components rounded_density validate str
         uuid4 now texts description s
       = (setitem uuid4
            (GraphData graph texts description now
               (get_graph_stats components rounded_density graph)) s,
          reply)
    /\ getitem uuid4
         (setitem uuid4
            (GraphData graph texts description now
               (get_graph_stats components rounded_density graph)) s)
       = Ok (GraphData graph texts description now
               (Stats (number_of_nodes graph) (number_of_edges graph)
                      (components graph) (rounded_density graph)))
    /\ (forall other,
          other <> uuid4 ->
          getitem other
            (setitem uuid4
               (GraphData graph texts description now
                  (get_graph_stats components rounded_density graph)) s)
          = getitem other s)
    /\ (NoDup (map fst s) ->
        NoDup (map fst (fst (ingest_texts order split_text components rounded_density
                               validate str uuid4 now texts description s))))
    /\ (contains uuid4 s = false ->
        root (fst (ingest_texts order split_text components rounded_density
                     validate str uuid4 now texts description s))
        = Health "healthy" "Semantic Knowledge Graph QA Agent is running"
            (S (List.length s)))
    /\ (forall checked,
          validate (get_graph_stats components rounded_density graph) = Some checked ->
          reply
          = Returns
              (Ingested uuid4
                 ("Successfully created knowledge graph with "
                  ++ str_of_nat (number_of_nodes graph) ++ " entities and "
                  ++ str_of_nat (number_of_edges graph) ++ " relationships")%string
                 checked now))
    /\ (validate (get_graph_stats components rounded_density graph) = None ->
        reply
        = Raises (HTTPException 500
                    ("Internal server error: " ++ str ValidationError)%string)).
Proof.
  intros N. destruct (build_graph_returns texts) as (graph & B).
  assert (I : ingest_texts order split_text components rounded_density validate str
                uuid4 now texts description s
              = (setitem uuid4
                   (GraphData graph texts description now
                      (get_graph_stats components rounded_density graph)) s,
                 except_exception str
                   match validate (get_graph_stats components rounded_density graph) with
                   | None => Raises ValidationError
                   | Some checked =>
                       Returns (Ingested uuid4
                                  (ingest_message
                                     (get_graph_stats components rounded_density graph))
                                  checked now)
                   end)).
  { unfold ingest_texts. destruct texts as [ | text texts ]; [congruence | ].
    rewrite B, dict_getitem_setitem. reflexivity. }
  exists graph. eexists. split; [exact B | ].
  split; [exact I | ].
  split; [apply dict_getitem_setitem | ].
  split; [intros other O; now apply dict_getitem_setitem_other | ].
  split; [intros D; rewrite I; now apply dict_NoDup_setitem | ].
  split; [intros C; rewrite I; unfold root; cbn [fst];
          now rewrite dict_length_setitem, C | ].
  split.
  - intros checked ->. reflexivity.
  - intros ->. reflexivity.
Qed.

(** X18: after [ingest_texts] with a text, the graph built from the texts is
    the one the other endpoints use under the new identifier.  With a path
    finder that returns paths along edges or raises [NetworkXNoPath],
    [query_graph] returns the answer of [answer_question] on that graph, and
    [get_graph_summary_endpoint] its summary, when the statistics validate,
    and both raise status 500 when they do not; and once [delete_graph] has
    run for the identifier, [query_graph] raises status 404. *)
Theorem stored_graph_answers_queries
  (uuid4 now : string) (texts : list string) (description : option string)
  (s : storage float) (question : string) :
  texts <> [] ->
  finds_paths shortest_path ->
  exists graph answer,
    build_graph order split_text texts = Ok graph
    /\ answer_question ratio shortest_path graph question = Ok answer
    /\ query_graph ratio shortest_path validate str uuid4 question
         (fst (ingest_texts order split_text components rounded_density validate str
                 uuid4 now texts description s))
       = match validate (get_graph_stats components rounded_density graph) with
         | Some checked => Returns (Answered answer uuid4 question checked)
         | None => Raises (HTTPException 500
                             ("Internal server error: " ++ str ValidationError)%string)
         end
    /\ get_graph_summary_endpoint components validate str uuid4
         (fst (ingest_texts order split_text components rounded_density validate str
                 uuid4 now texts description s))
       = match validate (get_graph_stats components rounded_density graph) with
         | Some checked =>
             Returns (Summarized uuid4 (get_graph_summary components graph) checked)
         | None => Raises (HTTPException 500
                             ("Internal server error: " ++ str ValidationError)%string)
         end
    /\ query_graph ratio shortest_path validate str uuid4 question
         (fst (delete_graph str uuid4
                 (fst (ingest_texts order split_text components rounded_density
                         validate str uuid4 now texts description s))))
       = Raises (not_found uuid4).
Proof.
  intros N paths. destruct (build_graph_returns texts) as (graph & B).
  destruct (@Answers.answer_question_returns ratio shortest_path paths graph question)
    as (answer & A).
  exists graph, answer. split; [exact B | split; [exact A | ]].
  assert (I : fst (ingest_texts order split_text components rounded_density validate str
                     uuid4 now texts description s)
              = setitem uuid4
                  (GraphData graph texts description now
                     (get_graph_stats components rounded_density graph)) s).
  { unfold ingest_texts. destruct texts as [ | text texts ]; [congruence | ].
    now rewrite B. }
  rewrite I.
  assert (C : contains uuid4
                (setitem uuid4
                   (GraphData graph texts description now
                      (get_graph_stats components rounded_density graph)) s) = true).
  { apply dict_contains_getitem. eexists. apply dict_getitem_setitem. }
  split; [ | split].
  - unfold query_graph. rewrite C, dict_getitem_setitem. cbn [negb data_graph data_stats].
    rewrite A.
    now destruct (validate (get_graph_stats components rounded_density graph)).
  - unfold get_graph_summary_endpoint. rewrite C, dict_getitem_setitem.
    cbn [negb data_graph data_stats].
    now destruct (validate (get_graph_stats components rounded_density graph)).
  - unfold delete_graph, delitem. rewrite C. cbn [negb fst].
    unfold query_graph. now rewrite dict_contains_without.
Qed.

End WithLibraries.

Lemma sample_storage_distinct : NoDup (map fst sample_storage).
Proof. repeat constructor. intros []. Qed.

Lemma delete_forgets_one_graph_witness :
  exists s',
    delete_graph detail_of "g1" sample_storage
    = (s', Returns "Successfully deleted graph g1")
    /\ contains "g1" s' = false
    /\ delete_graph detail_of "g1" s' = (s', Raises (not_found "g1")).
Proof.
  destruct (@delete_forgets_one_graph unit detail_of "g1" sample_storage
              (GraphData sample_graph ["Larry Page founded Google."] None
                 "2024-01-01T00:00:00"
                 (get_graph_stats one_component no_density sample_graph))
              sample_storage_distinct ltac:(reflexivity))
    as (s' & active & total_nodes & total_edges & H1 & _ & H3 & _ & _ & _ & H7).
  exists s'. split; [exact H1 | split; [exact H3 | exact H7]].
Defined.

Lemma ingest_stores_the_built_graph_witness :
  [john_text] <> []
  /\ exists graph reply,
       build_graph insertion_order one_chunk [john_text] = Ok graph
       /\ ingest_texts insertion_order one_chunk one_component no_density counts
            detail_of "g2" "2024-01-02T00:00:00" [john_text] None sample_storage
          = (setitem "g2"
               (GraphData graph [john_text] None "2024-01-02T00:00:00"
                  (get_graph_stats one_component no_density graph))
               sample_storage,
             reply).
Proof.
  assert (N : [john_text] <> []) by discriminate.
  split; [exact N | ].
  destruct (@ingest_stores_the_built_graph insertion_order one_chunk one_component
              unit no_density (nat * nat * nat)%type counts detail_of
              "g2" "2024-01-02T00:00:00" [john_text] None sample_storage N)
    as (graph & reply & B & I & _).
  exists graph, reply. split; [exact B | exact I].
Defined.

Lemma stored_graph_answers_queries_witness :
  exists graph answer,
    build_graph insertion_order one_chunk [john_text] = Ok graph
    /\ answer_question Difflib.ratio Bfs.shortest_path graph "Who is John?" = Ok answer
    /\ query_graph Difflib.ratio Bfs.shortest_path counts detail_of "g2" "Who is John?"
         (fst (delete_graph detail_of "g2"
                 (fst (ingest_texts insertion_order one_chunk one_component no_density
                         counts detail_of "g2" "2024-01-02T00:00:00" [john_text] None
                         sample_storage))))
       = Raises (not_found "g2").
Proof.
  destruct (@stored_graph_answers_queries insertion_order one_chunk Difflib.ratio
              Bfs.shortest_path one_component unit no_density (nat * nat * nat)%type
              counts detail_of "g2" "2024-01-02T00:00:00" [john_text] None
              sample_storage "Who is John?"
              ltac:(discriminate) Paths.search_finds_paths)
    as (graph & answer & B & A & _ & _ & Q).
  exists graph, answer. split; [exact B | split; [exact A | exact Q]].
Defined.

End ApiExtras.
